(** * Unit normalisation of BOQ line items

    A shallow embedding of the unit-of-measure subsystem:

    - [scripts/migrate_units_names_to_ids.cjs]  (Migration Pipeline),
    - [scripts/units_normalize_runner.cjs]      (Normalization Runner),
    - [scripts/cleanup_boq_legacy_units.cjs]    (Legacy Field Cleanup),
    - the unit cell of the viewer in [src/pages/BOQs.tsx] and the item
      flattening of [src/utils/boqPdfGenerator.ts].

    Conventions of the model.

    - A BOQ item is a JSON object: a finite map from property names to JSON
      scalars.  Reading an absent property yields [None] (JavaScript's
      [undefined]); [delete item.k] removes the key; [item.k = v] inserts.
    - A string value is its sequence of UTF-16 code units, so that [length],
      [substring] and [===] are the ones of JavaScript.  The case mappings
      [toLowerCase] and [toUpperCase] of [String.prototype] depend on the
      Unicode character tables; they are parameters of the development, and
      every general statement holds whatever functions they are.
    - The numbers of the items are carried around by the code modelled here
      and never computed with; they are integers.
    - An entry of an [items] array is an object or [null] ([None]); entries of
      [sections] are objects.
    - A database run is a function from the store to [option]: [None] is a
      thrown exception, which the scripts answer with ROLLBACK. *)

From Stdlib Require Import ZArith NArith Ascii String List Bool Lia.
From stdpp Require Import base option list strings gmap.

Local Open Scope string_scope.
Local Open Scope list_scope.

(** ** Strings *)

(** A JavaScript string: its UTF-16 code units. *)
Abbreviation jstring := (list N).

(** A literal of ASCII characters, one code unit per character. *)
Definition js (s : string) : jstring := map N_of_ascii (list_ascii_of_string s).

Coercion js : string >-> list.

#[local] Arguments Some {A} & a.
#[local] Arguments cons {A} & a l.

(** [String.prototype.toLowerCase] and [String.prototype.toUpperCase]. *)
Class CaseFolding : Type := {
  toLowerCase : jstring -> jstring;
  toUpperCase : jstring -> jstring;
}.

(** On strings of ASCII code units the two mappings fold the letters A-Z and
    a-z and leave every other code unit alone.  The examples of this
    development hold such strings only and are computed with this folding. *)
Definition lower_unit (c : N) : N :=
  if (65 <=? c)%N && (c <=? 90)%N then (c + 32)%N else c.

Definition upper_unit (c : N) : N :=
  if (97 <=? c)%N && (c <=? 122)%N then (c - 32)%N else c.

Definition ascii_folding : CaseFolding :=
  {| toLowerCase := map lower_unit; toUpperCase := map upper_unit |}.

(** ** JavaScript values *)

Inductive json : Type :=
| JNull
| JBool (b : bool)
| JNum (n : Z)
| JStr (s : jstring).

#[global] Instance json_eq_dec : EqDecision json.
Proof. solve_decision. Defined.

(** The result of a property read: [None] is [undefined]. *)
Abbreviation jsval := (option json).

Definition str_truthy (s : jstring) : bool :=
  match s with [] => false | _ :: _ => true end.

Definition truthy (v : jsval) : bool :=
  match v with
  | None | Some JNull => false
  | Some (JBool b) => b
  | Some (JNum n) => negb (n =? 0)%Z
  | Some (JStr s) => str_truthy s
  end.

(** [a || b] *)
Definition js_or (a b : jsval) : jsval := if truthy a then a else b.

(** A nullable TEXT column read by the driver: NULL becomes [null]. *)
Definition of_text (o : option jstring) : jsval :=
  Some (match o with Some s => JStr s | None => JNull end).

(** ** Data model *)

(** An item of [data.sections[].items[]]. *)
Abbreviation item := (gmap string json).

(** A row of [SELECT id, name, abbreviation FROM units]: [name] is
    [TEXT NOT NULL], [abbreviation] is nullable. *)
Record unit_t : Type := mkUnit {
  id : jstring;
  name : jstring;
  abbreviation : option jstring;
}.

#[global] Instance unit_t_eq_dec : EqDecision unit_t.
Proof. solve_decision. Defined.

(** A row of the [units] table. *)
Record unit_row : Type := mkUnitRow {
  ur_company : option jstring;
  ur_unit : unit_t;
}.

Record section : Type := mkSection {
  title : option jstring;
  items : option (list (option item));   (* [None]: absent or not an array *)
}.

Record boq_data : Type := mkData {
  sections : option (list section);      (* [None]: absent or not an array *)
}.

(** A row of the [boqs] table. *)
Record boq_row : Type := mkBoq {
  b_id : jstring;
  b_number : option jstring;
  b_company : option jstring;
  b_data : option boq_data;              (* [None]: SQL NULL *)
}.

Record store : Type := mkStore {
  companies : list jstring;               (* [SELECT id FROM companies] *)
  units : list unit_row;
  boqs : list boq_row;
}.

Section Model.
Context {folding : CaseFolding}.

(** ** Unit Resolver (migrate_units_names_to_ids.cjs, lines 43-44) *)

(** [u.name && u.name.toLowerCase() === unitName.toLowerCase()] *)
Definition name_matches (unitName : jstring) (u : unit_t) : bool :=
  str_truthy (name u) && bool_decide (toLowerCase (name u) = toLowerCase unitName).

(** [u.abbreviation && u.abbreviation.toLowerCase() === unitName.toLowerCase()] *)
Definition abbr_matches (unitName : jstring) (u : unit_t) : bool :=
  match abbreviation u with
  | Some a => str_truthy a && bool_decide (toLowerCase a = toLowerCase unitName)
  | None => false
  end.

Definition resolve (unitName : jstring) (us : list unit_t) : option unit_t :=
  match find (name_matches unitName) us with
  | Some m => Some m
  | None => find (abbr_matches unitName) us
  end.

(** [unitName.length <= 6 ? unitName : unitName.substring(0,3).toUpperCase()] *)
Definition make_abbrev (unitName : jstring) : jstring :=
  if (length unitName <=? 6)%nat then unitName
  else toUpperCase (take 3 unitName).

(** [uuid_generate_v4()], the default of [units.id]: a non-empty identifier
    that is not yet a primary key of the table.  The model picks one that is
    longer than every key in use. *)
Definition fresh_uuid (tbl : list unit_row) : jstring :=
  "u" ++ concat (map (fun r => id (ur_unit r)) tbl).

(** ** Property writes *)

(** [item.k = v]; a property set to [undefined] reads like an absent one and
    is dropped when the document is serialised. *)
Definition set_prop (k : string) (v : jsval) (it : item) : item :=
  match v with
  | Some j => <[k := j]> it
  | None => delete k it
  end.

(** ** The state of a run

    The transaction in progress: the array [units] loaded for the current
    company, the two tables as the transaction sees them, and the write
    statements issued so far. *)

Inductive stmt : Type :=
| InsertUnit (r : unit_row)
| UpdateBoq (bid : jstring) (d : boq_data).

Record run_state : Type := mkRun {
  mem_units : list unit_t;
  db_units : list unit_row;
  db_boqs : list boq_row;
  log : list stmt;
}.

(** [INSERT INTO units (company_id, name, abbreviation, ...) VALUES ($1, $2, $3, ...)
     RETURNING id, name, abbreviation] *)
Definition insert_unit (companyId unitName abbrev : jstring) (st : run_state)
  : unit_t * run_state :=
  let newUnit := mkUnit (fresh_uuid (db_units st)) unitName (Some abbrev) in
  let row := mkUnitRow (Some companyId) newUnit in
  (newUnit,
   mkRun (mem_units st) (db_units st ++ [row]) (db_boqs st) (log st ++ [InsertUnit row])).

(** [UPDATE boqs SET data = $1, updated_at = NOW() WHERE id = $2] *)
Definition update_boq (bid : jstring) (d : boq_data) (tbl : list boq_row) : list boq_row :=
  map (fun r => if bool_decide (b_id r = bid)
                then mkBoq (b_id r) (b_number r) (b_company r) (Some d) else r) tbl.

(** [units.push(u)] *)
Definition push_unit (u : unit_t) (st : run_state) : run_state :=
  mkRun (mem_units st ++ [u]) (db_units st) (db_boqs st) (log st).

(** ** Migration Pipeline, per item (migrate_units_names_to_ids.cjs, lines 35-63) *)

(** Lines 47-49 and 56-58. *)
Definition write_unit (m : unit_t) (it : item) : item :=
  set_prop "unit_abbreviation" (js_or (of_text (abbreviation m)) (Some JNull))
    (set_prop "unit_name" (Some (JStr (name m)))
      (set_prop "unit_id" (Some (JStr (id m))) it)).

Definition migrate_item (companyId : jstring) (st : run_state) (e : option item)
  : option (run_state * option item * bool) :=
  match e with
  | None => None                                   (* [item.unit_id] of null *)
  | Some it =>
    if truthy (it !! "unit_id") then Some (st, Some it, false)
    else
      let unitName := js_or (it !! "unit_name") (it !! "unit") in
      if negb (truthy unitName) then Some (st, Some it, false)
      else
        match unitName with
        | Some (JStr tok) =>
          match resolve tok (mem_units st) with
          | Some m => Some (st, Some (write_unit m it), true)
          | None =>
            let abbrev := make_abbrev tok in
            let '(newUnit, st1) := insert_unit companyId tok abbrev st in
            Some (push_unit newUnit st1, Some (write_unit newUnit it), true)
          end
        | _ => None          (* [unitName.toLowerCase] / [.substring] is not a function *)
        end
  end.

(** ** Normalization Runner, per item (units_normalize_runner.cjs, lines 29-42) *)

(** [u.abbreviation || u.name] *)
Definition abbr_or_name (u : unit_t) : jsval :=
  js_or (of_text (abbreviation u)) (Some (JStr (name u))).

(** [u.id === item.unit_id] *)
Definition id_is (v : jsval) (u : unit_t) : bool :=
  match v with
  | Some (JStr s) => bool_decide (id u = s)
  | _ => false
  end.

(** The callback of line 38. *)
Definition name_or_abbr_matches (tok : jstring) (u : unit_t) : bool :=
  name_matches tok u || abbr_matches tok u.

Definition abbr_truthy (u : unit_t) : bool :=
  match abbreviation u with Some a => str_truthy a | None => false end.

Definition normalize_item (us : list unit_t) (e : option item)
  : option (option item * bool) :=
  match e with
  | None => None                                   (* [item.unit_abbreviation] of null *)
  | Some it =>
    if truthy (it !! "unit_abbreviation") then Some (Some it, false)
    else if truthy (it !! "unit_id") then
      match find (id_is (it !! "unit_id")) us with
      | Some u =>
        Some (Some (set_prop "unit_name" (Some (JStr (name u)))
                     (set_prop "unit_abbreviation" (abbr_or_name u) it)), true)
      | None => Some (Some it, false)
      end
    else if truthy (it !! "unit_name") then
      match it !! "unit_name" with
      | Some (JStr tok) =>
        match find (name_matches tok) us with
        | Some u =>
          Some (Some (set_prop "unit_abbreviation" (abbr_or_name u)
                       (set_prop "unit_id" (Some (JStr (id u))) it)), true)
        | None => Some (Some it, false)
        end
      | _ =>
        (* [item.unit_name.toLowerCase] is evaluated for the first unit whose
           name is truthy *)
        if existsb (fun u => str_truthy (name u)) us then None
        else Some (Some it, false)
      end
    else if truthy (it !! "unit") then
      match it !! "unit" with
      | Some (JStr tok) =>
        match find (name_or_abbr_matches tok) us with
        | Some u =>
          Some (Some (set_prop "unit_name" (Some (JStr (name u)))
                       (set_prop "unit_abbreviation" (abbr_or_name u)
                         (set_prop "unit_id" (Some (JStr (id u))) it))), true)
        | None => Some (Some it, false)
        end
      | _ =>
        if existsb (fun u => str_truthy (name u) || abbr_truthy u) us then None
        else Some (Some it, false)
      end
    else Some (Some it, false)
  end.

(** ** The normalization page, per item (src/pages/settings/UnitsNormalize.tsx)

    The page lists the BOQs of the current company that need normalization
    and, on request, runs the step of the runner in the browser. *)

(** The callback of the filters of lines 24, 71 and 116, for an object:
    [!it.unit_abbreviation && (it.unit_id || it.unit_name || it.unit)]. *)
Definition needs_normalization (it : item) : bool :=
  negb (truthy (it !! "unit_abbreviation")) &&
  (truthy (it !! "unit_id") || truthy (it !! "unit_name") || truthy (it !! "unit")).

(** [x.name.toLowerCase() === tok.toLowerCase()] (line 51): the name is
    lower-cased without the guard of the script. *)
Definition page_name_matches (tok : jstring) (u : unit_t) : bool :=
  bool_decide (toLowerCase (name u) = toLowerCase tok).

(** The callback of line 54. *)
Definition page_name_or_abbr_matches (tok : jstring) (u : unit_t) : bool :=
  page_name_matches tok u || abbr_matches tok u.

(** The body of [for (const item of sec.items || [])] in [handleNormalize]
    (lines 44-57); [us] is [units || []].  A token that is truthy and not a
    string has no [toLowerCase]: the call throws as soon as the callback runs,
    that is when there is a unit. *)
Definition page_normalize_item (us : list unit_t) (e : option item)
  : option (option item * bool) :=
  match e with
  | None => None                                   (* [item.unit_abbreviation] of null *)
  | Some it =>
    if truthy (it !! "unit_abbreviation") then Some (Some it, false)
    else if truthy (it !! "unit_id") then
      match find (id_is (it !! "unit_id")) us with
      | Some u =>
        Some (Some (set_prop "unit_name" (Some (JStr (name u)))
                     (set_prop "unit_abbreviation" (abbr_or_name u) it)), true)
      | None => Some (Some it, false)
      end
    else if truthy (it !! "unit_name") then
      match it !! "unit_name" with
      | Some (JStr tok) =>
        match find (page_name_matches tok) us with
        | Some u =>
          Some (Some (set_prop "unit_abbreviation" (abbr_or_name u)
                       (set_prop "unit_id" (Some (JStr (id u))) it)), true)
        | None => Some (Some it, false)
        end
      | _ => match us with [] => Some (Some it, false) | _ :: _ => None end
      end
    else if truthy (it !! "unit") then
      match it !! "unit" with
      | Some (JStr tok) =>
        match find (page_name_or_abbr_matches tok) us with
        | Some u =>
          Some (Some (set_prop "unit_name" (Some (JStr (name u)))
                       (set_prop "unit_abbreviation" (abbr_or_name u)
                         (set_prop "unit_id" (Some (JStr (id u))) it))), true)
        | None => Some (Some it, false)
        end
      | _ => match us with [] => Some (Some it, false) | _ :: _ => None end
      end
    else Some (Some it, false)
  end.

(** ** Legacy Field Cleanup, per item (cleanup_boq_legacy_units.cjs, lines 74-81) *)

Definition cleanup_item (e : option item) : option (option item * bool) :=
  match e with
  | None => None                                   (* [item.unit_id] of null *)
  | Some it =>
    if truthy (it !! "unit_id") && (truthy (it !! "unit") || truthy (it !! "unit_name"))
    then Some (Some (delete "unit_name" (delete "unit" it)), true)
    else Some (Some it, false)
  end.

(** ** Audit (the audit script, part_001 lines 1-50)

    The script reads every BOQ and reports how many hold legacy unit fields
    and how many miss a cached abbreviation.  It writes nothing. *)

(** The flags [hasLegacy] and [hasMissingAbbrev] after the body of
    [for (const it of sec.items)] (lines 29-30). *)
Definition audit_item (flags : bool * bool) (e : option item) : option (bool * bool) :=
  match e with
  | None => None                                   (* [it.unit] of null *)
  | Some it =>
    Some (if truthy (it !! "unit") || truthy (it !! "unit_name") then true else fst flags,
          if negb (truthy (it !! "unit_abbreviation")) then true else snd flags)
  end.

Fixpoint audit_items (flags : bool * bool) (its : list (option item))
  : option (bool * bool) :=
  match its with
  | [] => Some flags
  | e :: rest =>
    match audit_item flags e with
    | None => None
    | Some flags' => audit_items flags' rest
    end
  end.

(** [for (const sec of data.sections)], with the [continue] of line 27. *)
Fixpoint audit_sections (flags : bool * bool) (secs : list section)
  : option (bool * bool) :=
  match secs with
  | [] => Some flags
  | sec :: rest =>
    match (match items sec with
           | None => Some flags
           | Some its => audit_items flags its
           end) with
    | None => None
    | Some flags' => audit_sections flags' rest
    end
  end.

(** The counters and lists of the script; the entries of the lists are
    [{ id: b.id, number: b.number }]. *)
Record audit_report : Type := mkReport {
  total : nat;
  withLegacy : nat;
  missingAbbrev : nat;
  legacyList : list (jstring * option jstring);
  missingList : list (jstring * option jstring);
}.

(** The body of [for (const b of boqs)] (lines 21-35). *)
Definition audit_boq (rep : audit_report) (b : boq_row) : option audit_report :=
  match b_data b with
  | None => Some rep                       (* [b.data || {}] has no sections *)
  | Some d =>
    match sections d with
    | None => Some rep
    | Some secs =>
      match audit_sections (false, false) secs with
      | None => None
      | Some (hasLegacy, hasMissingAbbrev) =>
        let rep1 :=
          if hasLegacy
          then mkReport (total rep) (S (withLegacy rep)) (missingAbbrev rep)
                        (legacyList rep ++ [(b_id b, b_number b)]) (missingList rep)
          else rep in
        Some (if hasMissingAbbrev
              then mkReport (total rep1) (withLegacy rep1) (S (missingAbbrev rep1))
                            (legacyList rep1) (missingList rep1 ++ [(b_id b, b_number b)])
              else rep1)
      end
    end
  end.

Fixpoint audit_boqs (rep : audit_report) (bs : list boq_row) : option audit_report :=
  match bs with
  | [] => Some rep
  | b :: rest =>
    match audit_boq rep b with
    | None => None
    | Some rep' => audit_boqs rep' rest
    end
  end.

(** The report the script prints from; [None] is [Audit failed]. *)
Definition audit (s : store) : option audit_report :=
  audit_boqs (mkReport (length (boqs s)) 0 0 [] []) (boqs s).


(** ** The loops over items, sections and BOQs

    [for (const x of xs) { ... }] with a body that may mutate [x], update the
    state, set [changed] and throw. *)

Section Loops.
Context {St A : Type} (body : St -> A -> option (St * A * bool)).

Fixpoint for_each (st : St) (xs : list A) : option (St * list A * bool) :=
    match xs with
    | [] => Some (st, [], false)
    | x :: rest =>
      match body st x with
      | None => None
      | Some (st1, x', c1) =>
        match for_each st1 rest with
        | None => None
        | Some (st2, rest', c2) => Some (st2, x' :: rest', c1 || c2)
        end
      end
    end.
End Loops.

Section Boq_loop.
  (** The body of [for (const item of sec.items)]. *)
Context (item_body : run_state -> option item -> option (run_state * option item * bool)).

  (** [if (!sec.items || !Array.isArray(sec.items)) continue; for (...) ...] *)
Definition for_section (st : run_state) (sec : section)
    : option (run_state * section * bool) :=
    match items sec with
    | None => Some (st, sec, false)
    | Some its =>
      match for_each item_body st its with
      | None => None
      | Some (st', its', c) => Some (st', mkSection (title sec) (Some its'), c)
      end
    end.

  (** The body of [for (const b of boqs)]: [b] is a row of the result set
      loaded before the loop; the UPDATE goes to the table. *)
Definition for_boq (st : run_state) (b : boq_row) : option run_state :=
    match b_data b with
    | None => Some st                      (* [b.data || {}] has no sections *)
    | Some d =>
      match sections d with
      | None => Some st
      | Some secs =>
        match for_each for_section st secs with
        | None => None
        | Some (st', secs', changed) =>
          if changed then
            let d' := mkData (Some secs') in
            Some (mkRun (mem_units st') (db_units st')
                        (update_boq (b_id b) d' (db_boqs st'))
                        (log st' ++ [UpdateBoq (b_id b) d']))
          else Some st'
        end
      end
    end.

Fixpoint for_boqs (st : run_state) (bs : list boq_row) : option run_state :=
    match bs with
    | [] => Some st
    | b :: rest =>
      match for_boq st b with
      | None => None
      | Some st' => for_boqs st' rest
      end
    end.
End Boq_loop.

(** [SELECT id, name, abbreviation FROM units WHERE company_id = $1] *)
Definition load_units (companyId : jstring) (tbl : list unit_row) : list unit_t :=
  map ur_unit (filter (fun r => ur_company r = Some companyId) tbl).

(** [SELECT id, data FROM boqs WHERE company_id = $1] *)
Definition load_boqs (companyId : jstring) (tbl : list boq_row) : list boq_row :=
  filter (fun b => b_company b = Some companyId) tbl.

Definition with_units (us : list unit_t) (st : run_state) : run_state :=
  mkRun us (db_units st) (db_boqs st) (log st).

(** The body of [for (const comp of companies)]. *)
Section Company_loop.
Context (item_body : jstring -> run_state -> option item
                       -> option (run_state * option item * bool)).

Definition for_company (st : run_state) (companyId : jstring) : option run_state :=
    let st0 := with_units (load_units companyId (db_units st)) st in
    for_boqs (item_body companyId) st0 (load_boqs companyId (db_boqs st)).

Fixpoint for_companies (st : run_state) (cs : list jstring) : option run_state :=
    match cs with
    | [] => Some st
    | c :: rest =>
      match for_company st c with
      | None => None
      | Some st' => for_companies st' rest
      end
    end.
End Company_loop.

Definition begin (s : store) : run_state := mkRun [] (units s) (boqs s) [].

Definition commit (s : store) (st : run_state) : store :=
  mkStore (companies s) (db_units st) (db_boqs st).

(** ** The three batch processes *)

Definition normalize_body (companyId : jstring) (st : run_state) (e : option item)
  : option (run_state * option item * bool) :=
  match normalize_item (mem_units st) e with
  | None => None
  | Some (e', c) => Some (st, e', c)
  end.

Definition cleanup_body (st : run_state) (e : option item)
  : option (run_state * option item * bool) :=
  match cleanup_item e with
  | None => None
  | Some (e', c) => Some (st, e', c)
  end.

(** The transaction of each script: [Some] on COMMIT with the statements
    issued, [None] when an exception reached the [catch]. *)
Definition migrate (s : store) : option (store * list stmt) :=
  match for_companies migrate_item (begin s) (companies s) with
  | None => None
  | Some st => Some (commit s st, log st)
  end.

Definition normalize (s : store) : option (store * list stmt) :=
  match for_companies normalize_body (begin s) (companies s) with
  | None => None
  | Some st => Some (commit s st, log st)
  end.

(** Cleanup loads [SELECT id, data FROM boqs], all companies at once. *)
Definition cleanup (s : store) : option (store * list stmt) :=
  match for_boqs cleanup_body (begin s) (boqs s) with
  | None => None
  | Some st => Some (commit s st, log st)
  end.

(** The store after the script ended: ROLLBACK restores the initial one. *)
Definition after (run : store -> option (store * list stmt)) (s : store) : store :=
  match run s with
  | Some (s', _) => s'
  | None => s
  end.

Definition run_migration : store -> store := after migrate.
Definition run_normalization : store -> store := after normalize.
Definition run_cleanup : store -> store := after cleanup.

(** ** Document renderer *)

(** The unit cell of the viewer (src/pages/BOQs.tsx, lines 152-164); [units]
    is the result of [useUnits], an array. *)
Definition viewer_unit (us : list unit_t) (it : item) : jsval :=
  match (if truthy (it !! "unit_id") then find (id_is (it !! "unit_id")) us else None) with
  | Some u => abbr_or_name u
  | None =>
    if truthy (it !! "unit_name") then it !! "unit_name"
    else if truthy (it !! "unit") then it !! "unit"
    else Some (JStr "-")
  end.

(** The two unit fields of a flattened row of [downloadBOQPDF]
    (src/utils/boqPdfGenerator.ts, lines 48-49). *)
Definition pdf_unit_of_measure (it : item) : jsval :=
  js_or (js_or (it !! "unit_name") (it !! "unit")) (Some (JStr "Item")).

Definition pdf_unit_abbreviation (it : item) : jsval :=
  js_or (it !! "unit_abbreviation") (Some (JStr [])).

(** The precedence of the renderer contract, in the words of the
    specification: a field is set when it is truthy; the unit's abbreviation
    is used when it has a non-empty one, its name otherwise. *)
Definition display_unit_spec (placeholder : jstring) (us : list unit_t) (it : item) : jsval :=
  let by_id :=
    if truthy (it !! "unit_id")
    then find (fun u => bool_decide (it !! "unit_id" = Some (JStr (id u)))) us
    else None in
  match by_id with
  | Some u =>
    match abbreviation u with
    | Some (c :: a) => Some (JStr (c :: a))
    | _ => Some (JStr (name u))
    end
  | None =>
    if truthy (it !! "unit_name") then it !! "unit_name"
    else if truthy (it !! "unit") then it !! "unit"
    else Some (JStr placeholder)
  end.

(** ** Creating a BOQ (src/components/boq/CreateBOQModal.tsx, lines 165-175)

    The item that [handleGenerate] stores for a row of the form: [unit] is the
    value of the unit selector, the identifier of a unit or the empty string;
    [units] is the unit list of the company.  [quantity] and [rate] are stored
    as they serialise. *)
Definition created_item (us : list unit_t) (description : jstring) (quantity rate : json)
    (unit : jstring) : item :=
  let unit_or_null := if str_truthy unit then JStr unit else JNull in   (* [i.unit || null] *)
  list_to_map
    [("description", JStr description);
     ("quantity", quantity);
     ("unit_id", unit_or_null);
     ("unit_name", match find (fun u => bool_decide (id u = unit)) us with
                   | Some unitObj => JStr (name unitObj)
                   | None => unit_or_null
                   end);
     ("rate", rate)].

(** ** Vocabulary of the properties *)

(** Case-insensitive equality of two strings: their lower-casings are the
    same string. *)
Definition ci_eq (a b : jstring) : Prop := toLowerCase a = toLowerCase b.

(** The name of [u] is set and equals [tok] case-insensitively. *)
Definition name_ci (tok : jstring) (u : unit_t) : Prop :=
  name u <> [] /\ ci_eq (name u) tok.

(** The abbreviation of [u] is set and equals [tok] case-insensitively. *)
Definition abbr_ci (tok : jstring) (u : unit_t) : Prop :=
  exists a, abbreviation u = Some a /\ a <> [] /\ ci_eq a tok.

(** [u] is the first element of [us], in list order, that satisfies [P]. *)
Definition first_such {A : Type} (P : A -> Prop) (us : list A) (u : A) : Prop :=
  exists l1 l2, us = l1 ++ u :: l2 /\ P u /\ Forall (fun v => ~ P v) l1.

(** A property is set when its value is truthy. *)
Definition is_set (it : item) (k : string) : Prop := truthy (it !! k) = true.

(** The relation between two documents whose items are related by [Q],
    position by position. *)
Section Lift.
Context (Q : option item -> option item -> Prop).

Definition sec_rel (s s' : section) : Prop :=
    title s' = title s /\ option_Forall2 (Forall2 Q) (items s) (items s').

Definition data_rel (d d' : boq_data) : Prop :=
    option_Forall2 (Forall2 sec_rel) (sections d) (sections d').

Definition row_rel (r r' : boq_row) : Prop :=
    b_id r' = b_id r /\ b_number r' = b_number r /\ b_company r' = b_company r /\
    option_Forall2 data_rel (b_data r) (b_data r').
End Lift.

(** The entry at position [k] of section [j] of the [i]-th row. *)
Definition item_at (tbl : list boq_row) (i j k : nat) : option (option item) :=
  match tbl !! i with
  | Some b =>
    match b_data b with
    | Some d =>
      match sections d with
      | Some secs =>
        match secs !! j with
        | Some sec =>
          match items sec with
          | Some its => its !! k
          | None => None
          end
        | None => None
        end
      | None => None
      end
    | None => None
    end
  | None => None
  end.

(** What a loop over the rows selected by [V] leaves in the table: a visited
    row keeps its key columns and has its items related by [Q]; any other row
    is the same.  While the rows [bs] are still to be visited, they are
    unchanged. *)
Definition visited_rel (Q : option item -> option item -> Prop) (V : boq_row -> bool)
    (r r' : boq_row) : Prop :=
  if V r then row_rel Q r r' else r' = r.

Definition pending_rel (Q : option item -> option item -> Prop) (V : boq_row -> bool)
    (bs : list boq_row) (r r' : boq_row) : Prop :=
  if bool_decide (b_id r ∈ map b_id bs) then r' = r else visited_rel Q V r r'.

(** What Cleanup does to an item. *)
Definition cleanup_post (it it' : item) : Prop :=
  (is_set it "unit_id" -> ~ is_set it' "unit" /\ ~ is_set it' "unit_name") /\
  (is_set it "unit_id" -> is_set it "unit" \/ is_set it "unit_name" ->
   it' !! "unit" = None /\ it' !! "unit_name" = None) /\
  (~ is_set it "unit_id" -> it' = it) /\
  (forall k, k <> "unit" -> k <> "unit_name" -> it' !! k = it !! k) /\
  (forall k, it' !! k = None \/ it' !! k = it !! k).

(** The entries of an [items] array before and after a loop body that ran
    without throwing: both are objects, related by [R]. *)
Definition on_items (R : item -> item -> Prop) (e e' : option item) : Prop :=
  exists it it', e = Some it /\ e' = Some it' /\ R it it'.

(** ** The end-to-end scenario of the specification *)

Definition scenario_item : item :=
  list_to_map [("description", JStr "Excavation"); ("quantity", JNum 10);
               ("rate", JNum 1500); ("unit", JStr "m3")].

(** One company without units and one BOQ holding the item. *)
Definition scenario_store : store :=
  mkStore ["c1"] []
    [mkBoq "b1" (Some "BOQ-0001") (Some "c1")
       (Some (mkData (Some [mkSection None (Some [Some scenario_item])])))].

(** The rows of a company. *)
Definition of_company (c : jstring) (r : boq_row) : bool :=
  bool_decide (b_company r = Some c).

(** A row whose document has proper arrays and a [null] entry among the items
    of some section. *)
Definition has_null_item (b : boq_row) : Prop :=
  exists d secs sec its,
    b_data b = Some d /\ sections d = Some secs /\ sec ∈ secs /\
    items sec = Some its /\ None ∈ its.

(** A BOQ whose second item is [null]. *)
Definition null_boq : boq_row :=
  mkBoq "b1" (Some "BOQ-0001") (Some "c1")
    (Some (mkData (Some [mkSection None (Some [Some scenario_item; None])]))).

Definition null_store : store := mkStore ["c1"] [] [null_boq].

(** ** Vocabulary of the run-level properties *)

(** Every entry of every [items] array of the row satisfies [Pi]. *)
Definition sec_all (Pi : option item -> Prop) (sec : section) : Prop :=
  match items sec with
  | Some its => Forall Pi its
  | None => True
  end.

Definition row_all (Pi : option item -> Prop) (r : boq_row) : Prop :=
  match b_data r with
  | Some d =>
    match sections d with
    | Some secs => Forall (sec_all Pi) secs
    | None => True
    end
  | None => True
  end.

(** An item the Migration Pipeline skips: [unit_id] is set, or there is no
    token in [unit_name] or [unit]. *)
Definition migrated (e : option item) : Prop :=
  exists it, e = Some it /\
    (truthy (it !! "unit_id") = true \/
     truthy (js_or (it !! "unit_name") (it !! "unit")) = false).

(** Identifiers of the units table are non-empty (they are UUIDs). *)
Definition unit_ids_ok (tbl : list unit_row) : Prop :=
  Forall (fun r => id (ur_unit r) <> []) tbl.

(** The identifiers in the table and in the array [units] are non-empty. *)
Definition ids_ok_state (st : run_state) : Prop :=
  unit_ids_ok (db_units st) /\ Forall (fun u => id u <> []) (mem_units st).

(** The rows of the companies in [done] hold migrated items only. *)
Definition passed (done : list jstring) (st : run_state) : Prop :=
  NoDup (map b_id (db_boqs st)) /\ unit_ids_ok (db_units st) /\
  forall r c, r ∈ db_boqs st -> c ∈ done -> b_company r = Some c -> row_all migrated r.

(** ** Company isolation *)

(** The item refers to the unit: by [unit_id], or by a token in [unit_name]
    or [unit] that matches the unit's name or abbreviation. *)
Definition refers_to (it : item) (u : unit_t) : Prop :=
  it !! "unit_id" = Some (JStr (id u)) \/
  exists tok, (it !! "unit_name" = Some (JStr tok) \/ it !! "unit" = Some (JStr tok)) /\
              (name_ci tok u \/ abbr_ci tok u).

(** What the two processes write on an item for the unit [u] it refers to:
    [unit_id] is the unit's identifier; [unit_name] is the unit's name or
    stays; [unit_abbreviation] is the unit's abbreviation, with the fallback
    of the runner ([u.abbreviation || u.name]) or of the pipeline
    ([u.abbreviation || null]); nothing else changes. *)
Definition written_from (u : unit_t) (it it' : item) : Prop :=
  refers_to it u /\
  it' !! "unit_id" = Some (JStr (id u)) /\
  (it' !! "unit_name" = Some (JStr (name u)) \/ it' !! "unit_name" = it !! "unit_name") /\
  (it' !! "unit_abbreviation" = abbr_or_name u \/
   it' !! "unit_abbreviation" = js_or (of_text (abbreviation u)) (Some JNull)) /\
  (forall k, k <> "unit_id" -> k <> "unit_name" -> k <> "unit_abbreviation" ->
             it' !! k = it !! k).

(** [it'] is [it], or it was written from a unit that the table [T] holds for
    company [c]. *)
Definition own_unit (T : list unit_row) (c : jstring) (it it' : item) : Prop :=
  it' = it \/ exists u, mkUnitRow (Some c) u ∈ T /\ written_from u it it'.

Definition iso_rel (T : list unit_row) (c : jstring) (e e' : option item) : Prop :=
  e' = e \/ on_items (own_unit T c) e e'.

(** Rows related company by company, for the companies of [cs]; the rows of
    any other company, and those of no company, are the same. *)
Definition co_rel (cs : list jstring) (Q : jstring -> option item -> option item -> Prop)
    (r r' : boq_row) : Prop :=
  match b_company r with
  | Some c => if bool_decide (c ∈ cs) then row_rel (Q c) r r' else r' = r
  | None => r' = r
  end.

(** The array [units] holds units of company [c] only. *)
Definition own_units (c : jstring) (st : run_state) : Prop :=
  forall u, u ∈ mem_units st -> mkUnitRow (Some c) u ∈ db_units st.

Definition units_within (T : list unit_row) (st : run_state) : Prop :=
  forall r, r ∈ db_units st -> r ∈ T.

(** Two companies whose units have the same name. *)
Definition collide_store : store :=
  mkStore ["A"; "B"]
    [mkUnitRow (Some "A") (mkUnit "ua" "kg" (Some "kg"));
     mkUnitRow (Some "B") (mkUnit "ub" "kg" (Some "KG"))]
    [mkBoq "b1" None (Some "A")
       (Some (mkData (Some [mkSection None (Some [Some {["unit" := JStr "kg"]}])])));
     mkBoq "b2" None (Some "B")
       (Some (mkData (Some [mkSection None (Some [Some {["unit" := JStr "kg"]}])])))].


(** ** Vocabulary of the further properties *)

(** The rows that the INSERT statements of a log added, in order. *)
Fixpoint inserted (lg : list stmt) : list unit_row :=
  match lg with
  | [] => []
  | InsertUnit r :: rest => r :: inserted rest
  | UpdateBoq _ _ :: rest => inserted rest
  end.

(** The BOQs that the UPDATE statements of a log wrote, in order. *)
Fixpoint updated (lg : list stmt) : list jstring :=
  match lg with
  | [] => []
  | InsertUnit _ :: rest => updated rest
  | UpdateBoq bid _ :: rest => bid :: updated rest
  end.

(** The columns of the constraint [UNIQUE(company_id, name)] of [units]. *)
Definition unit_key (r : unit_row) : option jstring * jstring :=
  (ur_company r, name (ur_unit r)).

(** The key columns of a row of [boqs]. *)
Definition boq_key (r : boq_row) : jstring * option jstring * option jstring :=
  (b_id r, b_number r, b_company r).

(** The token the pipeline reads from an item: [item.unit_name || item.unit]. *)
Definition token_of (it : item) : jsval := js_or (it !! "unit_name") (it !! "unit").

(** An item that Cleanup leaves alone: [unit_id] is not set, or neither legacy
    field is. *)
Definition cleaned (e : option item) : Prop :=
  exists it, e = Some it /\
    (truthy (it !! "unit_id") = false \/
     (truthy (it !! "unit") = false /\ truthy (it !! "unit_name") = false)).

(** An item that the runner, with the unit list [us], returns as it is without
    reporting a change. *)
Definition settled (us : list unit_t) (e : option item) : Prop :=
  normalize_item us e = Some (e, false).

(** The unit that the runner looks up for an item: the first one of the list
    with the item's [unit_id], when that is set; else the first one whose name
    matches [unit_name], when that is set; else the first one whose name or
    abbreviation matches the legacy [unit]. *)
Definition runner_finds (us : list unit_t) (it : item) (u : unit_t) : Prop :=
  (is_set it "unit_id" /\
   first_such (fun v => it !! "unit_id" = Some (JStr (id v))) us u) \/
  (~ is_set it "unit_id" /\
   exists tok, it !! "unit_name" = Some (JStr tok) /\ tok <> [] /\
               first_such (name_ci tok) us u) \/
  (~ is_set it "unit_id" /\ ~ is_set it "unit_name" /\
   exists tok, it !! "unit" = Some (JStr tok) /\ tok <> [] /\
               first_such (fun v => name_ci tok v \/ abbr_ci tok v) us u).

(** Unit names are non-empty. *)
Definition unit_names_ok (tbl : list unit_row) : Prop :=
  Forall (fun r => name (ur_unit r) <> []) tbl.

(** The rows of the companies in [done] hold settled items only, the units
    table being [U]. *)
Definition settled_rows (U : list unit_row) (done : list jstring) (st : run_state) : Prop :=
  NoDup (map b_id (db_boqs st)) /\ db_units st = U /\
  forall r c, r ∈ db_boqs st -> c ∈ done -> b_company r = Some c ->
              row_all (settled (load_units c U)) r.

(** ** Vocabulary of the audit *)

(** Some entry of the [items] arrays of the row is an object satisfying [p]. *)
Definition item_any (p : item -> bool) (e : option item) : bool :=
  match e with Some it => p it | None => false end.

Definition sec_any (p : item -> bool) (sec : section) : bool :=
  match items sec with
  | Some its => existsb (item_any p) its
  | None => false
  end.

Definition row_any (p : item -> bool) (b : boq_row) : bool :=
  match b_data b with
  | Some d =>
    match sections d with
    | Some secs => existsb (sec_any p) secs
    | None => false
    end
  | None => false
  end.

(** Some entry of the [items] arrays of the row is [null]. *)
Definition sec_null (sec : section) : bool :=
  match items sec with
  | Some its => existsb (fun e => bool_decide (e = None)) its
  | None => false
  end.

Definition row_null (b : boq_row) : bool :=
  match b_data b with
  | Some d =>
    match sections d with
    | Some secs => existsb sec_null secs
    | None => false
    end
  | None => false
  end.

(** An item with a legacy field, one without a cached abbreviation, one that
    Cleanup changes, and one with a legacy field that Cleanup leaves. *)
Definition legacy_item (it : item) : bool :=
  truthy (it !! "unit") || truthy (it !! "unit_name").

Definition missing_item (it : item) : bool := negb (truthy (it !! "unit_abbreviation")).

Definition cleanable_item (it : item) : bool :=
  truthy (it !! "unit_id") && legacy_item it.

Definition stuck_item (it : item) : bool :=
  negb (truthy (it !! "unit_id")) && legacy_item it.

(** The entry of a BOQ in the lists of the audit. *)
Definition audit_key (b : boq_row) : jstring * option jstring := (b_id b, b_number b).

(** The rows that hold an item satisfying [p]. *)
Definition rows_with (p : item -> bool) (bs : list boq_row) : list boq_row :=
  filter (fun b => row_any p b = true) bs.

(** The target state of an item: [unit_id] and [unit_abbreviation] are set and
    neither legacy property is present. *)
Definition fully_normalized (it : item) : Prop :=
  is_set it "unit_id" /\ is_set it "unit_abbreviation" /\
  it !! "unit" = None /\ it !! "unit_name" = None.

End Model.

(** * Properties *)

(** ** Strings and truthiness *)

Lemma str_truthy_nonempty (s : jstring) : str_truthy s = true <-> s <> [].
Proof. destruct s; simpl; split; congruence. Qed.

Lemma find_first_such {A : Type} (f : A -> bool) (P : A -> Prop) (us : list A) :
  (forall x, f x = true <-> P x) ->
  match find f us with
  | Some u => first_such P us u
  | None => Forall (fun v => ~ P v) us
  end.
Proof.
  intros Hf. induction us as [|x us IH]; simpl.
  - constructor.
  - destruct (f x) eqn:Hx.
    + exists [], us. repeat split; [now apply Hf | constructor].
    + assert (~ P x) by (rewrite <- Hf; congruence).
      destruct (find f us) as [u|].
      * destruct IH as (l1 & l2 & -> & Hu & Hl1).
        exists (x :: l1), l2. repeat split; [exact Hu | now constructor].
      * now constructor.
Qed.

Lemma first_such_unique {A : Type} (P : A -> Prop) (us : list A) (u v : A) :
  first_such P us u -> first_such P us v -> u = v.
Proof.
  intros (l1 & l2 & -> & Hu & Hl1) (k1 & k2 & Heq & Hv & Hk1).
  revert k1 Heq Hk1. induction l1 as [|x l1 IH]; intros [|y k1] Heq Hk1; simpl in *.
  - congruence.
  - injection Heq as -> _. inversion Hk1; subst. contradiction.
  - injection Heq as -> _. inversion Hl1; subst. contradiction.
  - injection Heq as -> Heq. inversion Hl1; inversion Hk1; subst. eauto.
Qed.

Lemma find_some_elem {A : Type} (f : A -> bool) (l : list A) (x : A) :
  find f l = Some x -> x ∈ l /\ f x = true.
Proof.
  intros H. apply find_some in H as [Hin Hf]. split; [now apply list_elem_of_In | exact Hf].
Qed.

Lemma find_exists {A : Type} (f : A -> bool) (l : list A) (x : A) :
  x ∈ l -> f x = true -> exists y, find f l = Some y.
Proof.
  intros Hx Hf. destruct (find f l) as [y|] eqn:Hfind; [eauto |].
  apply list_elem_of_In in Hx. rewrite (find_none _ _ Hfind x Hx) in Hf. discriminate.
Qed.

(** ** Unit Resolver *)

Section Resolver.
Context {folding : CaseFolding}.

Lemma ci_eq_refl (a : jstring) : ci_eq a a.
Proof. reflexivity. Qed.

Lemma name_matches_spec (tok : jstring) (u : unit_t) :
  name_matches tok u = true <-> name_ci tok u.
Proof.
  unfold name_matches, name_ci, ci_eq.
  rewrite andb_true_iff, bool_decide_eq_true, str_truthy_nonempty. tauto.
Qed.

Lemma abbr_matches_spec (tok : jstring) (u : unit_t) :
  abbr_matches tok u = true <-> abbr_ci tok u.
Proof.
  unfold abbr_matches, abbr_ci, ci_eq. destruct (abbreviation u) as [a|].
  - rewrite andb_true_iff, bool_decide_eq_true, str_truthy_nonempty. split.
    + intros [H1 H2]. eauto.
    + intros (a' & [= <-] & H1 & H2). auto.
  - split; [discriminate | intros (a & [=] & _)].
Qed.

(** The guards [u.name &&] and [u.abbreviation &&] of the resolver are
    redundant for a non-empty token as soon as lower-casing maps no other
    string than the empty one to the lower-casing of the empty string, which
    holds of [String.prototype]. *)
Lemma name_ci_nonempty_token (tok : jstring) (u : unit_t) :
  (forall s, toLowerCase s = toLowerCase [] -> s = []) ->
  tok <> [] -> name_ci tok u <-> ci_eq (name u) tok.
Proof.
  intros Hlaw Htok. unfold name_ci, ci_eq. split; [tauto |].
  intros Heq. split; [| exact Heq]. intros Hn. rewrite Hn in Heq.
  apply Htok, Hlaw. now symmetry.
Qed.

Lemma abbr_ci_nonempty_token (tok : jstring) (u : unit_t) :
  (forall s, toLowerCase s = toLowerCase [] -> s = []) ->
  tok <> [] -> abbr_ci tok u <-> exists a, abbreviation u = Some a /\ ci_eq a tok.
Proof.
  intros Hlaw Htok. unfold abbr_ci, ci_eq. split.
  - intros (a & Ha & _ & Heq). eauto.
  - intros (a & Ha & Heq). exists a. split; [exact Ha |]. split; [| exact Heq].
    intros Hn. rewrite Hn in Heq. apply Htok, Hlaw. now symmetry.
Qed.

(** C6. [resolve] returns the first unit, in list order, whose name is set
    and equals the token case-insensitively; only when no name matches, the
    first unit whose abbreviation is set and equals the token
    case-insensitively; and nothing when neither matches any unit.  So a name
    match on a later unit beats an abbreviation match on an earlier one.
    Case-insensitive equality is equality of the lower-casings, whatever
    [toLowerCase] does to the letters of the two strings; for a non-empty
    token, a name or abbreviation with the token's lower-casing is set, since
    only the empty string is lower-cased to the empty string. *)
Theorem resolve_matching_order (tok : jstring) (us : list unit_t) :
  (forall u, first_such (name_ci tok) us u -> resolve tok us = Some u) /\
  (forall u, Forall (fun v => ~ name_ci tok v) us ->
             first_such (abbr_ci tok) us u -> resolve tok us = Some u) /\
  (Forall (fun v => ~ name_ci tok v /\ ~ abbr_ci tok v) us -> resolve tok us = None) /\
  (forall u, resolve tok us = Some u ->
             first_such (name_ci tok) us u \/
             (Forall (fun v => ~ name_ci tok v) us /\ first_such (abbr_ci tok) us u)) /\
  ((forall s, toLowerCase s = toLowerCase [] -> s = []) -> tok <> [] ->
   forall u, (name_ci tok u <-> ci_eq (name u) tok) /\
             (abbr_ci tok u <-> exists a, abbreviation u = Some a /\ ci_eq a tok)).
Proof.
  split; [| split; [| split; [| split]]];
    [| | | | intros Hlaw Htok u; split;
             [now apply name_ci_nonempty_token | now apply abbr_ci_nonempty_token]].
  all: unfold resolve.
  all: pose proof (find_first_such (name_matches tok) (name_ci tok) us
                     (name_matches_spec tok)) as Hn.
  all: pose proof (find_first_such (abbr_matches tok) (abbr_ci tok) us
                     (abbr_matches_spec tok)) as Ha.
  - intros u Hu. destruct (find (name_matches tok) us) as [m|].
    + f_equal. eapply first_such_unique; eauto.
    + destruct Hu as (l1 & l2 & -> & Hu & _).
      apply Forall_app in Hn as [_ Hn]. inversion Hn; subst. contradiction.
  - intros u Hnone Hu. destruct (find (name_matches tok) us) as [m|].
    + destruct Hn as (l1 & l2 & -> & Hm & _).
      apply Forall_app in Hnone as [_ Hnone]. inversion Hnone; subst. contradiction.
    + destruct (find (abbr_matches tok) us) as [m|].
      * f_equal. eapply first_such_unique; eauto.
      * destruct Hu as (l1 & l2 & -> & Hu & _).
        apply Forall_app in Ha as [_ Ha]. inversion Ha; subst. contradiction.
  - intros Hnone. destruct (find (name_matches tok) us) as [m|].
    + destruct Hn as (l1 & l2 & -> & Hm & _).
      apply Forall_app in Hnone as [_ Hnone]. inversion Hnone as [|? ? [H1 _] ?]; subst.
      contradiction.
    + destruct (find (abbr_matches tok) us) as [m|]; [| reflexivity].
      destruct Ha as (l1 & l2 & -> & Hm & _).
      apply Forall_app in Hnone as [_ Hnone]. inversion Hnone as [|? ? [_ H2] ?]; subst.
      contradiction.
  - intros u Hres. destruct (find (name_matches tok) us) as [m|].
    + injection Hres as <-. now left.
    + rewrite Hres in Ha. right. now split.
Qed.

(** What [resolve] returns is an element of the list that matches the token. *)
Lemma resolve_elem (tok : jstring) (us : list unit_t) (m : unit_t) :
  resolve tok us = Some m -> m ∈ us.
Proof.
  unfold resolve. destruct (find (name_matches tok) us) as [u|] eqn:Hn.
  - intros [= <-]. now apply find_some_elem in Hn.
  - intros Ha. now apply find_some_elem in Ha.
Qed.

Lemma resolve_matches (tok : jstring) (us : list unit_t) (m : unit_t) :
  resolve tok us = Some m -> m ∈ us /\ (name_ci tok m \/ abbr_ci tok m).
Proof.
  intros Hres. split; [now apply resolve_elem in Hres |].
  unfold resolve in Hres. destruct (find (name_matches tok) us) as [u|] eqn:Hn.
  - injection Hres as <-. left. apply name_matches_spec. now apply find_some_elem in Hn.
  - right. apply abbr_matches_spec. now apply find_some_elem in Hres.
Qed.

(** Two tokens that are equal case-insensitively resolve alike. *)
Lemma resolve_ci (tok tok' : jstring) (us : list unit_t) :
  ci_eq tok' tok -> resolve tok' us = resolve tok us.
Proof.
  intros Hci. unfold resolve, ci_eq in *.
  assert (Hn : forall u, name_matches tok' u = name_matches tok u)
    by (intros u; unfold name_matches; now rewrite Hci).
  assert (Ha : forall u, abbr_matches tok' u = abbr_matches tok u)
    by (intros u; unfold abbr_matches; now rewrite Hci).
  assert (Hfind : forall (f g : unit_t -> bool), (forall x, f x = g x) -> find f us = find g us).
  { intros f g Hfg. induction us as [|x l IH]; simpl; [reflexivity |]. now rewrite Hfg, IH. }
  now rewrite (Hfind _ _ Hn), (Hfind _ _ Ha).
Qed.

(** A unit that no name in the list matches, and none is found. *)
Lemma resolve_none_name (tok : jstring) (us : list unit_t) :
  resolve tok us = None -> Forall (fun v => ~ name_ci tok v) us.
Proof.
  unfold resolve. intros Hres.
  pose proof (find_first_such (name_matches tok) (name_ci tok) us
                (name_matches_spec tok)) as Hn.
  destruct (find (name_matches tok) us); [discriminate | exact Hn].
Qed.

(** A unit is resolved from its own name, in whatever case the token is
    written, when no earlier name matches. *)
Lemma resolve_app_new (tok : jstring) (us : list unit_t) (u : unit_t) :
  tok <> [] -> resolve tok us = None -> name u = tok -> resolve tok (us ++ [u]) = Some u.
Proof.
  intros Htok Hres Hname. unfold resolve in *.
  destruct (find (name_matches tok) us) as [m|] eqn:Hn; [discriminate |].
  assert (Hu : name_matches tok u = true).
  { apply name_matches_spec. split; [now rewrite Hname | rewrite Hname; apply ci_eq_refl]. }
  assert (Hf : find (name_matches tok) (us ++ [u]) = Some u).
  { clear Hres. induction us as [|x us IH]; simpl in *.
    - now rewrite Hu.
    - destruct (name_matches tok x); [discriminate | auto]. }
  now rewrite Hf.
Qed.

(** ** Unit creation *)



(** The length is counted in code units: a token of six code units is kept,
    whatever its letters are. *)
Example make_abbrev_six_code_units :
  make_abbrev ("metre" ++ [178%N]) = "metre" ++ [178%N].
Proof. reflexivity. Qed.


End Resolver.

Section Resolver_examples.
#[local] Existing Instance ascii_folding.

Lemma ascii_folding_empty (s : jstring) : toLowerCase s = toLowerCase [] -> s = [].
Proof. now destruct s. Qed.

Lemma resolve_matching_order_witness :
  resolve "kg" [mkUnit "u1" "Kilo" (Some "KG"); mkUnit "u2" "KG" None]
  = Some (mkUnit "u2" "KG" None).
Proof.
  destruct (resolve_matching_order "kg"
              [mkUnit "u1" "Kilo" (Some "KG"); mkUnit "u2" "KG" None]) as (Hfirst & _).
  apply Hfirst.
  exists [mkUnit "u1" "Kilo" (Some "KG")], []. repeat split; [discriminate |].
  constructor; [| constructor]. intros [_ Hci]. vm_compute in Hci. discriminate.
Defined.

(** The resolver examples of the specification. *)
Example resolve_name_ci :
  resolve "M3" [mkUnit "u1" "m3" (Some "cu.m")] = Some (mkUnit "u1" "m3" (Some "cu.m")).
Proof. reflexivity. Qed.

Example resolve_abbreviation :
  resolve "cu.m" [mkUnit "u1" "m3" (Some "cu.m")] = Some (mkUnit "u1" "m3" (Some "cu.m")).
Proof. reflexivity. Qed.

Example resolve_not_found : resolve "ton" [mkUnit "u1" "kg" None] = None.
Proof. reflexivity. Qed.


(** The creation examples of the specification. *)
Example create_square_meters : make_abbrev "Square Meters" = "SQU".
Proof. reflexivity. Qed.

Example create_no_dot : make_abbrev "No." = "No.".
Proof. reflexivity. Qed.

End Resolver_examples.

(** ** Reasoning about the loops

    A loop body is described by a forward invariant [I] of the state, a
    predicate [P] that holds of an earlier state whenever it holds of a later
    one, and a relation [Q] between an element before and after the body,
    established once [P] is known of the state the body ends in. *)

Section for_each_spec.
Context {St A : Type} (body : St -> A -> option (St * A * bool)).
Context (I P : St -> Prop) (Q : A -> A -> Prop).
Hypothesis body_fwd : forall s x s' x' c,
      I s -> body s x = Some (s', x', c) -> I s'.
Hypothesis body_back : forall s x s' x' c,
      I s -> body s x = Some (s', x', c) -> P s' -> P s /\ Q x x'.

Lemma for_each_spec (xs : list A) : forall st st' xs' c,
      I st -> for_each body st xs = Some (st', xs', c) ->
      I st' /\ (P st' -> P st /\ Forall2 Q xs xs').
  Proof.
    induction xs as [|x xs IH]; intros st st' xs' c HI Hrun; simpl in Hrun.
    - injection Hrun as <- <- <-. split; [exact HI |]. intros HP. split; [exact HP | constructor].
    - destruct (body st x) as [[[st1 x1] c1]|] eqn:Hb; [| discriminate].
      destruct (for_each body st1 xs) as [[[st2 xs2] c2]|] eqn:Hr; [| discriminate].
      injection Hrun as <- <- <-.
      pose proof (body_fwd _ _ _ _ _ HI Hb) as HI1.
      destruct (IH _ _ _ _ HI1 Hr) as [HI2 Hback].
      split; [exact HI2 |]. intros HP2.
      destruct (Hback HP2) as [HP1 HF].
      destruct (body_back _ _ _ _ _ HI Hb HP1) as [HP0 HQ].
      split; [exact HP0 | now constructor].
  Qed.

Hypothesis body_same : forall s x s' x', body s x = Some (s', x', false) -> s' = s /\ x' = x.

Lemma for_each_same (xs : list A) : forall st st' xs',
      for_each body st xs = Some (st', xs', false) -> st' = st /\ xs' = xs.
  Proof.
    induction xs as [|x xs IH]; intros st st' xs' Hrun; simpl in Hrun.
    - now injection Hrun as <- <-.
    - destruct (body st x) as [[[st1 x1] c1]|] eqn:Hb; [| discriminate].
      destruct (for_each body st1 xs) as [[[st2 xs2] c2]|] eqn:Hr; [| discriminate].
      injection Hrun as <- <- Hc. apply orb_false_iff in Hc as [-> ->].
      destruct (body_same _ _ _ _ Hb) as [-> ->].
      destruct (IH _ _ _ Hr) as [-> ->]. now split.
  Qed.
End for_each_spec.

Lemma visited_item_at (Q : option item -> option item -> Prop) (V : boq_row -> bool)
      (tbl tbl' : list boq_row) (i j k : nat) (b : boq_row) (e : option item) :
  Forall2 (visited_rel Q V) tbl tbl' ->
  tbl !! i = Some b ->
  item_at tbl i j k = Some e ->
  exists e', item_at tbl' i j k = Some e' /\ (if V b then Q e e' else e' = e).
Proof.
  intros HF Hb Hat. unfold item_at in *. rewrite Hb in Hat.
  destruct (Forall2_lookup_l _ _ _ _ _ HF Hb) as (b' & -> & Hrel).
  unfold visited_rel in Hrel. destruct (V b).
  2:{ subst b'. exists e. now rewrite Hat. }
  destruct Hrel as (_ & _ & _ & Hd).
  destruct Hd as [d d' Hd|]; [| discriminate].
  unfold data_rel in Hd. destruct Hd as [secs secs' Hs|]; [| discriminate].
  destruct (secs !! j) as [sec|] eqn:Hsec; [| discriminate].
  destruct (Forall2_lookup_l _ _ _ _ _ Hs Hsec) as (sec' & -> & _ & Hits).
  destruct Hits as [its its' Hits|]; [| discriminate].
  destruct (Forall2_lookup_l _ _ _ _ _ Hits Hat) as (e' & -> & HQ).
  eauto.
Qed.

Lemma NoDup_map_eq {A B : Type} (f : A -> B) (l : list A) (x y : A) :
  NoDup (map f l) -> x ∈ l -> y ∈ l -> f x = f y -> x = y.
Proof.
  induction l as [|a l IH]; simpl; intros Hnd Hx Hy Hf.
  - inversion Hx.
  - apply NoDup_cons in Hnd as [Ha Hnd].
    apply elem_of_cons in Hx as [-> | Hx]; apply elem_of_cons in Hy as [-> | Hy].
    + reflexivity.
    + exfalso. apply Ha. rewrite Hf. apply (list_elem_of_fmap_2 f), Hy.
    + exfalso. apply Ha. rewrite <- Hf. apply (list_elem_of_fmap_2 f), Hx.
    + auto.
Qed.

Section for_boqs_spec.
Context (item_body : run_state -> option item -> option (run_state * option item * bool)).
Context (I P : run_state -> Prop) (Q : option item -> option item -> Prop).
Hypothesis body_fwd : forall s x s' x' c,
      I s -> item_body s x = Some (s', x', c) -> I s'.
Hypothesis body_back : forall s x s' x' c,
      I s -> item_body s x = Some (s', x', c) -> P s' -> P s /\ Q x x'.
Hypothesis body_same : forall s x s' x',
      item_body s x = Some (s', x', false) -> s' = s /\ x' = x.
Hypothesis body_tbl : forall s x s' x' c,
      item_body s x = Some (s', x', c) -> db_boqs s' = db_boqs s.
Hypothesis I_frame : forall st tbl lg,
      I st -> I (mkRun (mem_units st) (db_units st) tbl lg).
Hypothesis P_frame : forall st tbl lg,
      P (mkRun (mem_units st) (db_units st) tbl lg) -> P st.

Lemma for_section_spec st sec st' sec' c :
    I st -> for_section item_body st sec = Some (st', sec', c) ->
    I st' /\ (P st' -> P st /\ sec_rel Q sec sec').
  Proof.
    intros HI Hrun. unfold for_section in Hrun.
    destruct (items sec) as [its|] eqn:Hits.
    - destruct (for_each item_body st its) as [[[st1 its1] c1]|] eqn:Hr; [| discriminate].
      injection Hrun as <- <- <-.
      destruct (for_each_spec item_body I P Q body_fwd body_back its _ _ _ _ HI Hr) as [HI1 Hb].
      split; [exact HI1 |]. intros HP. destruct (Hb HP) as [HP0 HF].
      split; [exact HP0 |]. split; [reflexivity |]. rewrite Hits. simpl. now constructor.
    - injection Hrun as <- <- <-. split; [exact HI |]. intros HP. split; [exact HP |].
      split; [reflexivity |]. rewrite Hits. constructor.
  Qed.

Lemma for_section_same st sec st' sec' :
    for_section item_body st sec = Some (st', sec', false) -> st' = st /\ sec' = sec.
  Proof.
    unfold for_section. destruct sec as [t [its|]]; simpl.
    - destruct (for_each item_body st its) as [[[st1 its1] c1]|] eqn:Hr; [| discriminate].
      intros [= <- <- ->].
      now destruct (for_each_same item_body body_same its _ _ _ Hr) as [-> ->].
    - now intros [= <- <-].
  Qed.

Lemma for_section_tbl st sec st' sec' c :
    for_section item_body st sec = Some (st', sec', c) -> db_boqs st' = db_boqs st.
  Proof.
    unfold for_section. destruct (items sec) as [its|].
    - destruct (for_each item_body st its) as [[[st1 its1] c1]|] eqn:Hr; [| discriminate].
      intros [= <- <- <-].
      refine (proj1 (for_each_spec item_body (fun s => db_boqs s = db_boqs st)
                       (fun _ => True) (fun _ _ => True) _ _ its _ _ _ _ eq_refl Hr)).
      + intros s x s' x' c' Hs Hb. now rewrite (body_tbl _ _ _ _ _ Hb).
      + now intros.
    - now intros [= <- <- <-].
  Qed.

Lemma for_sections_spec st secs st' secs' c :
    I st -> for_each (for_section item_body) st secs = Some (st', secs', c) ->
    I st' /\ db_boqs st' = db_boqs st /\ (P st' -> P st /\ Forall2 (sec_rel Q) secs secs').
  Proof.
    intros HI Hr.
    assert (Hfwd : forall s x s' x' c', I s ->
               for_section item_body s x = Some (s', x', c') -> I s').
    { intros s x s' x' c' Hs Hx. now apply (for_section_spec _ _ _ _ _ Hs Hx). }
    assert (Hbk : forall s x s' x' c', I s ->
               for_section item_body s x = Some (s', x', c') -> P s' -> P s /\ sec_rel Q x x').
    { intros s x s' x' c' Hs Hx. now apply (for_section_spec _ _ _ _ _ Hs Hx). }
    destruct (for_each_spec (for_section item_body) I P (sec_rel Q) Hfwd Hbk
                secs _ _ _ _ HI Hr) as [HI1 Hb].
    split; [exact HI1 |]. split; [| exact Hb].
    refine (proj1 (for_each_spec (for_section item_body) (fun s => db_boqs s = db_boqs st)
                     (fun _ => True) (fun _ _ => True) _ _ secs _ _ _ _ eq_refl Hr)).
    - intros s x s' x' c' Hs Hx. now rewrite (for_section_tbl _ _ _ _ _ Hx).
    - now intros.
  Qed.

  (** The rows selected by [V] are the ones the loop visits. *)
Context (V : boq_row -> bool).

Lemma pending_rel_id bs r r' : pending_rel Q V bs r r' -> b_id r' = b_id r.
  Proof.
    unfold pending_rel, visited_rel. case_bool_decide; [now intros -> |].
    destruct (V r); [now intros [? _] | now intros ->].
  Qed.

Lemma pending_skip (T0 : list boq_row) b rest :
    NoDup (map b_id T0) -> b ∈ T0 -> b_id b ∉ map b_id rest ->
    visited_rel Q V b b ->
    forall L L', Forall (fun r => r ∈ T0) L ->
      Forall2 (pending_rel Q V (b :: rest)) L L' -> Forall2 (pending_rel Q V rest) L L'.
  Proof.
    intros Hnd Hb Hfresh Hbb L L' HL HF.
    induction HF as [|r r' L L' Hr HF IH]; [constructor |].
    apply Forall_cons in HL as [HrT HL]. constructor; [| auto].
    unfold pending_rel in *. simpl in Hr.
    case_bool_decide as Hin.
    - subst r'. apply elem_of_cons in Hin as [Hid | Hin].
      + assert (r = b) as -> by (eapply NoDup_map_eq; eauto).
        now rewrite bool_decide_eq_false_2.
      + now rewrite bool_decide_eq_true_2.
    - rewrite bool_decide_eq_false_2; [exact Hr |].
      intros Hin'. apply Hin. now apply elem_of_cons; right.
  Qed.

Lemma pending_update (T0 : list boq_row) b rest d' :
    NoDup (map b_id T0) -> b ∈ T0 -> b_id b ∉ map b_id rest ->
    visited_rel Q V b (mkBoq (b_id b) (b_number b) (b_company b) (Some d')) ->
    forall L L', Forall (fun r => r ∈ T0) L ->
      Forall2 (pending_rel Q V (b :: rest)) L L' ->
      Forall2 (pending_rel Q V rest) L (update_boq (b_id b) d' L').
  Proof.
    intros Hnd Hb Hfresh Hbb L L' HL HF.
    induction HF as [|r r' L L' Hr HF IH]; [constructor |].
    apply Forall_cons in HL as [HrT HL]. simpl. constructor; [| auto].
    pose proof (pending_rel_id _ _ _ Hr) as Hid.
    unfold pending_rel in *. simpl in Hr.
    destruct (decide (b_id r' = b_id b)) as [Heq | Heq].
    - rewrite (bool_decide_eq_true_2 _ Heq). rewrite Hid in Heq.
      assert (r = b) as -> by (eapply NoDup_map_eq; eauto).
      rewrite bool_decide_eq_true_2 in Hr by (now apply elem_of_cons; left). subst r'.
      now rewrite bool_decide_eq_false_2.
    - rewrite (bool_decide_eq_false_2 _ Heq). rewrite Hid in Heq.
      case_bool_decide as Hin.
      + subst r'. apply elem_of_cons in Hin as [Hin | Hin]; [contradiction |].
        now rewrite bool_decide_eq_true_2.
      + rewrite bool_decide_eq_false_2; [exact Hr |].
        intros Hin'. apply Hin. now apply elem_of_cons; right.
  Qed.

Lemma for_boqs_spec (T0 : list boq_row) (bs : list boq_row) : forall st st',
    NoDup (map b_id T0) ->
    (forall b, b ∈ bs -> b ∈ T0 /\ V b = true) ->
    NoDup (map b_id bs) ->
    I st -> for_boqs item_body st bs = Some st' ->
    I st' /\
    (P st' -> P st /\
       (Forall2 (pending_rel Q V bs) T0 (db_boqs st) ->
        Forall2 (visited_rel Q V) T0 (db_boqs st'))).
  Proof.
    assert (HT0 : Forall (fun r => r ∈ T0) T0) by now apply Forall_forall.
    induction bs as [|b rest IH]; intros st st' Hnd Hsub Hndb HI Hrun; simpl in Hrun.
    - injection Hrun as <-. split; [exact HI |]. intros HP. split; [exact HP |].
      intros HF. eapply Forall2_impl; [exact HF |].
      intros r r'. unfold pending_rel. rewrite bool_decide_eq_false_2; [auto |].
      simpl. apply not_elem_of_nil.
    - destruct (for_boq item_body st b) as [st1|] eqn:Hb; [| discriminate].
      simpl in Hndb. apply NoDup_cons in Hndb as [Hfresh Hndr].
      destruct (Hsub b) as [HbT HVb]; [now apply elem_of_cons; left |].
      assert (Hsub' : forall b0, b0 ∈ rest -> b0 ∈ T0 /\ V b0 = true).
      { intros b0 Hb0. apply Hsub. now apply elem_of_cons; right. }
      unfold for_boq in Hb.
      destruct (b_data b) as [d|] eqn:Hd.
      2:{ injection Hb as <-. destruct (IH _ _ Hnd Hsub' Hndr HI Hrun) as [HI' Hback].
          split; [exact HI' |]. intros HP. destruct (Hback HP) as [HP0 Hstep].
          split; [exact HP0 |]. intros HF. apply Hstep.
          assert (Hvis : visited_rel Q V b b).
          { unfold visited_rel. rewrite HVb. repeat split. rewrite Hd. constructor. }
          exact (pending_skip T0 b rest Hnd HbT Hfresh Hvis T0 _ HT0 HF). }
      destruct (sections d) as [secs|] eqn:Hsecs.
      2:{ injection Hb as <-. destruct (IH _ _ Hnd Hsub' Hndr HI Hrun) as [HI' Hback].
          split; [exact HI' |]. intros HP. destruct (Hback HP) as [HP0 Hstep].
          split; [exact HP0 |]. intros HF. apply Hstep.
          assert (Hvis : visited_rel Q V b b).
          { unfold visited_rel. rewrite HVb. repeat split. rewrite Hd. constructor.
            unfold data_rel. rewrite Hsecs. constructor. }
          exact (pending_skip T0 b rest Hnd HbT Hfresh Hvis T0 _ HT0 HF). }
      destruct (for_each (for_section item_body) st secs) as [[[st2 secs2] c]|] eqn:Hsec;
        [| discriminate].
      destruct (for_sections_spec _ _ _ _ _ HI Hsec) as (HI2 & Htbl & Hback2).
      destruct c.
      + injection Hb as <-.
        destruct (IH _ _ Hnd Hsub' Hndr (I_frame _ _ _ HI2) Hrun) as [HI' Hback].
        split; [exact HI' |]. intros HP. destruct (Hback HP) as [HP1 Hstep].
        apply P_frame in HP1. destruct (Hback2 HP1) as [HP0 HF2].
        split; [exact HP0 |]. intros HF. apply Hstep. simpl. rewrite Htbl.
        assert (Hvis : visited_rel Q V b (mkBoq (b_id b) (b_number b) (b_company b)
                                        (Some (mkData (Some secs2))))).
        { unfold visited_rel. rewrite HVb. repeat split; simpl. rewrite Hd. constructor.
          unfold data_rel. rewrite Hsecs. simpl. now constructor. }
        exact (pending_update T0 b rest _ Hnd HbT Hfresh Hvis T0 _ HT0 HF).
      + injection Hb as <-.
        destruct (for_each_same _ for_section_same _ _ _ _ Hsec) as [-> ->].
        destruct (IH _ _ Hnd Hsub' Hndr HI Hrun) as [HI' Hback].
        split; [exact HI' |]. intros HP. destruct (Hback HP) as [HP0 Hstep].
        split; [exact HP0 |]. intros HF. apply Hstep.
        assert (Hvis : visited_rel Q V b b).
        { unfold visited_rel. rewrite HVb. repeat split. rewrite Hd. constructor.
          unfold data_rel. rewrite Hsecs. constructor. now apply Hback2. }
        exact (pending_skip T0 b rest Hnd HbT Hfresh Hvis T0 _ HT0 HF).
  Qed.
End for_boqs_spec.

(** ** Legacy Field Cleanup *)

Lemma truthy_false_not_set (it : item) (k : string) :
  truthy (it !! k) = false <-> ~ is_set it k.
Proof. unfold is_set. destruct (truthy (it !! k)); split; congruence. Qed.

Lemma cleanup_item_post (it : item) :
  exists it' c, cleanup_item (Some it) = Some (Some it', c) /\ cleanup_post it it' /\
                (c = false -> it' = it).
Proof.
  unfold cleanup_item.
  destruct (truthy (it !! "unit_id")) eqn:Hid; simpl.
  - destruct (truthy (it !! "unit") || truthy (it !! "unit_name")) eqn:Hleg.
    + eexists _, true. split; [reflexivity |]. split; [| discriminate].
      assert (Hu : delete "unit_name" (delete "unit" it) !! "unit" = None).
      { rewrite lookup_delete_ne by discriminate. apply lookup_delete_eq. }
      assert (Hn : delete "unit_name" (delete "unit" it) !! "unit_name" = None)
        by apply lookup_delete_eq.
      unfold cleanup_post, is_set. rewrite Hu, Hn. simpl. repeat split; try congruence.
      * intros k H1 H2. now rewrite !lookup_delete_ne by congruence.
      * intros k. destruct (decide (k = "unit_name")) as [-> | H2]; [now left |].
        destruct (decide (k = "unit")) as [-> | H1]; [now left |].
        right. now rewrite !lookup_delete_ne by congruence.
    + exists it, false. split; [reflexivity |]. split; [| reflexivity].
      apply orb_false_iff in Hleg as [Hu Hn].
      unfold cleanup_post, is_set. rewrite Hu, Hn.
      repeat split; try (intuition congruence).
  - exists it, false. split; [reflexivity |]. split; [| reflexivity].
    unfold cleanup_post, is_set. rewrite Hid. repeat split; try congruence. now right.
Qed.

Lemma cleanup_body_fwd_back s e s' e' c :
  cleanup_body s e = Some (s', e', c) ->
  s' = s /\ on_items cleanup_post e e' /\ (c = false -> e' = e).
Proof.
  unfold cleanup_body. destruct e as [it|]; [| discriminate].
  destruct (cleanup_item_post it) as (it' & c' & -> & Hpost & Hsame).
  intros [= <- <- <-]. split; [reflexivity |]. split.
  - exists it, it'. auto.
  - intros Hc. f_equal. auto.
Qed.

(** C4. When Cleanup commits, every item that had [unit_id] set has neither
    [unit] nor [unit_name] set afterwards (both keys are gone when one of
    them was set); every item without [unit_id] is the same item; and on
    every item each property other than [unit] and [unit_name] reads as
    before, so [unit_id], [unit_abbreviation], [description], [quantity] and
    [rate] are preserved.  Cleanup leaves the units table alone and keeps the
    rows of [boqs] in place. *)
Theorem cleanup_postcondition (s s' : store) (lg : list stmt) :
  NoDup (map b_id (boqs s)) ->
  cleanup s = Some (s', lg) ->
  units s' = units s /\
  length (boqs s') = length (boqs s) /\
  forall i j k e, item_at (boqs s) i j k = Some e ->
    exists it it', e = Some it /\ item_at (boqs s') i j k = Some (Some it') /\
                   cleanup_post it it'.
Proof.
  intros Hnd Hrun. unfold cleanup in Hrun.
  destruct (for_boqs cleanup_body (begin s) (boqs s)) as [st|] eqn:Hloop; [| discriminate].
  injection Hrun as <- <-. simpl.
  pose proof (for_boqs_spec cleanup_body
                (fun st => db_units st = units s) (fun _ => True)
                (on_items cleanup_post)) as Hspec.
  destruct (Hspec) with (V := fun _ : boq_row => true) (T0 := boqs s) (bs := boqs s)
                        (st := begin s) (st' := st) as [Hunits Hback]; clear Hspec.
  - intros s0 x s1 x' c Hs Hb. now destruct (cleanup_body_fwd_back _ _ _ _ _ Hb) as [-> _].
  - intros s0 x s1 x' c Hs Hb _. split; [exact I |].
    now destruct (cleanup_body_fwd_back _ _ _ _ _ Hb) as (_ & HQ & _).
  - intros s0 x s1 x' Hb. destruct (cleanup_body_fwd_back _ _ _ _ _ Hb) as (-> & _ & Hs).
    split; [reflexivity | now apply Hs].
  - intros s0 x s1 x' c Hb. now destruct (cleanup_body_fwd_back _ _ _ _ _ Hb) as [-> _].
  - now intros.
  - now intros.
  - exact Hnd.
  - intros b Hb. now split.
  - exact Hnd.
  - reflexivity.
  - exact Hloop.
  - destruct (Hback I) as [_ Hrel].
    assert (HF : Forall2 (visited_rel (on_items cleanup_post) (fun _ => true))
                         (boqs s) (db_boqs st)).
    { apply Hrel. simpl. apply Forall2_same_length_lookup. split; [reflexivity |].
      intros i r r' Hr Hr'. assert (r' = r) as -> by congruence.
      unfold pending_rel. rewrite bool_decide_eq_true_2; [reflexivity |].
      apply (list_elem_of_fmap_2 b_id). eapply list_elem_of_lookup_2; eauto. }
    split; [exact Hunits |]. split; [symmetry; eapply Forall2_length; eauto |].
    intros i j k e Hat.
    assert (exists b, boqs s !! i = Some b) as [b Hb].
    { unfold item_at in Hat. destruct (boqs s !! i); [eauto | discriminate]. }
    destruct (visited_item_at _ _ _ _ i j k b e HF Hb Hat) as (e' & Hat' & it & it' & -> & -> & HQ).
    eauto.
Qed.

Section Cleanup_examples.
#[local] Existing Instance ascii_folding.

Lemma cleanup_postcondition_witness :
  exists s' lg, cleanup (run_migration scenario_store) = Some (s', lg) /\
    units s' = units (run_migration scenario_store) /\
    exists it it',
      item_at (boqs (run_migration scenario_store)) 0 0 0 = Some (Some it) /\
      item_at (boqs s') 0 0 0 = Some (Some it') /\ cleanup_post it it'.
Proof.
  destruct (cleanup (run_migration scenario_store)) as [[s' lg]|] eqn:Hrun;
    [| vm_compute in Hrun; discriminate].
  exists s', lg. split; [reflexivity |].
  assert (Hnd : NoDup (map b_id (boqs (run_migration scenario_store)))).
  { vm_compute. apply NoDup_singleton. }
  destruct (cleanup_postcondition _ _ _ Hnd Hrun) as (Hu & _ & Hitems).
  split; [exact Hu |].
  destruct (item_at (boqs (run_migration scenario_store)) 0 0 0) as [e|] eqn:Hat;
    [| vm_compute in Hat; discriminate].
  destruct (Hitems 0 0 0 e Hat) as (it & it' & -> & Hat' & Hpost).
  exists it, it'. auto.
Defined.

End Cleanup_examples.

(** ** End-to-end scenario *)

Section Scenario.
Context {folding : CaseFolding}.

(** The created unit's identifier, as the model's [uuid_generate_v4] picks it. *)
Example scenario_unit_id : fresh_uuid (units scenario_store) = "u".
Proof. reflexivity. Qed.

(** C5, as the code has it.  From the item
    [{description:"Excavation", quantity:10, rate:1500, unit:"m3"}] in a
    company without units: the Migration Pipeline creates the unit
    [m3]/[m3] and sets [unit_id], [unit_name = "m3"] and
    [unit_abbreviation = "m3"] on the item; the Normalization Runner then
    commits without a write; and Cleanup removes both [unit] and [unit_name],
    leaving the other properties. *)
Theorem scenario_end_to_end :
  let s1 := run_migration scenario_store in
  let s3 := run_cleanup (run_normalization s1) in
  units s1 = [mkUnitRow (Some "c1") (mkUnit "u" "m3" (Some "m3"))] /\
  item_at (boqs s1) 0 0 0 =
    Some (Some (<["unit_abbreviation" := JStr "m3"]>
                 (<["unit_name" := JStr "m3"]>
                   (<["unit_id" := JStr "u"]> scenario_item)))) /\
  normalize s1 = Some (s1, []) /\
  units s3 = units s1 /\
  item_at (boqs s3) 0 0 0 =
    Some (Some (<["unit_abbreviation" := JStr "m3"]>
                 (<["unit_id" := JStr "u"]> (delete "unit" scenario_item)))).
Proof. cbv zeta. repeat apply conj; vm_compute; reflexivity. Qed.

End Scenario.

Section Scenario_examples.
#[local] Existing Instance ascii_folding.

(** The specification's scenario ends with [unit_name] still on the item;
    after Cleanup it is not. *)
Lemma scenario_cleanup_drops_unit_name :
  exists it,
    item_at (boqs (run_cleanup (run_normalization (run_migration scenario_store)))) 0 0 0
    = Some (Some it) /\
    it !! "unit" = None /\ it !! "unit_name" = None /\ it !! "unit_id" = Some (JStr "u").
Proof.
  exists (<["unit_abbreviation" := JStr "m3"]>
            (<["unit_id" := JStr "u"]> (delete "unit" scenario_item))).
  repeat apply conj; vm_compute; reflexivity.
Qed.

End Scenario_examples.

(** ** Normalization Runner, per item *)

Section Runner.
Context {folding : CaseFolding}.

Lemma abbr_or_name_some (u : unit_t) :
  exists j, abbr_or_name u = Some j /\
    (name u <> [] -> truthy (Some j) = true) /\
    (abbr_truthy u = true -> truthy (Some j) = true).
Proof.
  unfold abbr_or_name, js_or, of_text, abbr_truthy.
  destruct (abbreviation u) as [[|c a]|]; simpl; eexists; (split; [reflexivity |]);
    split; intros H; try reflexivity; try discriminate; now apply str_truthy_nonempty.
Qed.

(** The outcomes of the per-item step. *)
Lemma normalize_item_cases (us : list unit_t) (it it' : item) (c : bool) :
  normalize_item us (Some it) = Some (Some it', c) ->
  (c = false /\ it' = it) \/
  (c = true /\ truthy (it !! "unit_abbreviation") = false /\
   exists u j, u ∈ us /\ abbr_or_name u = Some j /\
     ((truthy (it !! "unit_id") = true /\ find (id_is (it !! "unit_id")) us = Some u /\
       it' = <["unit_name" := JStr (name u)]> (<["unit_abbreviation" := j]> it)) \/
      (truthy (it !! "unit_id") = false /\
       exists tok, it !! "unit_name" = Some (JStr tok) /\ name_matches tok u = true /\
         it' = <["unit_abbreviation" := j]> (<["unit_id" := JStr (id u)]> it)) \/
      (truthy (it !! "unit_id") = false /\ truthy (it !! "unit_name") = false /\
       exists tok, it !! "unit" = Some (JStr tok) /\ name_or_abbr_matches tok u = true /\
         it' = <["unit_name" := JStr (name u)]>
                 (<["unit_abbreviation" := j]> (<["unit_id" := JStr (id u)]> it))))).
Proof.
  unfold normalize_item.
  destruct (truthy (it !! "unit_abbreviation")) eqn:Hab; [intros [= <- <-]; now left |].
  destruct (truthy (it !! "unit_id")) eqn:Hid.
  { destruct (find (id_is (it !! "unit_id")) us) as [u|] eqn:Hf; [| intros [= <- <-]; now left].
    destruct (abbr_or_name_some u) as (j & Hj & _). rewrite Hj. simpl.
    intros [= <- <-]. right. repeat split. exists u, j.
    split; [now apply find_some_elem in Hf |]. split; [exact Hj |]. left. auto. }
  destruct (truthy (it !! "unit_name")) eqn:Hn.
  { destruct (it !! "unit_name") as [[| | |tok]|] eqn:Hname;
      try (destruct (existsb _ us); [discriminate | intros [= <- <-]; now left]).
    destruct (find (name_matches tok) us) as [u|] eqn:Hf; [| intros [= <- <-]; now left].
    destruct (abbr_or_name_some u) as (j & Hj & _). rewrite Hj. simpl.
    intros [= <- <-]. right. repeat split. exists u, j. apply find_some_elem in Hf as [Hin Hm].
    split; [exact Hin |]. split; [exact Hj |]. right; left. split; [reflexivity |].
    exists tok. auto. }
  destruct (truthy (it !! "unit")) eqn:Hun; [| intros [= <- <-]; now left].
  destruct (it !! "unit") as [[| | |tok]|] eqn:Hunit;
    try (destruct (existsb _ us); [discriminate | intros [= <- <-]; now left]).
  destruct (find (name_or_abbr_matches tok) us) as [u|] eqn:Hf; [| intros [= <- <-]; now left].
  destruct (abbr_or_name_some u) as (j & Hj & _). rewrite Hj. simpl.
  intros [= <- <-]. right. repeat split. exists u, j. apply find_some_elem in Hf as [Hin Hm].
  split; [exact Hin |]. split; [exact Hj |]. right; right. repeat split.
  exists tok. auto.
Qed.

Lemma name_matches_truthy (tok : jstring) (u : unit_t) :
  name_matches tok u = true -> name u <> [].
Proof.
  unfold name_matches. intros H. apply andb_true_iff in H as [H _].
  now apply str_truthy_nonempty.
Qed.

Lemma name_or_abbr_truthy (tok : jstring) (u : unit_t) :
  name_or_abbr_matches tok u = true -> name u <> [] \/ abbr_truthy u = true.
Proof.
  unfold name_or_abbr_matches. intros H. apply orb_true_iff in H as [H | H].
  - left. now apply name_matches_truthy in H.
  - right. unfold abbr_matches, abbr_truthy in *. destruct (abbreviation u); [| discriminate].
    now apply andb_true_iff in H as [H _].
Qed.

Lemma normalize_item_no_change (us : list unit_t) (it : item) :
  truthy (it !! "unit_abbreviation") = true ->
  normalize_item us (Some it) = Some (Some it, false).
Proof. intros H. unfold normalize_item. now rewrite H. Qed.

(** The per-item step is idempotent. *)
Lemma normalize_item_idem (us : list unit_t) (it it' : item) (c : bool) :
  normalize_item us (Some it) = Some (Some it', c) ->
  exists c2, normalize_item us (Some it') = Some (Some it', c2).
Proof.
  intros Hrun. destruct (normalize_item_cases _ _ _ _ Hrun) as [[-> ->] | (-> & Hab & u & j & Hin & Hj & Hcase)].
  { eauto. }
  destruct (abbr_or_name_some u) as (j' & Hj' & Hname & Habbr).
  assert (j' = j) as -> by congruence.
  destruct Hcase as [(Hid & Hf & ->) | [(Hid & tok & Htok & Hm & ->) | (Hid & Hn & tok & Htok & Hm & ->)]].
  - destruct (truthy (Some j)) eqn:Htj.
    + exists false. apply normalize_item_no_change.
      rewrite lookup_insert_ne by discriminate. now rewrite lookup_insert_eq.
    + exists true. unfold normalize_item.
      rewrite (lookup_insert_ne _ "unit_name" "unit_abbreviation") by discriminate.
      rewrite lookup_insert_eq, Htj.
      rewrite !(lookup_insert_ne _ _ "unit_id") by discriminate.
      rewrite Hid, Hf, Hj. simpl. do 3 f_equal.
      apply map_eq. intros k. rewrite !lookup_insert. repeat case_decide; congruence.
  - exists false. apply normalize_item_no_change. rewrite lookup_insert_eq.
    apply Hname. now apply name_matches_truthy in Hm.
  - exists false. apply normalize_item_no_change.
    rewrite lookup_insert_ne by discriminate. rewrite lookup_insert_eq.
    destruct (name_or_abbr_truthy _ _ Hm); auto.
Qed.

Lemma normalize_item_keeps (us : list unit_t) (it it' : item) (c : bool) :
  normalize_item us (Some it) = Some (Some it', c) ->
  (forall k, it !! k <> None -> it' !! k <> None) /\
  (Forall (fun u => name u <> []) us -> forall k, is_set it k -> is_set it' k) /\
  (forall k, k <> "unit_id" -> k <> "unit_name" -> k <> "unit_abbreviation" ->
             it' !! k = it !! k).
Proof.
  intros Hrun.
  destruct (normalize_item_cases _ _ _ _ Hrun)
    as [[-> ->] | (-> & Hab & u & j & Hin & Hj & Hcase)]; [auto |].
  destruct (abbr_or_name_some u) as (j' & Hj' & Hname & Habbr).
  assert (j' = j) as -> by congruence.
  split; [| split].
  - intros k Hk.
    destruct Hcase as [(_ & _ & ->) | [(_ & _ & _ & _ & ->) | (_ & _ & _ & _ & _ & ->)]];
      rewrite !lookup_insert; repeat case_decide; congruence.
  - intros Hnames k Hk. rewrite Forall_forall in Hnames. specialize (Hnames u Hin).
    unfold is_set in *.
    destruct Hcase as [(Hid & _ & ->) | [(Hid & _ & _ & _ & ->) | (Hid & Hn & _ & _ & _ & ->)]];
      rewrite !lookup_insert; repeat case_decide; subst; simpl;
        try congruence; try (now apply str_truthy_nonempty).
  - intros k H1 H2 H3.
    destruct Hcase as [(_ & _ & ->) | [(_ & _ & _ & _ & ->) | (_ & _ & _ & _ & _ & ->)]];
      now rewrite !lookup_insert_ne by congruence.
Qed.

End Runner.

(** ** Invariants of the loops *)

Section for_boqs_inv.
Context (item_body : run_state -> option item -> option (run_state * option item * bool)).
Context (I : run_state -> Prop).
Hypothesis body_fwd : forall s x s' x' c,
      I s -> item_body s x = Some (s', x', c) -> I s'.
Hypothesis I_frame : forall st tbl lg,
      I st -> I (mkRun (mem_units st) (db_units st) tbl lg).

Lemma for_boq_inv st b st' : I st -> for_boq item_body st b = Some st' -> I st'.
  Proof.
    intros HI. unfold for_boq.
    destruct (b_data b) as [d|]; [| now intros [= <-]].
    destruct (sections d) as [secs|]; [| now intros [= <-]].
    destruct (for_each (for_section item_body) st secs) as [[[st2 secs2] c]|] eqn:Hsec;
      [| discriminate].
    assert (HI2 : I st2).
    { refine (proj1 (for_each_spec (for_section item_body) I (fun _ => True)
                       (fun _ _ => True) _ _ secs _ _ _ _ HI Hsec)); [| now intros].
      intros s x s' x' c' Hs. unfold for_section. destruct (items x) as [its|].
      - destruct (for_each item_body s its) as [[[s1 its1] c1]|] eqn:Hr; [| discriminate].
        intros [= <- <- <-].
        refine (proj1 (for_each_spec item_body I (fun _ => True) (fun _ _ => True)
                         body_fwd _ its _ _ _ _ Hs Hr)). now intros.
      - now intros [= <- <- <-]. }
    destruct c; intros [= <-]; auto.
  Qed.

Lemma for_boqs_inv bs : forall st st',
      I st -> for_boqs item_body st bs = Some st' -> I st'.
  Proof.
    induction bs as [|b bs IH]; intros st st' HI; simpl.
    - now intros [= <-].
    - destruct (for_boq item_body st b) as [st1|] eqn:Hb; [| discriminate].
      intros Hrun. eapply IH; [| exact Hrun]. eapply for_boq_inv; eauto.
  Qed.
End for_boqs_inv.

Section Runner_run.
Context {folding : CaseFolding}.

Lemma normalize_body_state companyId s e s' e' c :
  normalize_body companyId s e = Some (s', e', c) -> s' = s.
Proof.
  unfold normalize_body. destruct (normalize_item (mem_units s) e) as [[? ?]|]; [| discriminate].
  now intros [= <- _ _].
Qed.

Lemma normalize_units (s s' : store) (lg : list stmt) :
  normalize s = Some (s', lg) -> units s' = units s.
Proof.
  unfold normalize.
  destruct (for_companies normalize_body (begin s) (companies s)) as [st|] eqn:Hrun;
    [| discriminate].
  intros [= <- <-]. simpl.
  assert (H : forall cs st0 st1, db_units st0 = units s ->
             for_companies normalize_body st0 cs = Some st1 -> db_units st1 = units s).
  { induction cs as [|c cs IH]; intros st0 st1 H0; simpl.
    - now intros [= <-].
    - destruct (for_company normalize_body st0 c) as [st2|] eqn:Hc; [| discriminate].
      apply IH. unfold for_company in Hc.
      eapply (for_boqs_inv (normalize_body c) (fun st => db_units st = units s));
        [| | | exact Hc]; auto.
      intros s0 x s1 x' c' Hs Hb. now rewrite (normalize_body_state _ _ _ _ _ _ Hb). }
  eapply H; [| exact Hrun]. reflexivity.
Qed.

End Runner_run.

(** ** Normalization Runner: what one application reaches *)

Section Runner_claim.
Context {folding : CaseFolding}.

Lemma id_is_decide (v : jsval) (u : unit_t) :
  id_is v u = bool_decide (v = Some (JStr (id u))).
Proof.
  unfold id_is. destruct v as [[| | |s]|]; try (symmetry; apply bool_decide_eq_false_2; congruence).
  destruct (decide (id u = s)) as [<- | Hne].
  - now rewrite !bool_decide_eq_true_2.
  - rewrite !bool_decide_eq_false_2; [reflexivity | congruence | exact Hne].
Qed.

Lemma id_is_spec (s : jstring) (u : unit_t) : id_is (Some (JStr s)) u = true <-> id u = s.
Proof. unfold id_is. apply bool_decide_eq_true. Qed.

Lemma id_is_true (v : jsval) (u : unit_t) :
  id_is v u = true <-> v = Some (JStr (id u)).
Proof. rewrite id_is_decide. apply bool_decide_eq_true. Qed.

Lemma find_of_first_such {A : Type} (f : A -> bool) (P : A -> Prop) (us : list A) (u : A) :
  (forall x, f x = true <-> P x) -> first_such P us u -> find f us = Some u.
Proof.
  intros Hf Hu. pose proof (find_first_such f P us Hf) as Hfind.
  destruct (find f us) as [m|].
  - f_equal. eapply first_such_unique; eauto.
  - destruct Hu as (l1 & l2 & -> & Hu & _).
    apply Forall_app in Hfind as [_ Hfind]. inversion Hfind; subst. contradiction.
Qed.

Lemma name_or_abbr_matches_spec (tok : jstring) (u : unit_t) :
  name_or_abbr_matches tok u = true <-> name_ci tok u \/ abbr_ci tok u.
Proof.
  unfold name_or_abbr_matches.
  now rewrite orb_true_iff, name_matches_spec, abbr_matches_spec.
Qed.

(** An item without a cached abbreviation whose unit is found is changed. *)
Lemma runner_found (us : list unit_t) (it : item) (u : unit_t) :
  truthy (it !! "unit_abbreviation") = false ->
  runner_finds us it u ->
  exists it', normalize_item us (Some it) = Some (Some it', true) /\
    it' !! "unit_id" = Some (JStr (id u)) /\
    it' !! "unit_abbreviation" = abbr_or_name u.
Proof.
  intros Hab Hfound. unfold normalize_item. rewrite Hab.
  destruct (abbr_or_name_some u) as (j & Hj & _).
  unfold is_set in Hfound.
  destruct Hfound as [(Hid & Hu) | [(Hid & tok & Hn & Htok & Hu) | (Hid & Hn & tok & Hun & Htok & Hu)]].
  - rewrite Hid. rewrite (find_of_first_such _ _ us u (id_is_true (it !! "unit_id")) Hu).
    rewrite Hj. simpl. eexists. split; [reflexivity |].
    destruct Hu as (_ & _ & _ & Hu & _).
    split.
    + now rewrite !lookup_insert_ne by discriminate.
    + rewrite lookup_insert_ne by discriminate. apply lookup_insert_eq.
  - apply not_true_is_false in Hid. rewrite Hid, Hn.
    assert (Ht : truthy (Some (JStr tok)) = true) by now apply str_truthy_nonempty.
    rewrite Ht. rewrite (find_of_first_such _ _ us u (name_matches_spec tok) Hu).
    rewrite Hj. simpl. eexists. split; [reflexivity |]. split.
    + rewrite lookup_insert_ne by discriminate. apply lookup_insert_eq.
    + apply lookup_insert_eq.
  - apply not_true_is_false in Hid, Hn. rewrite Hid, Hn, Hun.
    assert (Ht : truthy (Some (JStr tok)) = true) by now apply str_truthy_nonempty.
    rewrite Ht. rewrite (find_of_first_such _ _ us u (name_or_abbr_matches_spec tok) Hu).
    rewrite Hj. simpl. eexists. split; [reflexivity |]. split.
    + rewrite !lookup_insert_ne by discriminate. apply lookup_insert_eq.
    + rewrite lookup_insert_ne by discriminate. apply lookup_insert_eq.
Qed.

(** An item that the runner changes had no cached abbreviation, and its unit
    was found. *)
Lemma runner_changed (us : list unit_t) (it it' : item) :
  normalize_item us (Some it) = Some (Some it', true) ->
  truthy (it !! "unit_abbreviation") = false /\ exists u, runner_finds us it u.
Proof.
  unfold normalize_item, runner_finds, is_set.
  destruct (truthy (it !! "unit_abbreviation")) eqn:Hab; [discriminate |].
  intros Hrun. split; [reflexivity |].
  destruct (truthy (it !! "unit_id")) eqn:Hid.
  { pose proof (find_first_such _ _ us (id_is_true (it !! "unit_id"))) as Hf.
    destruct (find (id_is (it !! "unit_id")) us) as [u|]; [| discriminate].
    exists u. left. now split. }
  destruct (truthy (it !! "unit_name")) eqn:Hn.
  { destruct (it !! "unit_name") as [[| | |tok]|] eqn:Hname;
      try (destruct (existsb _ us); discriminate).
    pose proof (find_first_such _ _ us (name_matches_spec tok)) as Hf.
    destruct (find (name_matches tok) us) as [u|]; [| discriminate].
    exists u. right; left. split; [congruence |]. exists tok.
    split; [reflexivity |]. split; [now apply str_truthy_nonempty | exact Hf]. }
  destruct (truthy (it !! "unit")) eqn:Hun; [| discriminate].
  destruct (it !! "unit") as [[| | |tok]|] eqn:Hunit;
    try (destruct (existsb _ us); discriminate).
  pose proof (find_first_such _ _ us (name_or_abbr_matches_spec tok)) as Hf.
  destruct (find (name_or_abbr_matches tok) us) as [u|]; [| discriminate].
  exists u. right; right. split; [congruence |]. split; [congruence |]. exists tok.
  split; [reflexivity |]. split; [now apply str_truthy_nonempty | exact Hf].
Qed.

(** With non-empty unit names, what the runner returns is an item it leaves
    as it is without reporting a change. *)
Lemma normalize_item_settles (us : list unit_t) (it it' : item) (c : bool) :
  Forall (fun u => name u <> []) us ->
  normalize_item us (Some it) = Some (Some it', c) ->
  normalize_item us (Some it') = Some (Some it', false).
Proof.
  intros Hnames Hrun.
  destruct (normalize_item_cases _ _ _ _ Hrun)
    as [[-> ->] | (-> & Hab & u & j & Hin & Hj & Hcase)]; [exact Hrun |].
  destruct (abbr_or_name_some u) as (j' & Hj' & Hname & _).
  assert (j' = j) as -> by congruence.
  rewrite Forall_forall in Hnames. specialize (Hname (Hnames u Hin)).
  apply normalize_item_no_change.
  destruct Hcase as [(_ & _ & ->) | [(_ & _ & _ & _ & ->) | (_ & _ & _ & _ & _ & ->)]];
    rewrite ?lookup_insert_eq; try exact Hname;
    rewrite lookup_insert_ne by discriminate; now rewrite lookup_insert_eq.
Qed.

(** C2, as the code has it.  The per-item step of the Normalization Runner
    is idempotent: applied to an item it produced, it returns that item, and
    reports no change when the unit names are non-empty.  An item without a
    cached abbreviation whose unit is found - by [unit_id], else by
    [unit_name], else by the legacy [unit] - is changed and reaches the
    target for the two fields the runner is responsible for: [unit_id] is the
    identifier of that unit, and [unit_abbreviation] its abbreviation or else
    its name, which are set when the unit's identifier and name are non-empty.
    An item that has a cached abbreviation, or whose unit is not found, is
    left as it is.  The step removes no property; with non-empty unit names it
    turns no property from set to unset; and it touches [unit_id],
    [unit_name] and [unit_abbreviation] only, so the legacy [unit] stays.  A
    run never inserts into the units table. *)
Theorem normalization_idempotent_monotone :
  (forall (us : list unit_t) (it it' : item) (c : bool),
      normalize_item us (Some it) = Some (Some it', c) ->
      (exists c2, normalize_item us (Some it') = Some (Some it', c2)) /\
      (Forall (fun u => name u <> []) us ->
       normalize_item us (Some it') = Some (Some it', false)) /\
      (forall u, ~ is_set it "unit_abbreviation" -> runner_finds us it u ->
         c = true /\
         it' !! "unit_id" = Some (JStr (id u)) /\
         it' !! "unit_abbreviation" = abbr_or_name u /\
         (id u <> [] -> is_set it' "unit_id") /\
         (name u <> [] -> is_set it' "unit_abbreviation")) /\
      (is_set it "unit_abbreviation" \/ (forall u, ~ runner_finds us it u) ->
       it' = it /\ c = false) /\
      (forall k, it !! k <> None -> it' !! k <> None) /\
      (Forall (fun u => name u <> []) us -> forall k, is_set it k -> is_set it' k) /\
      (forall k, k <> "unit_id" -> k <> "unit_name" -> k <> "unit_abbreviation" ->
                 it' !! k = it !! k)) /\
  (forall s : store, units (run_normalization s) = units s).
Proof.
  split.
  - intros us it it' c Hrun.
    split; [now apply normalize_item_idem in Hrun |].
    split; [intros Hnames; now apply normalize_item_settles with it c |].
    split; [| split; [| now apply normalize_item_keeps in Hrun]].
    + intros u Hab Hfound. apply not_true_is_false in Hab.
      destruct (runner_found us it u Hab Hfound) as (it1 & Hrun1 & Hid & Habbr).
      rewrite Hrun1 in Hrun. injection Hrun as <- <-.
      split; [reflexivity |]. split; [exact Hid |]. split; [exact Habbr |].
      unfold is_set. rewrite Hid, Habbr. split.
      * intros Hne. now apply str_truthy_nonempty.
      * intros Hne. destruct (abbr_or_name_some u) as (j & -> & Hj & _). auto.
    + intros Hcase. destruct c.
      * destruct (runner_changed _ _ _ Hrun) as (Hab & u & Hu).
        destruct Hcase as [Hset | Hnone]; [unfold is_set in Hset; congruence |].
        now destruct (Hnone u).
      * destruct (normalize_item_cases _ _ _ _ Hrun) as [[_ ->] | [? _]];
          [now split | discriminate].
  - intros s. unfold run_normalization, after.
    destruct (normalize s) as [[s' lg]|] eqn:Hrun; [| reflexivity].
    now apply normalize_units in Hrun.
Qed.

End Runner_claim.

Section Runner_examples.
#[local] Existing Instance ascii_folding.

Lemma normalization_idempotent_monotone_witness :
  let us := [mkUnit "u1" "Kilogram" (Some "kg")] in
  let it : item := {["unit" := JStr "KG"]} in
  let it' : item :=
    <["unit_name" := JStr "Kilogram"]>
      (<["unit_abbreviation" := JStr "kg"]> (<["unit_id" := JStr "u1"]> it)) in
  normalize_item us (Some it) = Some (Some it', true) /\
  normalize_item us (Some it') = Some (Some it', false) /\
  is_set it' "unit".
Proof.
  intros us it it'.
  assert (Hrun : normalize_item us (Some it) = Some (Some it', true))
    by (vm_compute; reflexivity).
  split; [exact Hrun |].
  destruct (proj1 normalization_idempotent_monotone us it it' true Hrun)
    as (_ & Hidem & _ & _ & _ & Hset & _).
  assert (Hnames : Forall (fun u => name u <> []) us) by (repeat constructor; discriminate).
  split; [now apply Hidem |].
  apply Hset; [exact Hnames | reflexivity].
Defined.

(** Three ways in which the state the runner stays at is not the
    fully-normalized one.  The item [{unit:"kg"}] of a company with the unit
    [kg] reaches, in one step, an item that the step leaves as it is and that
    has both [unit] and [unit_name] set.  The item [{unit:"ton"}] of the same
    company, whose unit is not found, is returned as it is, without
    [unit_id].  And with a unit whose name is empty and whose abbreviation is
    NULL (the column [name] is NOT NULL, nothing more), the item
    [{unit_id:"u1", unit_name:"Bags"}] loses its [unit_name], gets an empty
    [unit_abbreviation], and is reported as changed by every later step. *)
Lemma normalization_off_target :
  (exists it1 : item,
    normalize_item [mkUnit "u1" "kg" None] (Some {["unit" := JStr "kg"]})
    = Some (Some it1, true) /\
    normalize_item [mkUnit "u1" "kg" None] (Some it1) = Some (Some it1, false) /\
    is_set it1 "unit_id" /\ is_set it1 "unit_abbreviation" /\
    is_set it1 "unit" /\ is_set it1 "unit_name") /\
  (normalize_item [mkUnit "u1" "kg" None] (Some {["unit" := JStr "ton"]})
   = Some (Some {["unit" := JStr "ton"]}, false)) /\
  (let it : item := <["unit_name" := JStr "Bags"]> {["unit_id" := JStr "u1"]} in
   exists it1 : item,
    is_set it "unit_name" /\
    normalize_item [mkUnit "u1" [] None] (Some it) = Some (Some it1, true) /\
    normalize_item [mkUnit "u1" [] None] (Some it1) = Some (Some it1, true) /\
    ~ is_set it1 "unit_name" /\ ~ is_set it1 "unit_abbreviation").
Proof.
  split; [| split].
  - exists (<["unit_name" := JStr "kg"]>
              (<["unit_abbreviation" := JStr "kg"]>
                (<["unit_id" := JStr "u1"]> {["unit" := JStr "kg"]}))).
    repeat apply conj; vm_compute; reflexivity.
  - vm_compute. reflexivity.
  - intros it. exists (<["unit_name" := JStr []]> (<["unit_abbreviation" := JStr []]> it)).
    repeat apply conj; vm_compute; first [reflexivity | discriminate].
Qed.

End Runner_examples.

(** ** Document renderer *)

Lemma find_ext_eq {A : Type} (f g : A -> bool) (l : list A) :
  (forall x, f x = g x) -> find f l = find g l.
Proof.
  intros Hfg. induction l as [|x l IH]; simpl; [reflexivity |].
  rewrite Hfg, IH. reflexivity.
Qed.

(** C1, as the code has it.  The viewer follows the four-step precedence with
    the placeholder [-].  The row that the PDF generator builds is computed
    from the item alone: its unit of measure is the precedence without the
    first step, that is over an empty unit list, with the placeholder [Item];
    the cached [unit_abbreviation], or the empty jstring, is passed next to
    it. *)
Theorem renderer_precedence (us : list unit_t) (it : item) :
  viewer_unit us it = display_unit_spec "-" us it /\
  pdf_unit_of_measure it = display_unit_spec "Item" [] it /\
  pdf_unit_abbreviation it =
    (if truthy (it !! "unit_abbreviation") then it !! "unit_abbreviation"
     else Some (JStr [])).
Proof.
  split; [| split].
  - unfold viewer_unit, display_unit_spec.
    rewrite (find_ext_eq _ _ us (id_is_decide (it !! "unit_id"))).
    destruct (truthy (it !! "unit_id")); [| reflexivity].
    destruct (find _ us) as [u|]; [| reflexivity].
    unfold abbr_or_name, js_or, of_text. now destruct (abbreviation u) as [[|c a]|].
  - unfold pdf_unit_of_measure, display_unit_spec, js_or. simpl.
    destruct (truthy (it !! "unit_id")); destruct (truthy (it !! "unit_name")) eqn:Hn;
      rewrite ?Hn; try reflexivity; now destruct (truthy (it !! "unit")) eqn:Hu; rewrite ?Hu.
  - reflexivity.
Qed.

(** The steps of the precedence, read off [display_unit_spec]. *)
Lemma display_unit_spec_steps (p : jstring) (us : list unit_t) (it : item) :
  (forall u, is_set it "unit_id" ->
     first_such (fun v => it !! "unit_id" = Some (JStr (id v))) us u ->
     display_unit_spec p us it =
       Some (JStr (match abbreviation u with
                   | Some a => if str_truthy a then a else name u
                   | None => name u
                   end))) /\
  (~ is_set it "unit_id" \/ Forall (fun v => it !! "unit_id" <> Some (JStr (id v))) us ->
   (is_set it "unit_name" -> display_unit_spec p us it = it !! "unit_name") /\
   (~ is_set it "unit_name" -> is_set it "unit" -> display_unit_spec p us it = it !! "unit") /\
   (~ is_set it "unit_name" -> ~ is_set it "unit" -> display_unit_spec p us it = Some (JStr p))).
Proof.
  unfold display_unit_spec, is_set.
  pose proof (find_first_such (fun u => bool_decide (it !! "unit_id" = Some (JStr (id u))))
                (fun v => it !! "unit_id" = Some (JStr (id v))) us
                (fun x => bool_decide_eq_true _)) as Hfind.
  split.
  - intros u -> Hu. destruct (find _ us) as [m|].
    + assert (m = u) as -> by (eapply first_such_unique; eauto).
      now destruct (abbreviation u) as [[|c a]|].
    + destruct Hu as (l1 & l2 & -> & Hu & _).
      apply Forall_app in Hfind as [_ Hfind]. inversion Hfind; subst. contradiction.
  - intros Hno.
    assert (Hnone : (if truthy (it !! "unit_id")
                     then find (fun u => bool_decide (it !! "unit_id" = Some (JStr (id u)))) us
                     else None) = None).
    { destruct (truthy (it !! "unit_id")); [| reflexivity].
      destruct Hno as [Hno | Hno]; [congruence |].
      destruct (find _ us) as [m|]; [| reflexivity].
      destruct Hfind as (l1 & l2 & -> & Hm & _).
      apply Forall_app in Hno as [_ Hno]. inversion Hno; subst. contradiction. }
    rewrite Hnone.
    destruct (truthy (it !! "unit_name")); destruct (truthy (it !! "unit"));
      repeat split; intros; congruence.
Qed.

(** The claim asks the PDF generator for the same precedence.  For an item
    whose [unit_id] resolves to a unit abbreviated [m3], the viewer shows
    [m3], while the PDF row carries the item's [unit_name] and an empty
    abbreviation; and no function of the two fields of the row can follow the
    precedence, which depends on the unit list. *)
Lemma pdf_row_ignores_unit_list :
  let it : item :=
    list_to_map [("unit_id", JStr "u1"); ("unit_name", JStr "Cubic Meters");
                 ("unit", JStr "cum")] in
  let us := [mkUnit "u1" "Cubic Meters" (Some "m3")] in
  display_unit_spec "Item" us it = Some (JStr "m3") /\
  viewer_unit us it = Some (JStr "m3") /\
  pdf_unit_of_measure it = Some (JStr "Cubic Meters") /\
  pdf_unit_abbreviation it = Some (JStr []) /\
  ~ (exists render : jsval -> jsval -> jsval,
       forall (us : list unit_t) (it : item),
         render (pdf_unit_of_measure it) (pdf_unit_abbreviation it)
         = display_unit_spec "Item" us it).
Proof.
  intros it us. repeat split; try (vm_compute; reflexivity).
  intros [render Hr].
  pose proof (Hr us it) as H1.
  pose proof (Hr [mkUnit "u1" "Cubic Meters" (Some "cu.m")] it) as H2.
  rewrite H1 in H2. vm_compute in H2. discriminate.
Qed.
(** ** One pass over the BOQs of a company *)

Lemma load_boqs_elem (c : jstring) (tbl : list boq_row) (b : boq_row) :
  b ∈ load_boqs c tbl <-> b ∈ tbl /\ of_company c b = true.
Proof.
  unfold load_boqs, of_company. rewrite list_elem_of_filter, bool_decide_eq_true. tauto.
Qed.

Lemma load_boqs_NoDup (c : jstring) (tbl : list boq_row) :
  NoDup (map b_id tbl) -> NoDup (map b_id (load_boqs c tbl)).
Proof.
  intros H. eapply sublist_NoDup; [exact H |].
  apply (fmap_sublist b_id). apply sublist_filter.
Qed.

Lemma pending_rel_start (Q : option item -> option item -> Prop) (V : boq_row -> bool)
      (T0 bs : list boq_row) :
  (forall r, r ∈ T0 -> V r = true -> r ∈ bs) ->
  Forall2 (pending_rel Q V bs) T0 T0.
Proof.
  intros Hbs. apply Forall2_same_length_lookup. split; [reflexivity |].
  intros i r r' Hr Hr'. assert (r' = r) as -> by congruence.
  unfold pending_rel, visited_rel. case_bool_decide as Hin; [reflexivity |].
  destruct (V r) eqn:HV; [| reflexivity].
  exfalso. apply Hin. apply (list_elem_of_fmap_2 b_id). apply Hbs; [| exact HV].
  eapply list_elem_of_lookup_2; eauto.
Qed.

Lemma visited_rel_ids (Q : option item -> option item -> Prop) (V : boq_row -> bool)
      (T T' : list boq_row) :
  Forall2 (visited_rel Q V) T T' ->
  map b_id T' = map b_id T /\ map b_company T' = map b_company T.
Proof.
  induction 1 as [|r r' T T' Hr _ [IH1 IH2]]; [now split |].
  simpl. rewrite IH1, IH2. unfold visited_rel in Hr.
  destruct (V r); [destruct Hr as (-> & _ & -> & _) | subst r']; now split.
Qed.

Section for_company_spec.
Context (item_body : jstring -> run_state -> option item
                       -> option (run_state * option item * bool)).
Context (c : jstring).
Context (I P : run_state -> Prop) (Q : option item -> option item -> Prop).
Hypothesis body_fwd : forall s x s' x' ch,
      I s -> item_body c s x = Some (s', x', ch) -> I s'.
Hypothesis body_back : forall s x s' x' ch,
      I s -> item_body c s x = Some (s', x', ch) -> P s' -> P s /\ Q x x'.
Hypothesis body_same : forall s x s' x',
      item_body c s x = Some (s', x', false) -> s' = s /\ x' = x.
Hypothesis body_tbl : forall s x s' x' ch,
      item_body c s x = Some (s', x', ch) -> db_boqs s' = db_boqs s.
Hypothesis I_frame : forall st tbl lg,
      I st -> I (mkRun (mem_units st) (db_units st) tbl lg).
Hypothesis P_frame : forall st tbl lg,
      P (mkRun (mem_units st) (db_units st) tbl lg) -> P st.

Lemma for_company_spec st st' :
    NoDup (map b_id (db_boqs st)) ->
    I (with_units (load_units c (db_units st)) st) ->
    for_company item_body st c = Some st' ->
    I st' /\
    (P st' ->
     P (with_units (load_units c (db_units st)) st) /\
     Forall2 (visited_rel Q (of_company c)) (db_boqs st) (db_boqs st')).
  Proof.
    intros Hnd HI Hrun. unfold for_company in Hrun.
    assert (Hsub : forall b, b ∈ load_boqs c (db_boqs st) ->
                         b ∈ db_boqs st /\ of_company c b = true).
    { intros b Hb. now apply load_boqs_elem. }
    destruct (for_boqs_spec (item_body c) I P Q body_fwd body_back body_same body_tbl
                I_frame P_frame (of_company c) (db_boqs st) (load_boqs c (db_boqs st))
                (with_units (load_units c (db_units st)) st) st'
                Hnd Hsub (load_boqs_NoDup c _ Hnd) HI Hrun) as [HI' Hback].
    split; [exact HI' |]. intros HP. destruct (Hback HP) as [HP0 Hrel].
    split; [exact HP0 |]. apply Hrel. simpl. apply pending_rel_start.
    intros r Hr HV. now apply load_boqs_elem.
  Qed.
End for_company_spec.

(** ** Exceptions *)

Section Exceptions.
Context {folding : CaseFolding}.

Lemma for_each_throws {St A : Type} (body : St -> A -> option (St * A * bool))
      (x : A) (xs : list A) :
  (forall s, body s x = None) -> x ∈ xs -> forall st, for_each body st xs = None.
Proof.
  intros Hx Hin. induction xs as [|y xs IH]; intros st; [inversion Hin |].
  simpl. destruct (body st y) as [[[st1 y'] c1]|] eqn:Hy; [| reflexivity].
  apply elem_of_cons in Hin as [-> | Hin]; [rewrite Hx in Hy; discriminate |].
  now rewrite IH.
Qed.

Section Throws.
Context (item_body : run_state -> option item -> option (run_state * option item * bool)).
Hypothesis body_null : forall s, item_body s None = None.

Lemma for_boq_throws (b : boq_row) :
    has_null_item b -> forall st, for_boq item_body st b = None.
  Proof.
    intros (d & secs & sec & its & Hd & Hsecs & Hsec & Hits & Hnull) st.
    unfold for_boq. rewrite Hd, Hsecs.
    rewrite (for_each_throws (for_section item_body) sec secs); [reflexivity | | exact Hsec].
    intros s. unfold for_section. rewrite Hits.
    now rewrite (for_each_throws item_body None its body_null Hnull).
  Qed.

Lemma for_boqs_throws (b : boq_row) (bs : list boq_row) :
    has_null_item b -> b ∈ bs -> forall st, for_boqs item_body st bs = None.
  Proof.
    intros Hb Hin. induction bs as [|y bs IH]; intros st; [inversion Hin |].
    simpl. destruct (for_boq item_body st y) as [st1|] eqn:Hy; [| reflexivity].
    apply elem_of_cons in Hin as [-> | Hin]; [| auto].
    rewrite for_boq_throws in Hy by exact Hb. discriminate.
  Qed.
End Throws.

Lemma migrate_item_same c s e s' e' :
  migrate_item c s e = Some (s', e', false) -> s' = s /\ e' = e.
Proof.
  unfold migrate_item. destruct e as [it|]; [| discriminate].
  destruct (truthy (it !! "unit_id")); [now intros [= <- <-] |].
  destruct (negb (truthy (js_or (it !! "unit_name") (it !! "unit")))); [now intros [= <- <-] |].
  destruct (js_or (it !! "unit_name") (it !! "unit")) as [[| | |tok]|]; try discriminate.
  destruct (resolve tok (mem_units s)); discriminate.
Qed.

Lemma migrate_item_tbl c s e s' e' ch :
  migrate_item c s e = Some (s', e', ch) -> db_boqs s' = db_boqs s.
Proof.
  unfold migrate_item. destruct e as [it|]; [| discriminate].
  destruct (truthy (it !! "unit_id")); [now intros [= <- _ _] |].
  destruct (negb (truthy (js_or (it !! "unit_name") (it !! "unit")))); [now intros [= <- _ _] |].
  destruct (js_or (it !! "unit_name") (it !! "unit")) as [[| | |tok]|]; try discriminate.
  destruct (resolve tok (mem_units s)); now intros [= <- _ _].
Qed.

Lemma normalize_body_same c s e s' e' :
  normalize_body c s e = Some (s', e', false) -> s' = s /\ e' = e.
Proof.
  unfold normalize_body. destruct e as [it|]; [| discriminate].
  destruct (normalize_item (mem_units s) (Some it)) as [[[it'|] ch]|] eqn:Hn; try discriminate.
  - intros [= <- <- ->]. split; [reflexivity |].
    destruct (normalize_item_cases _ _ _ _ Hn) as [[_ ->] | [? _]]; [reflexivity | discriminate].
  - exfalso. unfold normalize_item in Hn.
    repeat match type of Hn with
           | context [match ?x with _ => _ end] => destruct x
           end; discriminate.
Qed.

(** Rows of other companies are not touched by the pass for a company. *)
Lemma for_company_other (item_body : jstring -> run_state -> option item
                                     -> option (run_state * option item * bool))
      (c : jstring) (st st' : run_state) (b : boq_row) :
  (forall s x s' x', item_body c s x = Some (s', x', false) -> s' = s /\ x' = x) ->
  (forall s x s' x' ch, item_body c s x = Some (s', x', ch) -> db_boqs s' = db_boqs s) ->
  NoDup (map b_id (db_boqs st)) ->
  for_company item_body st c = Some st' ->
  NoDup (map b_id (db_boqs st')) /\
  (b ∈ db_boqs st -> b_company b <> Some c -> b ∈ db_boqs st').
Proof.
  intros Hsame Htbl Hnd Hrun.
  destruct (for_company_spec item_body c (fun _ => True) (fun _ => True) (fun _ _ => True))
    with (st := st) (st' := st') as [_ Hback]; auto.
  destruct (Hback I) as [_ Hrel].
  split.
  - now rewrite (proj1 (visited_rel_ids _ _ _ _ Hrel)).
  - intros Hb Hc. apply list_elem_of_lookup in Hb as [i Hi].
    destruct (Forall2_lookup_l _ _ _ _ _ Hrel Hi) as (b' & Hi' & Hbb).
    unfold visited_rel, of_company in Hbb. rewrite bool_decide_eq_false_2 in Hbb by exact Hc.
    subst b'. eapply list_elem_of_lookup_2; eauto.
Qed.

Lemma for_companies_throws (item_body : jstring -> run_state -> option item
                                        -> option (run_state * option item * bool))
      (c : jstring) (b : boq_row) :
  (forall c s, item_body c s None = None) ->
  (forall c s x s' x', item_body c s x = Some (s', x', false) -> s' = s /\ x' = x) ->
  (forall c s x s' x' ch, item_body c s x = Some (s', x', ch) -> db_boqs s' = db_boqs s) ->
  has_null_item b -> b_company b = Some c ->
  forall cs st, c ∈ cs -> NoDup (map b_id (db_boqs st)) -> b ∈ db_boqs st ->
                for_companies item_body st cs = None.
Proof.
  intros Hnull Hsame Htbl Hb Hbc. induction cs as [|c' cs IH]; intros st Hc Hnd Hin.
  { inversion Hc. }
  simpl. destruct (for_company item_body st c') as [st1|] eqn:Hpass; [| reflexivity].
  destruct (decide (c' = c)) as [-> | Hne].
  - unfold for_company in Hpass.
    rewrite (for_boqs_throws (item_body c) (Hnull c) b) in Hpass; [discriminate | exact Hb |].
    now apply load_boqs_elem, conj, bool_decide_eq_true_2.
  - destruct (for_company_other item_body c' st st1 b (Hsame c') (Htbl c') Hnd Hpass)
      as [Hnd1 Hkeep].
    apply IH; [| exact Hnd1 |].
    + apply elem_of_cons in Hc as [-> | Hc]; [contradiction | exact Hc].
    + apply Hkeep; [exact Hin |]. rewrite Hbc. congruence.
Qed.

(** C10. A [null] entry in the items of a BOQ that a batch process reaches
    makes the process throw instead of skipping the entry: the Migration
    Pipeline and the Normalization Runner throw when the BOQ belongs to a
    company of the run, Cleanup throws for any BOQ; the transaction is rolled
    back and the store is the one before the run. *)
Theorem null_item_aborts_run (s : store) (c : jstring) (b : boq_row) :
  NoDup (map b_id (boqs s)) ->
  b ∈ boqs s ->
  has_null_item b ->
  cleanup s = None /\ run_cleanup s = s /\
  (b_company b = Some c -> c ∈ companies s ->
   migrate s = None /\ run_migration s = s /\
   normalize s = None /\ run_normalization s = s).
Proof.
  intros Hnd Hin Hb.
  assert (Hc : cleanup s = None).
  { unfold cleanup. now rewrite (for_boqs_throws cleanup_body (fun _ => eq_refl) b). }
  split; [exact Hc |]. split; [unfold run_cleanup, after; now rewrite Hc |].
  intros Hbc Hcs.
  assert (Hm : migrate s = None).
  { unfold migrate.
    rewrite (for_companies_throws migrate_item c b); auto.
    - apply migrate_item_same.
    - apply migrate_item_tbl. }
  assert (Hn : normalize s = None).
  { unfold normalize.
    rewrite (for_companies_throws normalize_body c b); auto.
    - apply normalize_body_same.
    - intros c0 s0 x s1 x' ch H. now rewrite (normalize_body_state _ _ _ _ _ _ H). }
  unfold run_migration, run_normalization, after. now rewrite Hm, Hn.
Qed.

End Exceptions.

Section Exceptions_examples.
#[local] Existing Instance ascii_folding.

Lemma null_item_aborts_run_witness :
  cleanup null_store = None /\ migrate null_store = None /\ normalize null_store = None /\
  run_migration null_store = null_store.
Proof.
  destruct (null_item_aborts_run null_store "c1" null_boq) as (Hc & _ & Hrest).
  - apply NoDup_singleton.
  - apply list_elem_of_here.
  - exists (mkData (Some [mkSection None (Some [Some scenario_item; None])])),
      [mkSection None (Some [Some scenario_item; None])],
      (mkSection None (Some [Some scenario_item; None])), [Some scenario_item; None].
    repeat split; [apply list_elem_of_here | apply list_elem_of_further, list_elem_of_here].
  - destruct Hrest as (Hm & Hrm & Hn & _); [reflexivity | apply list_elem_of_here |].
    auto.
Defined.

End Exceptions_examples.

(** ** Migration Pipeline: idempotence *)

Section Quiet.
Context (item_body : run_state -> option item -> option (run_state * option item * bool)).
Context (quiet : option item -> Prop).
Hypothesis body_quiet : forall s e, quiet e -> item_body s e = Some (s, e, false).

Lemma for_items_quiet (its : list (option item)) (st : run_state) :
  Forall quiet its -> for_each item_body st its = Some (st, its, false).
Proof.
  induction 1 as [|e its He _ IH]; simpl; [reflexivity |].
  now rewrite (body_quiet st e He), IH.
Qed.

Lemma for_sections_quiet (secs : list section) (st : run_state) :
  Forall (sec_all quiet) secs ->
  for_each (for_section item_body) st secs = Some (st, secs, false).
Proof.
  induction 1 as [|sec secs Hsec _ IH]; simpl; [reflexivity |].
  unfold for_section at 1. unfold sec_all in Hsec.
  destruct sec as [t [its|]]; simpl in *.
  - now rewrite (for_items_quiet its st Hsec), IH.
  - now rewrite IH.
Qed.

Lemma for_boqs_quiet (bs : list boq_row) (st : run_state) :
  Forall (row_all quiet) bs -> for_boqs item_body st bs = Some st.
Proof.
  induction 1 as [|b bs Hb _ IH]; simpl; [reflexivity |].
  unfold for_boq. unfold row_all in Hb.
  destruct (b_data b) as [d|]; [| exact IH].
  destruct (sections d) as [secs|]; [| exact IH].
  now rewrite (for_sections_quiet secs st Hb).
Qed.
End Quiet.

Section Pipeline.
Context {folding : CaseFolding}.

Lemma migrated_quiet (c : jstring) (s : run_state) (e : option item) :
  migrated e -> migrate_item c s e = Some (s, e, false).
Proof.
  intros (it & -> & H). unfold migrate_item.
  destruct (truthy (it !! "unit_id")); [reflexivity |].
  destruct H as [H | H]; [discriminate |]. now rewrite H.
Qed.

Lemma fresh_uuid_nonempty (tbl : list unit_row) : fresh_uuid tbl <> [].
Proof. unfold fresh_uuid. simpl. discriminate. Qed.

Lemma write_unit_id (m : unit_t) (it : item) :
  write_unit m it !! "unit_id" = Some (JStr (id m)).
Proof.
  unfold write_unit, set_prop, js_or, of_text.
  destruct (truthy _); rewrite !lookup_insert_ne by discriminate; apply lookup_insert_eq.
Qed.

(** The outcomes of the per-item step of the pipeline. *)
Lemma migrate_item_cases (c : jstring) (s s' : run_state) (e e' : option item) (ch : bool) :
  migrate_item c s e = Some (s', e', ch) ->
  exists it, e = Some it /\
    ((ch = false /\ s' = s /\ e' = e /\ migrated e) \/
     (ch = true /\ truthy (it !! "unit_id") = false /\
      exists tok m, js_or (it !! "unit_name") (it !! "unit") = Some (JStr tok) /\ tok <> [] /\
        e' = Some (write_unit m it) /\
        ((resolve tok (mem_units s) = Some m /\ s' = s) \/
         (resolve tok (mem_units s) = None /\
          m = mkUnit (fresh_uuid (db_units s)) tok (Some (make_abbrev tok)) /\
          s' = mkRun (mem_units s ++ [m]) (db_units s ++ [mkUnitRow (Some c) m])
                     (db_boqs s) (log s ++ [InsertUnit (mkUnitRow (Some c) m)]))))).
Proof.
  unfold migrate_item. destruct e as [it|]; [| discriminate].
  intros Hrun. exists it. split; [reflexivity |].
  destruct (truthy (it !! "unit_id")) eqn:Hid.
  { injection Hrun as <- <- <-. left. repeat split. exists it. auto. }
  destruct (truthy (js_or (it !! "unit_name") (it !! "unit"))) eqn:Htok; simpl in Hrun.
  2:{ injection Hrun as <- <- <-. left. repeat split. exists it. auto. }
  destruct (js_or (it !! "unit_name") (it !! "unit")) as [[| | |tok]|]; try discriminate.
  assert (Hne : tok <> []) by now apply str_truthy_nonempty.
  destruct (resolve tok (mem_units s)) as [m|] eqn:Hres.
  - injection Hrun as <- <- <-. right. repeat split. exists tok, m. repeat split; auto.
  - injection Hrun as <- <- <-. right. repeat split.
    exists tok, (mkUnit (fresh_uuid (db_units s)) tok (Some (make_abbrev tok))).
    repeat split; auto.
Qed.

(** Identifiers stay non-empty, and what the step returns is an item the
    pipeline skips. *)
Lemma migrate_item_migrated (c : jstring) (s s' : run_state) (e e' : option item) (ch : bool) :
  ids_ok_state s -> migrate_item c s e = Some (s', e', ch) ->
  ids_ok_state s' /\ migrated e'.
Proof.
  intros [Htbl Hmem] Hrun.
  destruct (migrate_item_cases _ _ _ _ _ _ Hrun)
    as (it & -> & [(-> & -> & -> & Hm) | (-> & Hid & tok & m & Htok & Hne & -> & Hcase)]).
  { now split. }
  assert (Hmig : id m <> [] -> migrated (Some (write_unit m it))).
  { intros Hm. exists (write_unit m it). split; [reflexivity |]. left.
    rewrite write_unit_id. now apply str_truthy_nonempty. }
  destruct Hcase as [[Hres ->] | (Hres & -> & ->)].
  - split; [now split |]. apply Hmig.
    rewrite Forall_forall in Hmem. apply Hmem. now apply resolve_elem in Hres.
  - split; [| now apply Hmig].
    split; simpl; apply Forall_app; split; auto; repeat constructor; discriminate.
Qed.

Lemma load_units_ok (c : jstring) (tbl : list unit_row) :
  unit_ids_ok tbl -> Forall (fun u => id u <> []) (load_units c tbl).
Proof.
  unfold unit_ids_ok, load_units. rewrite !Forall_forall. intros H u Hu.
  apply list_elem_of_fmap in Hu as (r & -> & Hr). apply list_elem_of_filter in Hr as [_ Hr]. auto.
Qed.

Lemma row_rel_all (Q : option item -> option item -> Prop) (Pi : option item -> Prop)
      (r r' : boq_row) :
  (forall e e', Q e e' -> Pi e') -> row_rel Q r r' -> row_all Pi r'.
Proof.
  intros HQ (_ & _ & _ & Hd). unfold row_all.
  destruct Hd as [d d' Hd|]; [| exact I].
  unfold data_rel in Hd. destruct Hd as [secs secs' Hs|]; [| exact I].
  induction Hs as [|sec sec' secs secs' [_ Hsec] _ IH]; constructor; [| exact IH].
  unfold sec_all. destruct Hsec as [its its' Hits|]; [| exact I].
  induction Hits; constructor; eauto.
Qed.

(** After the pass for a company, the rows of the companies already passed
    hold migrated items only. *)
Lemma migrate_company_passed (done : list jstring) (c : jstring) (st st' : run_state) :
  passed done st -> for_company migrate_item st c = Some st' -> passed (c :: done) st'.
Proof.
  intros (Hnd & Hids & Hdone) Hrun.
  destruct (for_company_spec migrate_item c ids_ok_state (fun _ => True)
              (fun _ e' => migrated e')) with (st := st) (st' := st') as [[Hids' _] Hback]; auto.
  - intros s x s' x' ch Hs Hb. now apply (migrate_item_migrated _ _ _ _ _ _ Hs Hb).
  - intros s x s' x' ch Hs Hb _. split; [exact I |].
    now apply (migrate_item_migrated _ _ _ _ _ _ Hs Hb).
  - apply migrate_item_same.
  - apply migrate_item_tbl.
  - split; simpl; [exact Hids | now apply load_units_ok].
  - destruct (Hback I) as [_ Hrel].
    split; [now rewrite (proj1 (visited_rel_ids _ _ _ _ Hrel)) |]. split; [exact Hids' |].
    intros r' c' Hr' Hc' Hco.
    apply list_elem_of_lookup in Hr' as [i Hi].
    destruct (Forall2_lookup_r _ _ _ _ _ Hrel Hi) as (r & Hir & Hrr).
    unfold visited_rel, of_company in Hrr. case_bool_decide as Hrc.
    + eapply row_rel_all; [| exact Hrr]. auto.
    + subst r'. apply elem_of_cons in Hc' as [-> | Hc']; [contradiction |].
      eapply Hdone; eauto. eapply list_elem_of_lookup_2; eauto.
Qed.

Lemma migrate_companies_passed (cs : list jstring) : forall done st st',
  passed done st -> for_companies migrate_item st cs = Some st' ->
  passed (rev cs ++ done) st'.
Proof.
  induction cs as [|c cs IH]; intros done st st' Hp; simpl.
  - now intros [= <-].
  - destruct (for_company migrate_item st c) as [st1|] eqn:Hc; [| discriminate].
    intros Hrun. rewrite <- app_assoc. simpl.
    eapply IH; [| exact Hrun]. eapply migrate_company_passed; eauto.
Qed.

(** A second pass over migrated rows writes nothing. *)
Lemma migrate_companies_quiet (cs : list jstring) : forall st,
  (forall r c, r ∈ db_boqs st -> c ∈ cs -> b_company r = Some c -> row_all migrated r) ->
  exists us, for_companies migrate_item st cs
             = Some (mkRun us (db_units st) (db_boqs st) (log st)).
Proof.
  induction cs as [|c cs IH]; intros st Hall; simpl.
  - exists (mem_units st). now destruct st.
  - unfold for_company.
    rewrite (for_boqs_quiet (migrate_item c) migrated (migrated_quiet c)).
    + destruct (IH (with_units (load_units c (db_units st)) st)) as [us Hus]; [| eauto].
      simpl. intros r c' Hr Hc'. apply Hall; [exact Hr | now apply elem_of_cons; right].
    + apply Forall_forall. intros r Hr. apply load_boqs_elem in Hr as [Hr Hc].
      apply bool_decide_eq_true in Hc. apply (Hall r c); [exact Hr | | exact Hc].
      now apply elem_of_cons; left.
Qed.

(** C3. On a store whose BOQs have distinct primary keys and whose units
    have non-empty identifiers, a committed run of the Migration Pipeline is
    followed by a run that commits the same units table and the same BOQ
    documents without issuing a single INSERT or UPDATE; and running the
    pipeline twice leaves the store that running it once leaves. *)
Theorem migration_idempotent (s : store) :
  NoDup (map b_id (boqs s)) ->
  unit_ids_ok (units s) ->
  (forall s1 lg, migrate s = Some (s1, lg) -> migrate s1 = Some (s1, [])) /\
  run_migration (run_migration s) = run_migration s.
Proof.
  intros Hnd Hids.
  assert (Hcommit : forall s1 lg, migrate s = Some (s1, lg) -> migrate s1 = Some (s1, [])).
  { intros s1 lg Hrun. unfold migrate in Hrun.
    destruct (for_companies migrate_item (begin s) (companies s)) as [st|] eqn:Hloop;
      [| discriminate].
    injection Hrun as <- <-.
    destruct (migrate_companies_passed (companies s) [] (begin s) st) as (_ & _ & Hall);
      [| exact Hloop |].
    { split; [exact Hnd |]. split; [exact Hids |]. intros r c _ Hc. inversion Hc. }
    unfold migrate. simpl.
    destruct (migrate_companies_quiet (companies s) (begin (commit s st))) as [us ->].
    - simpl. intros r c Hr Hc. apply Hall; [exact Hr |].
      rewrite app_nil_r. apply list_elem_of_In, in_rev. rewrite rev_involutive.
      now apply list_elem_of_In.
    - reflexivity. }
  split; [exact Hcommit |].
  unfold run_migration, after.
  destruct (migrate s) as [[s1 lg]|] eqn:Hrun.
  - now rewrite (Hcommit s1 lg eq_refl).
  - now rewrite Hrun.
Qed.

End Pipeline.

Section Pipeline_examples.
#[local] Existing Instance ascii_folding.

Lemma migration_idempotent_witness :
  migrate (run_migration scenario_store) = Some (run_migration scenario_store, []) /\
  run_migration (run_migration scenario_store) = run_migration scenario_store.
Proof.
  destruct (migration_idempotent scenario_store) as [Hcommit Htwice].
  - apply NoDup_singleton.
  - constructor.
  - split; [| exact Htwice].
    destruct (migrate scenario_store) as [[s1 lg]|] eqn:Hrun; [| vm_compute in Hrun; discriminate].
    unfold run_migration, after. rewrite Hrun. now apply (Hcommit s1 lg).
Defined.

End Pipeline_examples.

(** ** Company isolation *)

Lemma row_rel_refl (Q : option item -> option item -> Prop) (r : boq_row) :
  (forall e, Q e e) -> row_rel Q r r.
Proof.
  intros HQ. repeat split.
  destruct (b_data r) as [d|]; constructor.
  unfold data_rel. destruct (sections d) as [secs|]; constructor.
  apply Forall_Forall2_diag, Forall_forall. intros sec _. split; [reflexivity |].
  destruct (items sec) as [its|]; constructor.
  apply Forall_Forall2_diag, Forall_forall. auto.
Qed.

Lemma Forall2_compose {A : Type} (R1 R2 R3 : A -> A -> Prop) (l1 l2 l3 : list A) :
  (forall x y z, R1 x y -> R2 y z -> R3 x z) ->
  Forall2 R1 l1 l2 -> Forall2 R2 l2 l3 -> Forall2 R3 l1 l3.
Proof.
  intros HR H12. revert l3. induction H12; intros l3 H23; inversion H23; subst;
    constructor; eauto.
Qed.

Lemma rel_item_at (R : boq_row -> boq_row -> Prop) (Q : option item -> option item -> Prop)
      (tbl tbl' : list boq_row) (i j k : nat) (b : boq_row) (e : option item) :
  Forall2 R tbl tbl' ->
  tbl !! i = Some b ->
  (forall b', R b b' -> row_rel Q b b') ->
  item_at tbl i j k = Some e ->
  exists e', item_at tbl' i j k = Some e' /\ Q e e'.
Proof.
  intros HF Hb HR Hat. unfold item_at in *. rewrite Hb in Hat.
  destruct (Forall2_lookup_l _ _ _ _ _ HF Hb) as (b' & -> & Hrel).
  destruct (HR _ Hrel) as (_ & _ & _ & Hd).
  destruct Hd as [d d' Hd|]; [| discriminate].
  unfold data_rel in Hd. destruct Hd as [secs secs' Hs|]; [| discriminate].
  destruct (secs !! j) as [sec|] eqn:Hsec; [| discriminate].
  destruct (Forall2_lookup_l _ _ _ _ _ Hs Hsec) as (sec' & -> & _ & Hits).
  destruct Hits as [its its' Hits|]; [| discriminate].
  destruct (Forall2_lookup_l _ _ _ _ _ Hits Hat) as (e' & -> & HQ).
  eauto.
Qed.

(** The passes of a run whose companies are distinct: the rows of a company
    are visited in the pass for that company and in no other. *)
Section for_companies_once.
Context (item_body : jstring -> run_state -> option item
                     -> option (run_state * option item * bool)).
Context (I : jstring -> run_state -> Prop) (P : run_state -> Prop).
Context (Q : jstring -> option item -> option item -> Prop).
Hypothesis body_fwd : forall c s x s' x' ch,
    I c s -> item_body c s x = Some (s', x', ch) -> I c s'.
Hypothesis body_back : forall c s x s' x' ch,
    I c s -> item_body c s x = Some (s', x', ch) -> P s' -> P s /\ Q c x x'.
Hypothesis body_same : forall c s x s' x',
    item_body c s x = Some (s', x', false) -> s' = s /\ x' = x.
Hypothesis body_tbl : forall c s x s' x' ch,
    item_body c s x = Some (s', x', ch) -> db_boqs s' = db_boqs s.
Hypothesis I_frame : forall c st tbl lg,
    I c st -> I c (mkRun (mem_units st) (db_units st) tbl lg).
Hypothesis I_load : forall c st, I c (with_units (load_units c (db_units st)) st).
Hypothesis P_units : forall st st', db_units st = db_units st' -> P st -> P st'.

Lemma co_rel_step (c : jstring) (cs : list jstring) (r r1 r' : boq_row) :
  c ∉ cs ->
  visited_rel (Q c) (of_company c) r r1 -> co_rel cs Q r1 r' -> co_rel (c :: cs) Q r r'.
Proof.
  unfold visited_rel, of_company, co_rel. intros Hc Hv Hr.
  destruct (decide (b_company r = Some c)) as [Hrc | Hrc].
  - rewrite (bool_decide_eq_true_2 _ Hrc) in Hv.
    assert (Hc1 : b_company r1 = Some c) by (destruct Hv as (_ & _ & -> & _); exact Hrc).
    rewrite Hc1, (bool_decide_eq_false_2 _ Hc) in Hr. subst r'.
    rewrite Hrc, bool_decide_eq_true_2; [exact Hv | apply list_elem_of_here].
  - rewrite (bool_decide_eq_false_2 _ Hrc) in Hv. subst r1.
    destruct (b_company r) as [d|]; [| exact Hr].
    destruct (decide (d ∈ cs)) as [Hd | Hd].
    + rewrite (bool_decide_eq_true_2 _ Hd) in Hr.
      rewrite bool_decide_eq_true_2; [exact Hr | now apply list_elem_of_further].
    + rewrite (bool_decide_eq_false_2 _ Hd) in Hr.
      rewrite bool_decide_eq_false_2; [exact Hr |].
      intros Hin. apply elem_of_cons in Hin as [-> | Hin]; [now apply Hrc | now apply Hd].
Qed.

Lemma for_companies_once (cs : list jstring) : forall st st',
  NoDup cs ->
  NoDup (map b_id (db_boqs st)) ->
  for_companies item_body st cs = Some st' ->
  P st' ->
  P st /\ Forall2 (co_rel cs Q) (db_boqs st) (db_boqs st').
Proof.
  induction cs as [|c cs IH]; intros st st' Hcs Hnd; simpl.
  - intros [= <-] HP. split; [exact HP |].
    apply Forall_Forall2_diag, Forall_forall. intros r _. unfold co_rel.
    destruct (b_company r); [| reflexivity].
    rewrite bool_decide_eq_false_2; [reflexivity | apply not_elem_of_nil].
  - destruct (for_company item_body st c) as [st1|] eqn:Hc; [| discriminate].
    intros Hrun HP. apply NoDup_cons in Hcs as [Hfresh Hcs].
    destruct (for_company_other item_body c st st1 (mkBoq [] None None None)
                (body_same c) (body_tbl c) Hnd Hc) as [Hnd1 _].
    destruct (IH _ _ Hcs Hnd1 Hrun HP) as [HP1 Hrel1].
    destruct (for_company_spec item_body c (I c) P (Q c) (body_fwd c) (body_back c)
                (body_same c) (body_tbl c) (I_frame c)
                (fun st0 tbl lg => P_units (mkRun (mem_units st0) (db_units st0) tbl lg) st0 eq_refl)
                st st1 Hnd (I_load c st) Hc)
      as [_ Hback].
    destruct (Hback HP1) as [HP0 Hrel0].
    split; [exact (P_units (with_units (load_units c (db_units st)) st) st eq_refl HP0) |].
    eapply Forall2_compose; [| exact Hrel0 | exact Hrel1].
    intros x y z. now apply co_rel_step.
Qed.
End for_companies_once.

Section Isolation.
Context {folding : CaseFolding}.

Lemma load_units_own (c : jstring) (tbl : list unit_row) (u : unit_t) :
  u ∈ load_units c tbl -> mkUnitRow (Some c) u ∈ tbl.
Proof.
  unfold load_units. intros Hu. apply list_elem_of_fmap in Hu as ([co u'] & -> & Hr).
  apply list_elem_of_filter in Hr as [Hc Hr]. simpl in *. now subst co.
Qed.

Lemma write_unit_lookups (m : unit_t) (it : item) :
  write_unit m it !! "unit_id" = Some (JStr (id m)) /\
  write_unit m it !! "unit_name" = Some (JStr (name m)) /\
  write_unit m it !! "unit_abbreviation" = js_or (of_text (abbreviation m)) (Some JNull) /\
  write_unit m it !! "unit_abbreviation" =
    Some (match abbreviation m with
          | Some a => if str_truthy a then JStr a else JNull
          | None => JNull
          end) /\
  (forall k, k <> "unit_id" -> k <> "unit_name" -> k <> "unit_abbreviation" ->
             write_unit m it !! k = it !! k).
Proof.
  unfold write_unit, set_prop, js_or, of_text.
  destruct (abbreviation m) as [a|]; simpl; [destruct (str_truthy a) |];
    (split; [| split; [| split; [| split]]]);
    try (intros k H1 H2 H3; now rewrite !lookup_insert_ne by congruence);
    rewrite ?lookup_insert_eq; try reflexivity;
    rewrite lookup_insert_ne by discriminate;
    rewrite ?lookup_insert_eq; try reflexivity;
    rewrite lookup_insert_ne by discriminate; apply lookup_insert_eq.
Qed.

Lemma js_or_cases (a b v : jsval) : js_or a b = v -> a = v \/ b = v.
Proof. unfold js_or. destruct (truthy a); auto. Qed.

(** The pipeline writes an item from the unit it resolved or created for the
    item's token. *)
Lemma migrate_item_written (c : jstring) (s s' : run_state) (it : item) (e' : option item) :
  migrate_item c s (Some it) = Some (s', e', true) ->
  exists m, m ∈ mem_units s' /\ e' = Some (write_unit m it) /\
            written_from m it (write_unit m it).
Proof.
  intros Hrun.
  destruct (migrate_item_cases _ _ _ _ _ _ Hrun)
    as (it0 & [= <-] & [(Hf & _) | (_ & Hid & tok & m & Htok & Hne & -> & Hcase)]);
    [discriminate |].
  exists m.
  assert (Hm : m ∈ mem_units s' /\ (name_ci tok m \/ abbr_ci tok m)).
  { destruct Hcase as [[Hres ->] | (_ & -> & ->)].
    - now apply resolve_matches.
    - simpl. split; [apply elem_of_app; right; apply list_elem_of_here |].
      left. split; [exact Hne | apply ci_eq_refl]. }
  destruct Hm as [Hin Hmatch]. split; [exact Hin |]. split; [reflexivity |].
  destruct (write_unit_lookups m it) as (H1 & H2 & H3 & _ & H4).
  split; [| auto].
  right. exists tok. split; [| exact Hmatch].
  destruct (js_or_cases _ _ _ Htok); auto.
Qed.

Lemma migrate_item_iso (T : list unit_row) (c : jstring) (s s' : run_state)
      (e e' : option item) (ch : bool) :
  own_units c s -> migrate_item c s e = Some (s', e', ch) ->
  own_units c s' /\ (units_within T s' -> units_within T s /\ iso_rel T c e e').
Proof.
  intros Hown Hrun.
  assert (Hown' : own_units c s' /\ (units_within T s' -> units_within T s)).
  { destruct (migrate_item_cases _ _ _ _ _ _ Hrun)
      as (it & -> & [(-> & -> & -> & Hm) | (-> & Hid & tok & m & Htok & Hne & -> & Hcase)]);
      [now split |].
    destruct Hcase as [[Hres ->] | (Hres & Hm & ->)]; [now split |]. split.
    - intros u Hu. simpl in *. apply elem_of_app in Hu as [Hu | Hu].
      + apply elem_of_app. left. now apply Hown.
      + apply list_elem_of_singleton in Hu as ->. apply elem_of_app. right.
        apply list_elem_of_here.
    - intros HP r Hr. apply HP. simpl. apply elem_of_app. now left. }
  destruct Hown' as [Hown' Hback]. split; [exact Hown' |].
  intros HP. split; [now apply Hback |].
  destruct ch.
  - destruct e as [it|]; [| discriminate].
    destruct (migrate_item_written _ _ _ _ _ Hrun) as (m & Hin & -> & Hw).
    right. exists it, (write_unit m it). repeat split. right. exists m.
    split; [apply HP, Hown', Hin | exact Hw].
  - left. now apply migrate_item_same in Hrun.
Qed.

(** The runner writes an item from the unit of the list it found for it. *)
Lemma normalize_item_written (us : list unit_t) (it it' : item) :
  normalize_item us (Some it) = Some (Some it', true) ->
  exists u, u ∈ us /\ written_from u it it'.
Proof.
  intros Hrun.
  destruct (normalize_item_cases _ _ _ _ Hrun)
    as [[Hf _] | (_ & Hab & u & j & Hin & Hj & Hcase)]; [discriminate |].
  exists u. split; [exact Hin |]. unfold written_from, refers_to. rewrite Hj.
  destruct Hcase as [(Hid & Hf & ->) | [(Hid & tok & Htok & Hm & ->) | (Hid & Hn & tok & Htok & Hm & ->)]].
  - apply find_some_elem in Hf as [_ Hf]. apply id_is_true in Hf.
    split; [now left |].
    rewrite !(lookup_insert_ne _ _ "unit_id") by discriminate.
    rewrite lookup_insert_eq, lookup_insert_ne by discriminate. rewrite lookup_insert_eq.
    repeat split; auto.
    intros k H1 H2 H3. now rewrite !lookup_insert_ne by congruence.
  - apply name_matches_spec in Hm.
    split; [right; exists tok; auto |].
    rewrite lookup_insert_ne by discriminate. rewrite !lookup_insert_eq.
    rewrite !(lookup_insert_ne _ _ "unit_name") by discriminate.
    repeat split; auto.
    intros k H1 H2 H3. now rewrite !lookup_insert_ne by congruence.
  - apply name_or_abbr_matches_spec in Hm.
    split; [right; exists tok; auto |].
    rewrite !(lookup_insert_ne _ _ "unit_id") by discriminate.
    rewrite !lookup_insert_eq, lookup_insert_ne by discriminate. rewrite lookup_insert_eq.
    repeat split; auto.
    intros k H1 H2 H3. now rewrite !lookup_insert_ne by congruence.
Qed.

Lemma normalize_body_iso (T : list unit_row) (c : jstring) (s s' : run_state)
      (e e' : option item) (ch : bool) :
  own_units c s -> normalize_body c s e = Some (s', e', ch) ->
  own_units c s' /\ (units_within T s' -> units_within T s /\ iso_rel T c e e').
Proof.
  intros Hown Hrun. pose proof (normalize_body_state _ _ _ _ _ _ Hrun) as ->.
  split; [exact Hown |]. intros HP. split; [exact HP |].
  destruct ch; [| left; now apply normalize_body_same in Hrun].
  unfold normalize_body in Hrun.
  destruct e as [it|]; [| discriminate].
  destruct (normalize_item (mem_units s) (Some it)) as [[[it'|] ch']|] eqn:Hn; try discriminate.
  2:{ exfalso. unfold normalize_item in Hn.
      repeat match type of Hn with
             | context [match ?x with _ => _ end] => destruct x
             end; discriminate. }
  injection Hrun as <- ->.
  destruct (normalize_item_written _ _ _ Hn) as (u & Hin & Hw).
  right. exists it, it'. repeat split. right. exists u.
  split; [apply HP, Hown, Hin | exact Hw].
Qed.

(** Primary keys of the units table stay distinct: a generated identifier is
    longer than every identifier in use. *)
Lemma fresh_uuid_longer (tbl : list unit_row) (r : unit_row) :
  r ∈ tbl -> length (id (ur_unit r)) < length (fresh_uuid tbl).
Proof.
  unfold fresh_uuid. rewrite length_app. simpl.
  induction tbl as [|x tbl IH]; intros Hr; [inversion Hr |].
  simpl. rewrite length_app.
  apply elem_of_cons in Hr as [-> | Hr]; [lia |]. specialize (IH Hr). lia.
Qed.

Lemma fresh_uuid_fresh (tbl : list unit_row) :
  fresh_uuid tbl ∉ map (fun r => id (ur_unit r)) tbl.
Proof.
  intros Hin. apply list_elem_of_fmap in Hin as (r & Heq & Hr).
  apply fresh_uuid_longer in Hr. rewrite <- Heq in Hr. lia.
Qed.

Lemma migrate_item_unit_keys (c : jstring) (s s' : run_state) (e e' : option item) (ch : bool) :
  NoDup (map (fun r => id (ur_unit r)) (db_units s)) ->
  migrate_item c s e = Some (s', e', ch) ->
  NoDup (map (fun r => id (ur_unit r)) (db_units s')).
Proof.
  intros Hnd Hrun.
  destruct (migrate_item_cases _ _ _ _ _ _ Hrun)
    as (it & -> & [(-> & -> & -> & Hm) | (-> & Hid & tok & m & Htok & Hne & -> & Hcase)]);
    [exact Hnd |].
  destruct Hcase as [[_ ->] | (_ & -> & ->)]; [exact Hnd |].
  simpl. rewrite map_app. simpl. apply NoDup_app. split; [exact Hnd |]. split.
  - intros x Hx Hx'. apply list_elem_of_singleton in Hx'. subst x.
    now apply fresh_uuid_fresh in Hx.
  - apply NoDup_singleton.
Qed.

Lemma migrate_unit_keys (cs : list jstring) : forall st st',
  NoDup (map (fun r => id (ur_unit r)) (db_units st)) ->
  for_companies migrate_item st cs = Some st' ->
  NoDup (map (fun r => id (ur_unit r)) (db_units st')).
Proof.
  induction cs as [|c cs IH]; intros st st' Hnd; simpl.
  - now intros [= <-].
  - destruct (for_company migrate_item st c) as [st1|] eqn:Hc; [| discriminate].
    apply IH. unfold for_company in Hc.
    eapply (for_boqs_inv (migrate_item c)
              (fun st => NoDup (map (fun r => id (ur_unit r)) (db_units st))));
      [| | | exact Hc]; auto.
    intros s x s' x' ch Hs Hb. eapply migrate_item_unit_keys; eauto.
Qed.

Lemma unit_key_company (T : list unit_row) (c : jstring) (u : unit_t) (r : unit_row) :
  NoDup (map (fun r => id (ur_unit r)) T) ->
  mkUnitRow (Some c) u ∈ T -> r ∈ T -> id (ur_unit r) = id u -> ur_company r = Some c.
Proof.
  intros Hnd Hu Hr Hid.
  now rewrite (NoDup_map_eq (fun r => id (ur_unit r)) T r (mkUnitRow (Some c) u) Hnd Hr Hu Hid).
Qed.

Lemma isolation_of_run (item_body : jstring -> run_state -> option item
                                    -> option (run_state * option item * bool))
      (s : store) (st : run_state) :
  (forall T c s0 s1 e e' ch, own_units c s0 -> item_body c s0 e = Some (s1, e', ch) ->
     own_units c s1 /\ (units_within T s1 -> units_within T s0 /\ iso_rel T c e e')) ->
  (forall c s0 x s1 x', item_body c s0 x = Some (s1, x', false) -> s1 = s0 /\ x' = x) ->
  (forall c s0 x s1 x' ch, item_body c s0 x = Some (s1, x', ch) -> db_boqs s1 = db_boqs s0) ->
  NoDup (companies s) ->
  NoDup (map b_id (boqs s)) ->
  for_companies item_body (begin s) (companies s) = Some st ->
  forall i j k b it,
    boqs s !! i = Some b -> item_at (boqs s) i j k = Some (Some it) ->
    exists it', item_at (db_boqs st) i j k = Some (Some it') /\
      (it' = it \/
       exists c u, b_company b = Some c /\ mkUnitRow (Some c) u ∈ db_units st /\
                   written_from u it it').
Proof.
  intros Hiso Hsame Htbl Hcs Hnd Hrun i j k b it Hb Hat.
  destruct (for_companies_once item_body own_units (units_within (db_units st))
              (iso_rel (db_units st))) with (cs := companies s) (st := begin s) (st' := st)
    as [_ Hrel]; auto.
  - intros c s0 x s1 x' ch Hs Hx. now apply (Hiso (db_units st)) in Hx.
  - intros c s0 x s1 x' ch Hs Hx. now apply (Hiso (db_units st)) in Hx.
  - intros c st0 u Hu. now apply load_units_own.
  - intros st0 st1 Heq HP r Hr. apply HP. now rewrite Heq.
  - now intros r Hr.
  - simpl in Hrel.
    assert (Hsame_row : forall b', b' = b -> row_rel (fun e e' => e' = e) b b').
    { intros b' ->. now apply row_rel_refl. }
    destruct (b_company b) as [c|] eqn:Hc.
    + destruct (decide (c ∈ companies s)) as [Hin | Hout].
      * assert (HR : forall b', co_rel (companies s) (iso_rel (db_units st)) b b' ->
                                row_rel (iso_rel (db_units st) c) b b').
        { intros b'. unfold co_rel. now rewrite Hc, bool_decide_eq_true_2. }
        destruct (rel_item_at _ _ _ _ i j k b (Some it) Hrel Hb HR Hat)
          as (e' & Hat' & [-> | (it0 & it' & [= <-] & -> & Hown)]).
        -- exists it. auto.
        -- exists it'. split; [exact Hat' |].
           destruct Hown as [-> | (u & Hu & Hw)]; [now left | right; eauto].
      * assert (HR : forall b', co_rel (companies s) (iso_rel (db_units st)) b b' ->
                                row_rel (fun e e' => e' = e) b b').
        { intros b'. unfold co_rel. rewrite Hc, bool_decide_eq_false_2 by exact Hout.
          apply Hsame_row. }
        destruct (rel_item_at _ _ _ _ i j k b (Some it) Hrel Hb HR Hat) as (e' & Hat' & ->).
        exists it. auto.
    + assert (HR : forall b', co_rel (companies s) (iso_rel (db_units st)) b b' ->
                              row_rel (fun e e' => e' = e) b b').
      { intros b'. unfold co_rel. rewrite Hc. apply Hsame_row. }
      destruct (rel_item_at _ _ _ _ i j k b (Some it) Hrel Hb HR Hat) as (e' & Hat' & ->).
      exists it. auto.
Qed.

(** C9. In a committed run of the Migration Pipeline or of the Normalization
    Runner, over distinct companies, every item is left as it is or is
    written from one unit that the units table holds for the company of the
    item's BOQ: the item referred to that unit (by [unit_id], or by a token
    matching its name or abbreviation), [unit_id] becomes its identifier, and
    the [unit_name] and [unit_abbreviation] written are its name and
    abbreviation.  The primary keys being distinct, that identifier belongs
    to no unit of another company. *)
Theorem company_isolation (s s' : store) (lg : list stmt) :
  NoDup (companies s) ->
  NoDup (map b_id (boqs s)) ->
  NoDup (map (fun r => id (ur_unit r)) (units s)) ->
  migrate s = Some (s', lg) \/ normalize s = Some (s', lg) ->
  forall i j k b it,
    boqs s !! i = Some b -> item_at (boqs s) i j k = Some (Some it) ->
    exists it', item_at (boqs s') i j k = Some (Some it') /\
      (it' = it \/
       exists c u, b_company b = Some c /\ mkUnitRow (Some c) u ∈ units s' /\
                   written_from u it it' /\
                   forall r, r ∈ units s' -> id (ur_unit r) = id u -> ur_company r = Some c).
Proof.
  intros Hcs Hnd Hkeys Hrun i j k b it Hb Hat.
  assert (Hgoal : exists st,
             db_boqs st = boqs s' /\ db_units st = units s' /\
             NoDup (map (fun r => id (ur_unit r)) (db_units st)) /\
             exists it', item_at (db_boqs st) i j k = Some (Some it') /\
               (it' = it \/
                exists c u, b_company b = Some c /\ mkUnitRow (Some c) u ∈ db_units st /\
                            written_from u it it')).
  { destruct Hrun as [Hrun | Hrun].
    - unfold migrate in Hrun.
      destruct (for_companies migrate_item (begin s) (companies s)) as [st|] eqn:Hloop;
        [| discriminate].
      injection Hrun as <- <-. exists st. repeat split.
      + eapply migrate_unit_keys; [| exact Hloop]. exact Hkeys.
      + eapply (isolation_of_run migrate_item s st); eauto.
        * intros T c. apply migrate_item_iso.
        * apply migrate_item_same.
        * apply migrate_item_tbl.
    - pose proof (normalize_units _ _ _ Hrun) as Hu. unfold normalize in Hrun.
      destruct (for_companies normalize_body (begin s) (companies s)) as [st|] eqn:Hloop;
        [| discriminate].
      injection Hrun as <- <-. simpl in Hu. exists st. repeat split.
      + now rewrite Hu.
      + eapply (isolation_of_run normalize_body s st); eauto.
        * intros T c. apply normalize_body_iso.
        * apply normalize_body_same.
        * intros c s0 x s1 x' ch H. now rewrite (normalize_body_state _ _ _ _ _ _ H). }
  destruct Hgoal as (st & <- & <- & Hnd' & it' & Hat' & Hid).
  exists it'. split; [exact Hat' |].
  destruct Hid as [Hid | (c & u & Hc & Hu & Hw)]; [now left | right].
  exists c, u. split; [exact Hc |]. split; [exact Hu |]. split; [exact Hw |].
  intros r Hr Hrid. eapply unit_key_company; eauto.
Qed.

End Isolation.

Section Isolation_examples.
#[local] Existing Instance ascii_folding.

(** Two companies with a unit of the same name: each item gets the unit of
    its own company. *)
Lemma company_isolation_witness :
  let s' := run_migration collide_store in
  exists lg, migrate collide_store = Some (s', lg) /\
    exists ita itb,
      item_at (boqs s') 0 0 0 = Some (Some ita) /\
      item_at (boqs s') 1 0 0 = Some (Some itb) /\
      ita !! "unit_id" = Some (JStr "ua") /\ itb !! "unit_id" = Some (JStr "ub") /\
      ita <> {["unit" := JStr "kg"]} /\
      (exists u, mkUnitRow (Some (js "A")) u ∈ units s' /\
                 written_from u {["unit" := JStr "kg"]} ita).
Proof.
  intros s'.
  assert (Hsome : match migrate collide_store with Some _ => True | None => False end)
    by (vm_compute; exact I).
  destruct (migrate collide_store) as [[s1 lg]|] eqn:Hrun; [| contradiction].
  assert (Hs : s' = s1) by (unfold s', run_migration, after; now rewrite Hrun).
  exists lg. split; [now rewrite Hs |].
  set (ua := mkUnit "ua" "kg" (Some (js "kg"))).
  set (ub := mkUnit "ub" "kg" (Some (js "KG"))).
  set (it := ({["unit" := JStr "kg"]} : item)).
  assert (Ha : item_at (boqs s') 0 0 0 = Some (Some (write_unit ua it)))
    by (vm_compute; reflexivity).
  assert (Hb : item_at (boqs s') 1 0 0 = Some (Some (write_unit ub it)))
    by (vm_compute; reflexivity).
  exists (write_unit ua it), (write_unit ub it).
  split; [exact Ha |]. split; [exact Hb |].
  split; [apply write_unit_id |]. split; [apply write_unit_id |].
  assert (Hne : write_unit ua it <> it).
  { intros Heq. assert (H : write_unit ua it !! "unit_id" = it !! "unit_id") by now rewrite Heq.
    rewrite write_unit_id in H. discriminate. }
  split; [exact Hne |].
  assert (Hcs : NoDup (companies collide_store))
    by (apply (bool_decide_unpack _); vm_compute; exact I).
  assert (Hnd : NoDup (map b_id (boqs collide_store)))
    by (apply (bool_decide_unpack _); vm_compute; exact I).
  assert (Hkeys : NoDup (map (fun r => id (ur_unit r)) (units collide_store)))
    by (apply (bool_decide_unpack _); vm_compute; exact I).
  destruct (company_isolation collide_store s1 lg Hcs Hnd Hkeys (or_introl Hrun)
              0 0 0 _ it eq_refl eq_refl) as (ita & Hat & Hcase).
  rewrite <- Hs, Ha in Hat. injection Hat as <-.
  destruct Hcase as [Heq | (c & u & Hc & Hu & Hw & _)]; [contradiction |].
  injection Hc as <-. exists u. rewrite Hs. auto.
Defined.

End Isolation_examples.

(** * Further properties of the batch processes *)

(** ** Migration Pipeline: what a run writes *)

Section Pipeline_writes.
Context {folding : CaseFolding}.

(** X3.  Tokens that are equal case-insensitively share one unit: once the
    pipeline has created a unit for a token that matched nothing, a later item
    of the same run whose non-empty token has the same lower-casing inserts
    nothing and is written with that unit, so its [unit_name] becomes the
    spelling met first. *)
Theorem case_variants_share_unit (c tok tok' : jstring) (st st' : run_state)
        (it it1 it2 : item) :
  tok <> [] ->
  truthy (it !! "unit_id") = false ->
  token_of it = Some (JStr tok) ->
  resolve tok (mem_units st) = None ->
  migrate_item c st (Some it) = Some (st', Some it1, true) ->
  tok' <> [] ->
  ci_eq tok' tok ->
  truthy (it2 !! "unit_id") = false ->
  token_of it2 = Some (JStr tok') ->
  exists it2',
    migrate_item c st' (Some it2) = Some (st', Some it2', true) /\
    it2' !! "unit_id" = it1 !! "unit_id" /\
    it2' !! "unit_name" = Some (JStr tok).
Proof.
  intros Htok Hid Htk Hres Hrun Htok' Hci Hid2 Htk2. unfold token_of in *.
  destruct (migrate_item_cases _ _ _ _ _ _ Hrun)
    as (it0 & [= <-] & [(Hf & _) | (_ & _ & tk & m & Htk' & _ & [= ->] & Hcase)]);
    [discriminate |].
  assert (tk = tok) as -> by congruence.
  destruct Hcase as [[Hres' _] | (_ & -> & ->)]; [congruence |].
  set (m := mkUnit (fresh_uuid (db_units st)) tok (Some (make_abbrev tok))).
  assert (Hnew : resolve tok' (mem_units st ++ [m]) = Some m).
  { rewrite (resolve_ci tok tok' _ Hci). now apply resolve_app_new. }
  exists (write_unit m it2). split; [| split].
  - unfold migrate_item. rewrite Hid2, Htk2.
    assert (Htr : truthy (Some (JStr tok')) = true) by now apply str_truthy_nonempty.
    rewrite Htr. simpl. fold m. now rewrite Hnew.
  - now rewrite !write_unit_id.
  - now destruct (write_unit_lookups m it2) as (_ & -> & _).
Qed.

End Pipeline_writes.

Section Pipeline_writes_examples.
#[local] Existing Instance ascii_folding.

Lemma case_variants_share_unit_witness :
  exists st' it1 it2',
    migrate_item "c1" (mkRun [] [] [] []) (Some {["unit" := JStr "KG"]})
    = Some (st', Some it1, true) /\
    migrate_item "c1" st' (Some {["unit_name" := JStr "kg"]}) = Some (st', Some it2', true) /\
    it2' !! "unit_id" = it1 !! "unit_id" /\ it2' !! "unit_name" = Some (JStr "KG").
Proof.
  assert (Hrun : { p | migrate_item "c1" (mkRun [] [] [] []) (Some {["unit" := JStr "KG"]})
                       = Some (fst p, Some (snd p), true) }).
  { eexists (_, _). reflexivity. }
  destruct Hrun as [[st' it1] Hrun]. simpl in Hrun.
  destruct (case_variants_share_unit "c1" "KG" "kg" (mkRun [] [] [] []) st'
              {["unit" := JStr "KG"]} it1 {["unit_name" := JStr "kg"]})
    as (it2' & H1 & H2 & H3); try reflexivity; try discriminate; [exact Hrun |].
  exists st', it1, it2'. auto.
Defined.

End Pipeline_writes_examples.

Section Run_invariants.
Context {folding : CaseFolding}.

(** ** Invariants of a whole run *)

Section for_boqs_inv_upd.
Context (item_body : run_state -> option item -> option (run_state * option item * bool)).
Context (I : run_state -> Prop).
Hypothesis body_fwd : forall s x s' x' ch,
    I s -> item_body s x = Some (s', x', ch) -> I s'.
Hypothesis I_update : forall st bid d,
    I st -> I (mkRun (mem_units st) (db_units st) (update_boq bid d (db_boqs st))
                     (log st ++ [UpdateBoq bid d])).

Lemma for_boq_inv_upd st b st' : I st -> for_boq item_body st b = Some st' -> I st'.
Proof.
  intros HI. unfold for_boq.
  destruct (b_data b) as [d|]; [| now intros [= <-]].
  destruct (sections d) as [secs|]; [| now intros [= <-]].
  destruct (for_each (for_section item_body) st secs) as [[[st2 secs2] ch]|] eqn:Hsec;
    [| discriminate].
  assert (HI2 : I st2).
  { refine (proj1 (for_each_spec (for_section item_body) I (fun _ => True)
                     (fun _ _ => True) _ _ secs _ _ _ _ HI Hsec)); [| now intros].
    intros s x s' x' c' Hs. unfold for_section. destruct (items x) as [its|].
    - destruct (for_each item_body s its) as [[[s1 its1] c1]|] eqn:Hr; [| discriminate].
      intros [= <- <- <-].
      refine (proj1 (for_each_spec item_body I (fun _ => True) (fun _ _ => True)
                       body_fwd _ its _ _ _ _ Hs Hr)). now intros.
    - now intros [= <- <- <-]. }
  destruct ch; intros [= <-]; auto.
Qed.

Lemma for_boqs_inv_upd bs : forall st st',
    I st -> for_boqs item_body st bs = Some st' -> I st'.
Proof.
  induction bs as [|b bs IH]; intros st st' HI; simpl.
  - now intros [= <-].
  - destruct (for_boq item_body st b) as [st1|] eqn:Hb; [| discriminate].
    intros Hrun. eapply IH; [| exact Hrun]. eapply for_boq_inv_upd; eauto.
Qed.
End for_boqs_inv_upd.

Section for_companies_inv.
Context (item_body : jstring -> run_state -> option item
                     -> option (run_state * option item * bool)).
Context (C : jstring -> Prop) (G : run_state -> Prop) (I : jstring -> run_state -> Prop).
Hypothesis body_fwd : forall c s x s' x' ch,
    I c s -> item_body c s x = Some (s', x', ch) -> I c s'.
Hypothesis I_update : forall c st bid d,
    I c st -> I c (mkRun (mem_units st) (db_units st) (update_boq bid d (db_boqs st))
                         (log st ++ [UpdateBoq bid d])).
Hypothesis G_load : forall c st,
    C c -> G st -> I c (with_units (load_units c (db_units st)) st).
Hypothesis I_G : forall c st, I c st -> G st.

Lemma for_companies_inv (cs : list jstring) : forall st st',
    Forall C cs -> G st -> for_companies item_body st cs = Some st' -> G st'.
Proof.
  induction cs as [|c cs IH]; intros st st' HC HG; simpl.
  - now intros [= <-].
  - apply Forall_cons in HC as [Hc HC].
    destruct (for_company item_body st c) as [st1|] eqn:Hpass; [| discriminate].
    apply IH; [exact HC |]. apply (I_G c). unfold for_company in Hpass.
    apply (for_boqs_inv_upd (item_body c) (I c) (body_fwd c) (I_update c) _ _ _
             (G_load c st Hc HG) Hpass).
Qed.
End for_companies_inv.

Lemma update_boq_keys (bid : jstring) (d : boq_data) (tbl : list boq_row) :
  map boq_key (update_boq bid d tbl) = map boq_key tbl.
Proof.
  unfold update_boq. rewrite map_map. apply map_ext. intros r.
  now destruct (bool_decide (b_id r = bid)).
Qed.

Lemma cleanup_body_state s e s' e' ch :
  cleanup_body s e = Some (s', e', ch) -> s' = s.
Proof.
  unfold cleanup_body. destruct (cleanup_item e) as [[? ?]|]; [| discriminate].
  now intros [= <- _ _].
Qed.

(** X4.  No batch process adds, removes or reorders the rows of [boqs], or
    changes the id, number or company of a BOQ; the list of companies is the
    one before the run. *)
Theorem runs_keep_boq_rows (s s' : store) (lg : list stmt) :
  migrate s = Some (s', lg) \/ normalize s = Some (s', lg) \/ cleanup s = Some (s', lg) ->
  map boq_key (boqs s') = map boq_key (boqs s) /\
  length (boqs s') = length (boqs s) /\
  companies s' = companies s.
Proof.
  intros Hrun.
  assert (Hkeys : map boq_key (boqs s') = map boq_key (boqs s) /\ companies s' = companies s).
  { set (K := fun st : run_state => map boq_key (db_boqs st) = map boq_key (boqs s)).
    assert (Hupd : forall st bid d, K st ->
               K (mkRun (mem_units st) (db_units st) (update_boq bid d (db_boqs st))
                        (log st ++ [UpdateBoq bid d]))).
    { intros st bid d HK. unfold K in *. simpl. now rewrite update_boq_keys. }
    destruct Hrun as [Hrun | [Hrun | Hrun]].
    - unfold migrate in Hrun.
      destruct (for_companies migrate_item (begin s) (companies s)) as [st|] eqn:Hloop;
        [| discriminate].
      injection Hrun as <- <-. split; [| reflexivity].
      apply (for_companies_inv migrate_item (fun _ => True) K (fun _ => K))
        with (cs := companies s) (st := begin s);
        [| auto | auto | auto | now apply Forall_forall | reflexivity | exact Hloop].
      intros c s0 x s1 x' ch HK Hb. unfold K in *.
      now rewrite (migrate_item_tbl _ _ _ _ _ _ Hb).
    - unfold normalize in Hrun.
      destruct (for_companies normalize_body (begin s) (companies s)) as [st|] eqn:Hloop;
        [| discriminate].
      injection Hrun as <- <-. split; [| reflexivity].
      apply (for_companies_inv normalize_body (fun _ => True) K (fun _ => K))
        with (cs := companies s) (st := begin s);
        [| auto | auto | auto | now apply Forall_forall | reflexivity | exact Hloop].
      intros c s0 x s1 x' ch HK Hb. now rewrite (normalize_body_state _ _ _ _ _ _ Hb).
    - unfold cleanup in Hrun.
      destruct (for_boqs cleanup_body (begin s) (boqs s)) as [st|] eqn:Hloop; [| discriminate].
      injection Hrun as <- <-. split; [| reflexivity].
      apply (for_boqs_inv_upd cleanup_body K) with (3 := eq_refl) (4 := Hloop); auto.
      intros s0 x s1 x' ch HK Hb. now rewrite (cleanup_body_state _ _ _ _ _ Hb). }
  destruct Hkeys as [Hk Hc]. split; [exact Hk |]. split; [| exact Hc].
  rewrite <- (length_map boq_key (boqs s')), Hk. apply length_map.
Qed.

End Run_invariants.

Section Run_invariants_examples.
#[local] Existing Instance ascii_folding.

Lemma runs_keep_boq_rows_witness :
  exists s' lg, migrate collide_store = Some (s', lg) /\
    map boq_key (boqs s') = map boq_key (boqs collide_store).
Proof.
  assert (Hsome : match migrate collide_store with Some _ => True | None => False end)
    by (vm_compute; exact I).
  destruct (migrate collide_store) as [[s' lg]|] eqn:Hrun; [| contradiction].
  exists s', lg. split; [reflexivity |].
  now destruct (runs_keep_boq_rows collide_store s' lg (or_introl Hrun)) as [Hk _].
Defined.

End Run_invariants_examples.

Section Unit_names.
Context {folding : CaseFolding}.

Lemma load_units_app (c : jstring) (tbl : list unit_row) (m : unit_t) :
  load_units c (tbl ++ [mkUnitRow (Some c) m]) = load_units c tbl ++ [m].
Proof.
  unfold load_units. rewrite filter_app, map_app. f_equal.
  rewrite filter_cons. simpl. destruct (decide (Some c = Some c)); [reflexivity | contradiction].
Qed.

Lemma resolve_none_fresh_name (tok : jstring) (us : list unit_t) (u : unit_t) :
  tok <> [] -> resolve tok us = None -> u ∈ us -> name u <> tok.
Proof.
  intros Htok Hres Hu Hname. apply resolve_none_name in Hres.
  rewrite Forall_forall in Hres. apply (Hres u Hu).
  split; [now rewrite Hname | rewrite Hname; apply ci_eq_refl].
Qed.

(** X5.  The pipeline never inserts a unit whose name its company already
    has: when the pairs of company and name of the units table are distinct
    before a committed run, as the constraint [UNIQUE(company_id, name)]
    requires, they are distinct after it, so no INSERT of the run can violate
    the constraint. *)
Theorem migration_keeps_names_unique (s s' : store) (lg : list stmt) :
  NoDup (map unit_key (units s)) ->
  migrate s = Some (s', lg) ->
  NoDup (map unit_key (units s')).
Proof.
  intros Hnd Hrun. unfold migrate in Hrun.
  destruct (for_companies migrate_item (begin s) (companies s)) as [st|] eqn:Hloop;
    [| discriminate].
  injection Hrun as <- <-. simpl.
  apply (for_companies_inv migrate_item (fun _ => True)
           (fun st => NoDup (map unit_key (db_units st)))
           (fun c st => mem_units st = load_units c (db_units st) /\
                        NoDup (map unit_key (db_units st))))
    with (cs := companies s) (st := begin s);
    [| | | | now apply Forall_forall | exact Hnd | exact Hloop].
  - intros c s0 x s1 x' ch [Hmem Hkeys] Hb.
    destruct (migrate_item_cases _ _ _ _ _ _ Hb)
      as (it & -> & [(_ & -> & _) | (_ & _ & tok & m & _ & Htok & _ & Hcase)]);
      [now split |].
    destruct Hcase as [[_ ->] | (Hres & -> & ->)]; [now split |].
    simpl. split; [now rewrite load_units_app, Hmem |].
    rewrite map_app. apply NoDup_app. split; [exact Hkeys |]. split; [| apply NoDup_singleton].
    intros k Hk Hk'. apply list_elem_of_singleton in Hk'. subst k.
    apply list_elem_of_fmap in Hk as ([co u] & Hkey & Hr).
    unfold unit_key in Hkey. simpl in Hkey. injection Hkey as <- Hname.
    apply (resolve_none_fresh_name tok (mem_units s0) u Htok Hres); [| congruence].
    rewrite Hmem. unfold load_units. apply list_elem_of_fmap.
    exists (mkUnitRow (Some c) u). split; [reflexivity |].
    now apply list_elem_of_filter.
  - intros c st0 bid d HI. exact HI.
  - intros c st0 _ HG. now split.
  - intros c st0 [_ HG]. exact HG.
Qed.

End Unit_names.

Section Unit_names_examples.
#[local] Existing Instance ascii_folding.

Lemma migration_keeps_names_unique_witness :
  exists s' lg, migrate collide_store = Some (s', lg) /\ NoDup (map unit_key (units s')).
Proof.
  assert (Hsome : match migrate collide_store with Some _ => True | None => False end)
    by (vm_compute; exact I).
  destruct (migrate collide_store) as [[s' lg]|] eqn:Hrun; [| contradiction].
  exists s', lg. split; [reflexivity |].
  apply (migration_keeps_names_unique collide_store s' lg); [| exact Hrun].
  apply (bool_decide_unpack _). vm_compute. exact I.
Defined.

End Unit_names_examples.

Section Unit_rows.
Context {folding : CaseFolding}.



End Unit_rows.

Section Unit_rows_examples.
#[local] Existing Instance ascii_folding.


End Unit_rows_examples.

Section Item_writes.
Context {folding : CaseFolding}.

(** X7.  What the pipeline writes on an item it changes: the token is
    [unit_name] when that is set and the legacy [unit] otherwise; the unit
    written has a name or an abbreviation that is set and equals the token
    case-insensitively, that is, has the same lower-casing;
    [unit_id] and [unit_name] become the unit's id and canonical name,
    [unit_abbreviation] its abbreviation or [null] when it has none; every
    other property, the legacy [unit] included, reads as before. *)
Theorem migrate_item_writes (c : jstring) (st st' : run_state) (it it' : item) :
  migrate_item c st (Some it) = Some (st', Some it', true) ->
  exists tok m,
    tok <> [] /\ token_of it = Some (JStr tok) /\
    (is_set it "unit_name" -> it !! "unit_name" = Some (JStr tok)) /\
    (~ is_set it "unit_name" -> it !! "unit" = Some (JStr tok)) /\
    m ∈ mem_units st' /\
    (name_ci tok m \/ abbr_ci tok m) /\
    it' !! "unit_id" = Some (JStr (id m)) /\
    it' !! "unit_name" = Some (JStr (name m)) /\
    it' !! "unit_abbreviation" =
      Some (match abbreviation m with
            | Some a => if str_truthy a then JStr a else JNull
            | None => JNull
            end) /\
    (forall k, k <> "unit_id" -> k <> "unit_name" -> k <> "unit_abbreviation" ->
               it' !! k = it !! k).
Proof.
  intros Hrun.
  destruct (migrate_item_cases _ _ _ _ _ _ Hrun)
    as (it0 & [= <-] & [(Hf & _) | (_ & _ & tok & m & Htk & Htok & [= ->] & Hcase)]);
    [discriminate |].
  exists tok, m. split; [exact Htok |]. split; [exact Htk |].
  unfold js_or, is_set in *.
  split; [intros Hn; now rewrite Hn in Htk |].
  split; [intros Hn; destruct (truthy (it !! "unit_name")); [now destruct Hn | exact Htk] |].
  destruct (write_unit_lookups m it) as (H1 & H2 & _ & H3 & H4).
  assert (Hm : m ∈ mem_units st' /\ (name_ci tok m \/ abbr_ci tok m)).
  { destruct Hcase as [[Hres ->] | (_ & -> & ->)].
    - now apply resolve_matches.
    - simpl. split; [apply elem_of_app; right; apply list_elem_of_here |].
      left. split; [exact Htok | apply ci_eq_refl]. }
  destruct Hm as [Hin Hmatch]. repeat split; auto.
Qed.

End Item_writes.

Section Item_writes_examples.
#[local] Existing Instance ascii_folding.

Lemma migrate_item_writes_witness :
  exists st' it',
    migrate_item "c1" (mkRun [mkUnit "u1" "Kilogram" (Some "kg")] [] [] [])
      (Some (<["unit_name" := JStr "KG"]> {["unit" := JStr "bag"]}))
    = Some (st', Some it', true) /\
    it' !! "unit_name" = Some (JStr "Kilogram") /\ it' !! "unit" = Some (JStr "bag").
Proof.
  set (m := mkUnit "u1" "Kilogram" (Some "kg")).
  set (it := <["unit_name" := JStr "KG"]> ({["unit" := JStr "bag"]} : item)).
  assert (Hrun : migrate_item "c1" (mkRun [m] [] [] []) (Some it)
                 = Some (mkRun [m] [] [] [], Some (write_unit m it), true)) by reflexivity.
  exists (mkRun [m] [] [] []), (write_unit m it). split; [exact Hrun |].
  destruct (migrate_item_writes _ _ _ _ _ Hrun)
    as (tok & m' & _ & _ & _ & _ & _ & _ & _ & _ & _ & Hframe).
  split.
  - reflexivity.
  - rewrite Hframe by discriminate. reflexivity.
Defined.

End Item_writes_examples.

(** ** Cleanup and the runner, run after run *)

Section Cleanup_runs.
Context {folding : CaseFolding}.

Lemma cleanup_item_cleaned (it : item) (e' : option item) (ch : bool) :
  cleanup_item (Some it) = Some (e', ch) -> cleaned e'.
Proof.
  unfold cleanup_item.
  destruct (truthy (it !! "unit_id")) eqn:Hid; simpl.
  - destruct (truthy (it !! "unit") || truthy (it !! "unit_name")) eqn:Hleg.
    + intros [= <- _]. eexists. split; [reflexivity |]. right.
      rewrite lookup_delete_ne by discriminate. now rewrite !lookup_delete_eq.
    + intros [= <- _]. exists it. split; [reflexivity |]. right.
      now apply orb_false_iff in Hleg.
  - intros [= <- _]. exists it. auto.
Qed.

Lemma cleaned_quiet (s : run_state) (e : option item) :
  cleaned e -> cleanup_body s e = Some (s, e, false).
Proof.
  intros (it & -> & H). unfold cleanup_body, cleanup_item.
  destruct H as [-> | [-> ->]]; [reflexivity |]. now rewrite andb_false_r.
Qed.

(** X8.  Cleanup is idempotent as a run: on a [boqs] table with distinct
    primary keys, a committed run of Cleanup is followed by a run that commits
    the same store without issuing an UPDATE; and running Cleanup twice leaves
    the store that running it once leaves. *)
Theorem cleanup_run_idempotent (s : store) :
  NoDup (map b_id (boqs s)) ->
  (forall s1 lg, cleanup s = Some (s1, lg) -> cleanup s1 = Some (s1, [])) /\
  run_cleanup (run_cleanup s) = run_cleanup s.
Proof.
  intros Hnd.
  assert (Hcommit : forall s1 lg, cleanup s = Some (s1, lg) -> cleanup s1 = Some (s1, [])).
  { intros s1 lg Hrun. unfold cleanup in Hrun.
    destruct (for_boqs cleanup_body (begin s) (boqs s)) as [st|] eqn:Hloop; [| discriminate].
    injection Hrun as <- <-.
    assert (Hsub : forall b, b ∈ boqs s -> b ∈ boqs s /\ (fun _ : boq_row => true) b = true)
      by (intros b Hb; now split).
    destruct (for_boqs_spec cleanup_body (fun _ => True) (fun _ => True)
                (fun _ e' => cleaned e')) with (V := fun _ : boq_row => true)
                (T0 := boqs s) (bs := boqs s) (st := begin s) (st' := st) as [_ Hback]; auto.
    - intros s0 x s1 x' ch _ Hb _. split; [exact I |].
      unfold cleanup_body in Hb. destruct x as [it|]; [| discriminate].
      destruct (cleanup_item (Some it)) as [[e1 c1]|] eqn:Hc; [| discriminate].
      injection Hb as _ <- _. eapply cleanup_item_cleaned; eauto.
    - intros s0 x s1 x' Hb. destruct (cleanup_body_fwd_back _ _ _ _ _ Hb) as (-> & _ & Hs).
      split; [reflexivity | now apply Hs].
    - intros s0 x s1 x' ch Hb. now rewrite (cleanup_body_state _ _ _ _ _ Hb).
    - destruct (Hback I) as [_ Hrel].
      assert (HF : Forall2 (visited_rel (fun _ e' => cleaned e') (fun _ => true))
                           (boqs s) (db_boqs st)).
      { apply Hrel. simpl. apply pending_rel_start. auto. }
      unfold cleanup. simpl.
      rewrite (for_boqs_quiet cleanup_body cleaned (fun s0 e H => cleaned_quiet s0 e H)).
      + simpl. reflexivity.
      + apply Forall_forall. intros r' Hr'.
        apply list_elem_of_lookup in Hr' as [i Hi].
        destruct (Forall2_lookup_r _ _ _ _ _ HF Hi) as (r & _ & Hrr).
        unfold visited_rel in Hrr. eapply row_rel_all; [| exact Hrr]. auto. }
  split; [exact Hcommit |].
  unfold run_cleanup, after.
  destruct (cleanup s) as [[s1 lg]|] eqn:Hrun.
  - now rewrite (Hcommit s1 lg eq_refl).
  - now rewrite Hrun.
Qed.

End Cleanup_runs.

Section Cleanup_runs_examples.
#[local] Existing Instance ascii_folding.

Lemma cleanup_run_idempotent_witness :
  cleanup (run_cleanup (run_migration scenario_store))
  = Some (run_cleanup (run_migration scenario_store), []).
Proof.
  destruct (cleanup_run_idempotent (run_migration scenario_store)) as [Hcommit _].
  - apply (bool_decide_unpack _). vm_compute. exact I.
  - assert (Hsome : match cleanup (run_migration scenario_store) with
                    | Some _ => True | None => False end) by (vm_compute; exact I).
    destruct (cleanup (run_migration scenario_store)) as [[s1 lg]|] eqn:Hrun;
      [| contradiction].
    unfold run_cleanup, after. rewrite Hrun. now apply (Hcommit s1 lg).
Defined.

End Cleanup_runs_examples.

Section Runner_runs.
Context {folding : CaseFolding}.

Section Quiet_at.
Context (item_body : run_state -> option item -> option (run_state * option item * bool)).
Context (st : run_state) (quiet : option item -> Prop).
Hypothesis body_quiet : forall e, quiet e -> item_body st e = Some (st, e, false).

Lemma for_items_quiet_at (its : list (option item)) :
  Forall quiet its -> for_each item_body st its = Some (st, its, false).
Proof.
  induction 1 as [|e its He _ IH]; simpl; [reflexivity |].
  now rewrite (body_quiet e He), IH.
Qed.

Lemma for_sections_quiet_at (secs : list section) :
  Forall (sec_all quiet) secs ->
  for_each (for_section item_body) st secs = Some (st, secs, false).
Proof.
  induction 1 as [|sec secs Hsec _ IH]; simpl; [reflexivity |].
  unfold for_section at 1. unfold sec_all in Hsec.
  destruct sec as [t [its|]]; simpl in *.
  - now rewrite (for_items_quiet_at its Hsec), IH.
  - now rewrite IH.
Qed.

Lemma for_boqs_quiet_at (bs : list boq_row) :
  Forall (row_all quiet) bs -> for_boqs item_body st bs = Some st.
Proof.
  induction 1 as [|b bs Hb _ IH]; simpl; [reflexivity |].
  unfold for_boq. unfold row_all in Hb.
  destruct (b_data b) as [d|]; [| exact IH].
  destruct (sections d) as [secs|]; [| exact IH].
  now rewrite (for_sections_quiet_at secs Hb).
Qed.
End Quiet_at.

Lemma normalize_item_some (us : list unit_t) (it : item) (e' : option item) (ch : bool) :
  normalize_item us (Some it) = Some (e', ch) -> exists it', e' = Some it'.
Proof.
  unfold normalize_item. intros H.
  repeat match type of H with
         | context [match ?x with _ => _ end] => destruct x
         end; try discriminate; injection H as <- _; eauto.
Qed.

Lemma load_units_names (c : jstring) (tbl : list unit_row) :
  unit_names_ok tbl -> Forall (fun u => name u <> []) (load_units c tbl).
Proof.
  unfold unit_names_ok, load_units. rewrite !Forall_forall. intros H u Hu.
  apply list_elem_of_fmap in Hu as (r & -> & Hr). apply list_elem_of_filter in Hr as [_ Hr]. auto.
Qed.

Lemma normalize_company_settled (U : list unit_row) (done : list jstring) (c : jstring)
      (st st' : run_state) :
  unit_names_ok U ->
  settled_rows U done st -> for_company normalize_body st c = Some st' ->
  settled_rows U (c :: done) st'.
Proof.
  intros Hnames (Hnd & Hu & Hdone) Hrun.
  destruct (for_company_spec normalize_body c
              (fun s0 => mem_units s0 = load_units c U /\ db_units s0 = U) (fun _ => True)
              (fun _ e' => settled (load_units c U) e'))
    with (st := st) (st' := st') as [[_ Hu'] Hback]; auto.
  - intros s0 x s1 x' ch Hs Hb. now rewrite (normalize_body_state _ _ _ _ _ _ Hb).
  - intros s0 x s1 x' ch [Hmem _] Hb _. split; [exact I |].
    unfold normalize_body in Hb. destruct (normalize_item (mem_units s0) x) as [[e1 c1]|] eqn:Hn;
      [| discriminate].
    injection Hb as _ <- _. destruct x as [it|]; [| discriminate].
    destruct (normalize_item_some _ _ _ _ Hn) as [it' ->]. rewrite Hmem in Hn.
    eapply normalize_item_settles; [| exact Hn]. now apply load_units_names.
  - apply normalize_body_same.
  - intros s0 x s1 x' ch Hb. now rewrite (normalize_body_state _ _ _ _ _ _ Hb).
  - simpl. now rewrite Hu.
  - destruct (Hback I) as [_ Hrel].
    split; [now rewrite (proj1 (visited_rel_ids _ _ _ _ Hrel)) |]. split; [exact Hu' |].
    intros r' c' Hr' Hc' Hco.
    apply list_elem_of_lookup in Hr' as [i Hi].
    destruct (Forall2_lookup_r _ _ _ _ _ Hrel Hi) as (r & Hir & Hrr).
    unfold visited_rel, of_company in Hrr. case_bool_decide as Hrc.
    + assert (c' = c) as ->.
      { destruct Hrr as (_ & _ & Hk & _). congruence. }
      eapply row_rel_all; [| exact Hrr]. auto.
    + subst r'. apply elem_of_cons in Hc' as [-> | Hc']; [contradiction |].
      eapply Hdone; eauto. eapply list_elem_of_lookup_2; eauto.
Qed.

Lemma normalize_companies_settled (U : list unit_row) (cs : list jstring) :
  unit_names_ok U ->
  forall done st st',
    settled_rows U done st -> for_companies normalize_body st cs = Some st' ->
    settled_rows U (rev cs ++ done) st'.
Proof.
  intros Hnames. induction cs as [|c cs IH]; intros done st st' Hp; simpl.
  - now intros [= <-].
  - destruct (for_company normalize_body st c) as [st1|] eqn:Hc; [| discriminate].
    intros Hrun. rewrite <- app_assoc. simpl.
    eapply IH; [| exact Hrun]. eapply normalize_company_settled; eauto.
Qed.

Lemma normalize_companies_quiet (U : list unit_row) (cs : list jstring) : forall st,
  db_units st = U ->
  (forall r c, r ∈ db_boqs st -> c ∈ cs -> b_company r = Some c ->
               row_all (settled (load_units c U)) r) ->
  exists us, for_companies normalize_body st cs
             = Some (mkRun us (db_units st) (db_boqs st) (log st)).
Proof.
  induction cs as [|c cs IH]; intros st HU Hall; simpl.
  - exists (mem_units st). now destruct st.
  - unfold for_company.
    rewrite (for_boqs_quiet_at (normalize_body c) (with_units (load_units c (db_units st)) st)
               (settled (load_units c U))).
    + destruct (IH (with_units (load_units c (db_units st)) st)) as [us Hus]; [exact HU | | eauto].
      simpl. intros r c' Hr Hc'. apply Hall; [exact Hr | now apply elem_of_cons; right].
    + intros e He. unfold normalize_body, settled in *. simpl. rewrite HU. now rewrite He.
    + apply Forall_forall. intros r Hr. apply load_boqs_elem in Hr as [Hr Hc].
      apply bool_decide_eq_true in Hc. apply (Hall r c); [exact Hr | | exact Hc].
      now apply elem_of_cons; left.
Qed.

(** X9.  The Normalization Runner is idempotent as a run: on a store whose
    BOQs have distinct primary keys and whose units have non-empty names, a
    committed run is followed by a run that commits the same store without
    issuing an UPDATE; and running the runner twice leaves the store that
    running it once leaves. *)
Theorem normalization_run_idempotent (s : store) :
  NoDup (map b_id (boqs s)) ->
  unit_names_ok (units s) ->
  (forall s1 lg, normalize s = Some (s1, lg) -> normalize s1 = Some (s1, [])) /\
  run_normalization (run_normalization s) = run_normalization s.
Proof.
  intros Hnd Hnames.
  assert (Hcommit : forall s1 lg, normalize s = Some (s1, lg) -> normalize s1 = Some (s1, [])).
  { intros s1 lg Hrun. unfold normalize in Hrun.
    destruct (for_companies normalize_body (begin s) (companies s)) as [st|] eqn:Hloop;
      [| discriminate].
    injection Hrun as <- <-.
    destruct (normalize_companies_settled (units s) (companies s) Hnames [] (begin s) st)
      as (_ & Hu & Hall); [| exact Hloop |].
    { split; [exact Hnd |]. split; [reflexivity |]. intros r c _ Hc. inversion Hc. }
    unfold normalize. simpl.
    destruct (normalize_companies_quiet (units s) (companies s) (begin (commit s st)))
      as [us ->].
    - exact Hu.
    - simpl. intros r c Hr Hc. apply Hall; [exact Hr |].
      rewrite app_nil_r. apply list_elem_of_In, in_rev. rewrite rev_involutive.
      now apply list_elem_of_In.
    - reflexivity. }
  split; [exact Hcommit |].
  unfold run_normalization, after.
  destruct (normalize s) as [[s1 lg]|] eqn:Hrun.
  - now rewrite (Hcommit s1 lg eq_refl).
  - now rewrite Hrun.
Qed.

End Runner_runs.

Section Runner_runs_examples.
#[local] Existing Instance ascii_folding.

Lemma normalization_run_idempotent_witness :
  normalize (run_normalization collide_store) = Some (run_normalization collide_store, []).
Proof.
  destruct (normalization_run_idempotent collide_store) as [Hcommit _].
  - apply (bool_decide_unpack _). vm_compute. exact I.
  - repeat constructor; discriminate.
  - assert (Hsome : match normalize collide_store with
                    | Some _ => True | None => False end) by (vm_compute; exact I).
    destruct (normalize collide_store) as [[s1 lg]|] eqn:Hrun; [| contradiction].
    unfold run_normalization, after. rewrite Hrun. now apply (Hcommit s1 lg).
Defined.

End Runner_runs_examples.

(** ** The three steps on one item, and the renderers *)

Section Three_steps.
Context {folding : CaseFolding}.

Lemma find_id_unique (us : list unit_t) (u : unit_t) :
  NoDup (map id us) -> u ∈ us -> find (id_is (Some (JStr (id u)))) us = Some u.
Proof.
  intros Hnd Hu.
  destruct (find_exists (id_is (Some (JStr (id u)))) us u Hu) as [y Hy];
    [now apply id_is_spec |].
  rewrite Hy. f_equal. apply find_some_elem in Hy as [Hin Hid].
  apply id_is_spec in Hid. eapply NoDup_map_eq; eauto.
Qed.

(** The runner after the pipeline: the cache is filled and [unit_id] kept. *)
Lemma runner_after_pipeline (us : list unit_t) (m : unit_t) (it : item) :
  m ∈ us -> Forall (fun u => id u <> [] /\ name u <> []) us ->
  exists it2 ch,
    normalize_item us (Some (write_unit m it)) = Some (Some it2, ch) /\
    is_set it2 "unit_abbreviation" /\ is_set it2 "unit_name" /\
    it2 !! "unit_id" = Some (JStr (id m)) /\
    (forall k, k <> "unit_name" -> k <> "unit_abbreviation" ->
               it2 !! k = write_unit m it !! k).
Proof.
  intros Hm Hok. rewrite Forall_forall in Hok.
  destruct (write_unit_lookups m it) as (Hid & Hname & _ & Habbr & _).
  destruct (truthy (write_unit m it !! "unit_abbreviation")) eqn:Hab.
  - exists (write_unit m it), false. split; [now apply normalize_item_no_change |].
    split; [exact Hab |]. unfold is_set. rewrite Hname. simpl.
    split; [apply str_truthy_nonempty, (Hok m Hm) |]. auto.
  - destruct (find_exists (id_is (Some (JStr (id m)))) us m Hm) as [u Hu];
      [now apply id_is_spec |].
    destruct (abbr_or_name_some u) as (j & Hj & Hjn & _).
    pose proof (find_some_elem _ _ _ Hu) as [Hin _].
    exists (<["unit_name" := JStr (name u)]> (<["unit_abbreviation" := j]> (write_unit m it))),
      true.
    split; [| split; [| split; [| split]]].
    + unfold normalize_item. rewrite Hab, Hid. simpl.
      assert (Ht : str_truthy (id m) = true) by apply str_truthy_nonempty, (Hok m Hm).
      rewrite Ht, Hu, Hj. reflexivity.
    + unfold is_set. rewrite lookup_insert_ne by discriminate. rewrite lookup_insert_eq.
      apply Hjn, (Hok u Hin).
    + unfold is_set. rewrite lookup_insert_eq. simpl. apply str_truthy_nonempty, (Hok u Hin).
    + now rewrite !lookup_insert_ne by discriminate.
    + intros k H1 H2. now rewrite !lookup_insert_ne by congruence.
Qed.

(** X10.  Pipeline, runner and Cleanup in this order bring an item to the
    target state: for an item that the pipeline changes, the runner (with the
    unit list the pipeline ends with, identifiers and names being non-empty)
    and then Cleanup return an item that has [unit_id] and
    [unit_abbreviation] set and neither [unit] nor [unit_name], every property
    other than these four reading as on the original item. *)
Theorem three_steps_normalize_item (c : jstring) (st st' : run_state) (it it1 : item) :
  migrate_item c st (Some it) = Some (st', Some it1, true) ->
  Forall (fun u => id u <> [] /\ name u <> []) (mem_units st') ->
  exists it2 ch2 it3 ch3,
    normalize_item (mem_units st') (Some it1) = Some (Some it2, ch2) /\
    cleanup_item (Some it2) = Some (Some it3, ch3) /\
    fully_normalized it3 /\
    it3 !! "unit_id" = it1 !! "unit_id" /\
    (forall k, k <> "unit_id" -> k <> "unit_name" -> k <> "unit_abbreviation" ->
               k <> "unit" -> it3 !! k = it !! k).
Proof.
  intros Hrun Hok.
  destruct (migrate_item_cases _ _ _ _ _ _ Hrun)
    as (it0 & [= <-] & [(Hf & _) | (_ & _ & tok & m & _ & _ & [= ->] & Hcase)]);
    [discriminate |].
  assert (Hm : m ∈ mem_units st').
  { destruct Hcase as [[Hres ->] | (_ & -> & ->)].
    - now apply resolve_elem in Hres.
    - simpl. apply elem_of_app. right. apply list_elem_of_here. }
  destruct (runner_after_pipeline _ m it Hm Hok) as (it2 & ch2 & Hn & Hab & Hnm & Hid & Hfr).
  destruct (write_unit_lookups m it) as (Hid1 & _ & _ & _ & Hfr1).
  assert (Hidm : str_truthy (id m) = true).
  { rewrite Forall_forall in Hok. apply str_truthy_nonempty, (Hok m Hm). }
  exists it2, ch2, (delete "unit_name" (delete "unit" it2)), true.
  split; [exact Hn |]. split; [| split; [| split]].
  - unfold cleanup_item. rewrite Hid. simpl. rewrite Hidm.
    unfold is_set in Hnm. rewrite Hnm. now rewrite orb_true_r.
  - unfold fully_normalized, is_set.
    rewrite !(lookup_delete_ne _ _ "unit_id"), !(lookup_delete_ne _ _ "unit_abbreviation")
      by discriminate.
    rewrite Hid. simpl. split; [exact Hidm |]. split; [exact Hab |].
    split; [rewrite lookup_delete_ne by discriminate; apply lookup_delete_eq
           | apply lookup_delete_eq].
  - rewrite !lookup_delete_ne by discriminate. now rewrite Hid, Hid1.
  - intros k H1 H2 H3 H4. rewrite !lookup_delete_ne by congruence.
    rewrite Hfr by assumption. now apply Hfr1.
Qed.

End Three_steps.

Section Three_steps_examples.
#[local] Existing Instance ascii_folding.

Lemma three_steps_normalize_item_witness :
  let m := mkUnit "u1" "m3" None in
  exists it1 it2 ch2 it3 ch3,
    migrate_item "c1" (mkRun [m] [] [] []) (Some scenario_item)
    = Some (mkRun [m] [] [] [], Some it1, true) /\
    normalize_item [m] (Some it1) = Some (Some it2, ch2) /\
    cleanup_item (Some it2) = Some (Some it3, ch3) /\
    fully_normalized it3 /\ it3 !! "description" = Some (JStr "Excavation").
Proof.
  intros m.
  assert (Hrun : migrate_item "c1" (mkRun [m] [] [] []) (Some scenario_item)
                 = Some (mkRun [m] [] [] [], Some (write_unit m scenario_item), true))
    by reflexivity.
  assert (Hok : Forall (fun u => id u <> [] /\ name u <> []) (mem_units (mkRun [m] [] [] []))).
  { repeat constructor; discriminate. }
  destruct (three_steps_normalize_item "c1" _ _ scenario_item _ Hrun Hok)
    as (it2 & ch2 & it3 & ch3 & Hn & Hc & Hfull & _ & Hframe).
  exists (write_unit m scenario_item), it2, ch2, it3, ch3.
  repeat split; try assumption; try apply Hfull.
  rewrite Hframe by discriminate. reflexivity.
Defined.

End Three_steps_examples.

Section Fixed_point.
Context {folding : CaseFolding}.

(** X11.  The target state is a fixed point of the three per-item steps:
    on an item with [unit_id] and [unit_abbreviation] set and no legacy
    property, the pipeline, the runner and Cleanup all return the item as it
    is, report no change and, for the pipeline, insert no unit. *)
Theorem fully_normalized_is_fixed (c : jstring) (st : run_state) (us : list unit_t)
        (it : item) :
  fully_normalized it ->
  migrate_item c st (Some it) = Some (st, Some it, false) /\
  normalize_item us (Some it) = Some (Some it, false) /\
  cleanup_item (Some it) = Some (Some it, false).
Proof.
  intros (Hid & Hab & Hu & Hn). unfold is_set in *. split; [| split].
  - unfold migrate_item. now rewrite Hid.
  - now apply normalize_item_no_change.
  - unfold cleanup_item. now rewrite Hid, Hu, Hn.
Qed.

End Fixed_point.

Section Fixed_point_examples.
#[local] Existing Instance ascii_folding.

Lemma fully_normalized_is_fixed_witness :
  let it : item := <["unit_abbreviation" := JStr "m3"]> {["unit_id" := JStr "u1"]} in
  normalize_item [mkUnit "u1" "Cubic metre" (Some "cu.m")] (Some it) = Some (Some it, false).
Proof.
  intros it.
  apply (fully_normalized_is_fixed "c1" (mkRun [] [] [] [])
           [mkUnit "u1" "Cubic metre" (Some "cu.m")] it).
  repeat split.
Defined.

End Fixed_point_examples.

Section Runner_renderers.
Context {folding : CaseFolding}.

(** X12.  After the runner has changed an item, against a unit list with
    distinct, non-empty identifiers and non-empty names, the viewer and the
    PDF row agree: what the viewer displays for the item is the cached
    [unit_abbreviation] that the PDF generator passes on. *)
Theorem runner_aligns_renderers (us : list unit_t) (it it' : item) :
  NoDup (map id us) ->
  Forall (fun u => id u <> [] /\ name u <> []) us ->
  normalize_item us (Some it) = Some (Some it', true) ->
  viewer_unit us it' = it' !! "unit_abbreviation" /\
  pdf_unit_abbreviation it' = it' !! "unit_abbreviation" /\
  is_set it' "unit_abbreviation".
Proof.
  intros Hnd Hok Hrun. rewrite Forall_forall in Hok.
  destruct (normalize_item_cases _ _ _ _ Hrun)
    as [[Hf _] | (_ & Hab & u & j & Hin & Hj & Hcase)]; [discriminate |].
  destruct (abbr_or_name_some u) as (j' & Hj' & Hname & _).
  assert (j' = j) as -> by congruence.
  specialize (Hname (proj2 (Hok u Hin))).
  assert (Habbr : it' !! "unit_abbreviation" = Some j).
  { destruct Hcase as [(_ & _ & ->) | [(_ & _ & _ & _ & ->) | (_ & _ & _ & _ & _ & ->)]];
      rewrite ?lookup_insert_eq; try reflexivity;
      rewrite lookup_insert_ne by discriminate; now rewrite lookup_insert_eq. }
  assert (Hview : viewer_unit us it' = Some j).
  { unfold viewer_unit.
    destruct Hcase as [(Hid & Hf & ->) | [(_ & _ & _ & _ & ->) | (_ & _ & _ & _ & _ & ->)]].
    - rewrite !(lookup_insert_ne _ _ "unit_id") by discriminate. now rewrite Hid, Hf.
    - rewrite lookup_insert_ne by discriminate. rewrite lookup_insert_eq. simpl.
      rewrite (proj2 (str_truthy_nonempty _) (proj1 (Hok u Hin))).
      now rewrite (find_id_unique us u Hnd Hin).
    - rewrite !(lookup_insert_ne _ _ "unit_id") by discriminate. rewrite lookup_insert_eq.
      simpl. rewrite (proj2 (str_truthy_nonempty _) (proj1 (Hok u Hin))).
      now rewrite (find_id_unique us u Hnd Hin). }
  unfold pdf_unit_abbreviation, js_or, is_set. rewrite Habbr, Hname. auto.
Qed.

End Runner_renderers.

Section Runner_renderers_examples.
#[local] Existing Instance ascii_folding.

Lemma runner_aligns_renderers_witness :
  let us := [mkUnit "u1" "Kilogram" (Some "kg")] in
  let it' : item :=
    <["unit_name" := JStr "Kilogram"]>
      (<["unit_abbreviation" := JStr "kg"]> (<["unit_id" := JStr "u1"]> {["unit" := JStr "KG"]})) in
  viewer_unit us it' = Some (JStr "kg") /\ pdf_unit_abbreviation it' = Some (JStr "kg").
Proof.
  intros us it'.
  destruct (runner_aligns_renderers us {["unit" := JStr "KG"]} it') as (Hv & Hp & _).
  - apply NoDup_singleton.
  - repeat constructor; discriminate.
  - vm_compute. reflexivity.
  - rewrite Hv, Hp. split; reflexivity.
Defined.

End Runner_renderers_examples.

Section Cleanup_renderers.
Context {folding : CaseFolding}.

(** X13.  Cleanup and the renderers: on an item that Cleanup changes, the
    unit of measure of the PDF row becomes the placeholder [Item] while the
    cached abbreviation it passes is untouched; the viewer shows what it
    showed before when [unit_id] resolves against the unit list, and the
    placeholder [-] when it does not. *)
Theorem cleanup_and_renderers (us : list unit_t) (it it' : item) :
  cleanup_item (Some it) = Some (Some it', true) ->
  pdf_unit_of_measure it' = Some (JStr "Item") /\
  pdf_unit_abbreviation it' = pdf_unit_abbreviation it /\
  (forall u, find (id_is (it !! "unit_id")) us = Some u ->
             viewer_unit us it' = viewer_unit us it) /\
  (find (id_is (it !! "unit_id")) us = None -> viewer_unit us it' = Some (JStr "-")).
Proof.
  unfold cleanup_item.
  destruct (truthy (it !! "unit_id")) eqn:Hid; simpl; [| discriminate].
  destruct (truthy (it !! "unit") || truthy (it !! "unit_name")); [| discriminate].
  intros [= <-].
  assert (Hu : delete "unit_name" (delete "unit" it) !! "unit" = None).
  { rewrite lookup_delete_ne by discriminate. apply lookup_delete_eq. }
  assert (Hn : delete "unit_name" (delete "unit" it) !! "unit_name" = None)
    by apply lookup_delete_eq.
  assert (Hk : forall k, k <> "unit" -> k <> "unit_name" ->
                         delete "unit_name" (delete "unit" it) !! k = it !! k).
  { intros k H1 H2. now rewrite !lookup_delete_ne by congruence. }
  unfold pdf_unit_of_measure, pdf_unit_abbreviation, viewer_unit, js_or.
  rewrite Hu, Hn, !Hk by discriminate. simpl. rewrite Hid.
  repeat split.
  - intros u ->. reflexivity.
  - intros ->. reflexivity.
Qed.

End Cleanup_renderers.

Section Cleanup_renderers_examples.
#[local] Existing Instance ascii_folding.

Lemma cleanup_and_renderers_witness :
  let it : item := <["unit_name" := JStr "Bags"]> {["unit_id" := JStr "gone"]} in
  exists it', cleanup_item (Some it) = Some (Some it', true) /\
    viewer_unit [] it = Some (JStr "Bags") /\ viewer_unit [] it' = Some (JStr "-") /\
    pdf_unit_of_measure it' = Some (JStr "Item").
Proof.
  intros it. exists (delete "unit_name" (delete "unit" it)).
  assert (Hc : cleanup_item (Some it) = Some (Some (delete "unit_name" (delete "unit" it)), true))
    by (vm_compute; reflexivity).
  destruct (cleanup_and_renderers [] it _ Hc) as (Hp & _ & _ & Hv).
  split; [exact Hc |]. split; [vm_compute; reflexivity |].
  split; [apply Hv; reflexivity | exact Hp].
Defined.

End Cleanup_renderers_examples.

(** ** The normalization page and the runner *)

Section Page.
Context {folding : CaseFolding}.

Lemma find_ext_in {A : Type} (f g : A -> bool) (l : list A) :
  Forall (fun x => f x = g x) l -> find f l = find g l.
Proof.
  induction 1 as [|x l Hx _ IH]; simpl; [reflexivity |]. now rewrite Hx, IH.
Qed.

Lemma existsb_all {A : Type} (f : A -> bool) (l : list A) :
  Forall (fun x => f x = true) l ->
  existsb f l = match l with [] => false | _ :: _ => true end.
Proof. intros H. destruct H as [|x l Hx _]; simpl; [reflexivity | now rewrite Hx]. Qed.

(** X14.  The page runs the step of the runner: when the units of the list
    have non-empty names, the in-browser step of [handleNormalize] returns,
    for every entry of an [items] array, what the per-item step of the
    Normalization Runner returns - the same item, the same [changed] flag and
    the same exception. *)
Theorem page_step_is_runner_step (us : list unit_t) (e : option item) :
  Forall (fun u => name u <> []) us ->
  page_normalize_item us e = normalize_item us e.
Proof.
  intros Hnames.
  assert (Htruthy : Forall (fun u => str_truthy (name u) = true) us).
  { eapply Forall_impl; [exact Hnames |]. intros u Hu. now apply str_truthy_nonempty. }
  assert (Hn : forall tok, find (page_name_matches tok) us = find (name_matches tok) us).
  { intros tok. apply find_ext_in. eapply Forall_impl; [exact Htruthy |].
    intros u Hu. unfold name_matches, page_name_matches. now rewrite Hu. }
  assert (Hna : forall tok,
             find (page_name_or_abbr_matches tok) us = find (name_or_abbr_matches tok) us).
  { intros tok. apply find_ext_in. eapply Forall_impl; [exact Htruthy |].
    intros u Hu. unfold name_or_abbr_matches, page_name_or_abbr_matches,
                   name_matches, page_name_matches. now rewrite Hu. }
  assert (He1 : existsb (fun u => str_truthy (name u)) us
                = match us with [] => false | _ :: _ => true end)
    by now apply existsb_all.
  assert (He2 : existsb (fun u => str_truthy (name u) || abbr_truthy u) us
                = match us with [] => false | _ :: _ => true end).
  { apply existsb_all. eapply Forall_impl; [exact Htruthy |]. intros u Hu. now rewrite Hu. }
  destruct e as [it|]; [| reflexivity].
  unfold page_normalize_item, normalize_item. rewrite He1, He2.
  destruct (truthy (it !! "unit_abbreviation")); [reflexivity |].
  destruct (truthy (it !! "unit_id")); [reflexivity |].
  destruct (truthy (it !! "unit_name")).
  { destruct (it !! "unit_name") as [[| | |tok]|]; try (now destruct us).
    now rewrite Hn. }
  destruct (truthy (it !! "unit")); [| reflexivity].
  destruct (it !! "unit") as [[| | |tok]|]; try (now destruct us).
  now rewrite Hna.
Qed.

(** Without that condition the two steps differ: with a single unit whose
    name is empty and an item whose [unit_name] is a number, the callback of
    the script stops at its guard and the item is returned, while the callback
    of the page calls [toLowerCase] on the number and throws. *)
Lemma page_step_without_guard :
  let us := [mkUnit "u1" [] None] in
  let it : item := {["unit_name" := JNum 5]} in
  normalize_item us (Some it) = Some (Some it, false) /\
  page_normalize_item us (Some it) = None.
Proof. split; reflexivity. Qed.

(** X15.  The filter of the page is complete for both steps: an item that
    the filter does not select - it has a cached abbreviation, or none of
    [unit_id], [unit_name] and [unit] is set - is returned as it is, without a
    change and without an exception, by the step of the runner and by the step
    of the page, whatever the unit list is; so every item that either step
    changes is one the filter selects. *)
Theorem needs_normalization_complete (us : list unit_t) (it : item) :
  needs_normalization it = false ->
  normalize_item us (Some it) = Some (Some it, false) /\
  page_normalize_item us (Some it) = Some (Some it, false) /\
  (forall it', normalize_item us (Some it) <> Some (Some it', true)) /\
  (forall it', page_normalize_item us (Some it) <> Some (Some it', true)).
Proof.
  intros Hneeds.
  assert (H : normalize_item us (Some it) = Some (Some it, false) /\
              page_normalize_item us (Some it) = Some (Some it, false)).
  { unfold needs_normalization in Hneeds. unfold normalize_item, page_normalize_item.
    destruct (truthy (it !! "unit_abbreviation")); [now split |].
    simpl in Hneeds. apply orb_false_iff in Hneeds as [Hneeds Hu].
    apply orb_false_iff in Hneeds as [Hid Hn]. now rewrite Hid, Hn, Hu. }
  destruct H as [H1 H2]. rewrite H1, H2. repeat split; congruence.
Qed.

End Page.

Section Page_examples.
#[local] Existing Instance ascii_folding.

Lemma page_step_is_runner_step_witness :
  let us := [mkUnit "u1" "Kilogram" (Some "kg")] in
  let it : item := {["unit" := JStr "KG"]} in
  page_normalize_item us (Some it) = normalize_item us (Some it) /\
  page_normalize_item us (Some it)
  = Some (Some (<["unit_name" := JStr "Kilogram"]>
                 (<["unit_abbreviation" := JStr "kg"]> (<["unit_id" := JStr "u1"]> it))), true).
Proof.
  intros us it. split.
  - apply page_step_is_runner_step. repeat constructor. discriminate.
  - vm_compute. reflexivity.
Defined.

Lemma needs_normalization_complete_witness :
  let it : item := <["unit_abbreviation" := JStr "kg"]> {["unit" := JStr "KG"]} in
  normalize_item [mkUnit "u1" "Kilogram" None] (Some it) = Some (Some it, false).
Proof.
  intros it. apply (needs_normalization_complete [mkUnit "u1" "Kilogram" None] it).
  reflexivity.
Defined.

End Page_examples.

(** ** The audit *)

Lemma rows_with_cons (p : item -> bool) (b : boq_row) (bs : list boq_row) :
  rows_with p (b :: bs) = if row_any p b then b :: rows_with p bs else rows_with p bs.
Proof.
  unfold rows_with. rewrite filter_cons. destruct (row_any p b).
  - now rewrite decide_True.
  - now rewrite decide_False.
Qed.

Lemma audit_items_spec (its : list (option item)) : forall f1 f2,
  audit_items (f1, f2) its =
  if existsb (fun e => bool_decide (e = None)) its then None
  else Some (f1 || existsb (item_any legacy_item) its,
             f2 || existsb (item_any missing_item) its).
Proof.
  induction its as [|[it|] its IH]; intros f1 f2; simpl.
  - now rewrite !orb_false_r.
  - rewrite IH. unfold legacy_item, missing_item.
    destruct (existsb _ its); [reflexivity |].
    destruct (truthy (it !! "unit") || truthy (it !! "unit_name"));
      destruct (truthy (it !! "unit_abbreviation")); simpl;
      rewrite ?orb_true_r; reflexivity.
  - reflexivity.
Qed.

Lemma audit_sections_spec (secs : list section) : forall f1 f2,
  audit_sections (f1, f2) secs =
  if existsb sec_null secs then None
  else Some (f1 || existsb (sec_any legacy_item) secs,
             f2 || existsb (sec_any missing_item) secs).
Proof.
  induction secs as [|sec secs IH]; intros f1 f2; simpl.
  - now rewrite !orb_false_r.
  - unfold sec_null at 1, sec_any at 1 3. destruct (items sec) as [its|]; simpl.
    + rewrite audit_items_spec. destruct (existsb _ its); [reflexivity |].
      rewrite IH. destruct (existsb sec_null secs); [reflexivity |].
      now rewrite !orb_assoc.
    + apply IH.
Qed.

Lemma audit_boqs_spec (bs : list boq_row) : forall rep,
  audit_boqs rep bs =
  if existsb row_null bs then None
  else Some (mkReport (total rep)
               (withLegacy rep + length (rows_with legacy_item bs))
               (missingAbbrev rep + length (rows_with missing_item bs))
               (legacyList rep ++ map audit_key (rows_with legacy_item bs))
               (missingList rep ++ map audit_key (rows_with missing_item bs))).
Proof.
  induction bs as [|b bs IH]; intros [t wl ma ll ml]; simpl.
  - now rewrite !Nat.add_0_r, !app_nil_r.
  - rewrite !rows_with_cons. unfold audit_boq, row_null at 1, row_any at 1 2 3 4.
    destruct (b_data b) as [d|]; [| now rewrite IH].
    destruct (sections d) as [secs|]; [| now rewrite IH].
    rewrite audit_sections_spec. destruct (existsb sec_null secs); [reflexivity |].
    simpl. rewrite IH. destruct (existsb row_null bs); [reflexivity |].
    unfold audit_key.
    destruct (existsb (sec_any legacy_item) secs);
      destruct (existsb (sec_any missing_item) secs); simpl;
      rewrite <- ?app_assoc, ?Nat.add_succ_r; reflexivity.
Qed.

Lemma row_null_spec (b : boq_row) : row_null b = true <-> has_null_item b.
Proof.
  unfold row_null, has_null_item. split.
  - destruct (b_data b) as [d|] eqn:Hd; [| discriminate].
    destruct (sections d) as [secs|] eqn:Hsecs; [| discriminate].
    intros H. apply existsb_exists in H as (sec & Hsec & H).
    unfold sec_null in H. destruct (items sec) as [its|] eqn:Hits; [| discriminate].
    apply existsb_exists in H as (e & He & H). apply bool_decide_eq_true in H. subst e.
    exists d, secs, sec, its. repeat split; auto; now apply list_elem_of_In.
  - intros (d & secs & sec & its & -> & -> & Hsec & Hits & Hnull).
    apply existsb_exists. exists sec. split; [now apply list_elem_of_In |].
    unfold sec_null. rewrite Hits. apply existsb_exists. exists None.
    split; [now apply list_elem_of_In | now apply bool_decide_eq_true].
Qed.

Lemma audit_commits (s : store) :
  existsb row_null (boqs s) = false ->
  audit s = Some (mkReport (length (boqs s))
                    (length (rows_with legacy_item (boqs s)))
                    (length (rows_with missing_item (boqs s)))
                    (map audit_key (rows_with legacy_item (boqs s)))
                    (map audit_key (rows_with missing_item (boqs s)))).
Proof.
  intros Hnull. unfold audit. rewrite audit_boqs_spec, Hnull. reflexivity.
Qed.


(** ** Cleanup and the audit *)

Section Pure_loop.
Context {St A : Type} (body : St -> A -> option (St * A * bool)) (p : A -> bool).
Hypothesis body_pure : forall s x s' x' c, body s x = Some (s', x', c) -> s' = s /\ c = p x.

Lemma for_each_pure (xs : list A) : forall st st' xs' c,
  for_each body st xs = Some (st', xs', c) -> st' = st /\ c = existsb p xs.
Proof.
  induction xs as [|x xs IH]; intros st st' xs' c; simpl.
  - now intros [= <- <- <-].
  - destruct (body st x) as [[[st1 x1] c1]|] eqn:Hb; [| discriminate].
    destruct (for_each body st1 xs) as [[[st2 xs2] c2]|] eqn:Hr; [| discriminate].
    intros [= <- <- <-]. destruct (body_pure _ _ _ _ _ Hb) as [-> ->].
    destruct (IH _ _ _ _ Hr) as [-> ->]. now split.
Qed.
End Pure_loop.

Lemma updated_app (l1 l2 : list stmt) : updated (l1 ++ l2) = updated l1 ++ updated l2.
Proof.
  induction l1 as [|[r | bid d] l1 IH]; simpl; [reflexivity | exact IH | now rewrite IH].
Qed.

Lemma inserted_snoc_update (l : list stmt) (bid : jstring) (d : boq_data) :
  inserted (l ++ [UpdateBoq bid d]) = inserted l.
Proof.
  induction l as [|[r | b d'] l IH]; simpl; [reflexivity | now rewrite IH | exact IH].
Qed.

Lemma cleanup_body_pure s e s' e' c :
  cleanup_body s e = Some (s', e', c) -> s' = s /\ c = item_any cleanable_item e.
Proof.
  unfold cleanup_body, cleanup_item. destruct e as [it|]; [| discriminate].
  unfold item_any, cleanable_item, legacy_item.
  destruct (truthy (it !! "unit_id") && (truthy (it !! "unit") || truthy (it !! "unit_name")));
    now intros [= <- _ <-].
Qed.

Lemma cleanup_section_pure s sec s' sec' c :
  for_section cleanup_body s sec = Some (s', sec', c) ->
  s' = s /\ c = sec_any cleanable_item sec.
Proof.
  unfold for_section, sec_any. destruct (items sec) as [its|]; [| now intros [= <- _ <-]].
  destruct (for_each cleanup_body s its) as [[[s1 its1] c1]|] eqn:Hr; [| discriminate].
  intros [= <- _ <-]. exact (for_each_pure _ _ cleanup_body_pure its _ _ _ _ Hr).
Qed.

Lemma cleanup_boq_log (st st' : run_state) (b : boq_row) :
  for_boq cleanup_body st b = Some st' ->
  updated (log st') = updated (log st) ++ (if row_any cleanable_item b then [b_id b] else []) /\
  inserted (log st') = inserted (log st).
Proof.
  unfold for_boq, row_any.
  destruct (b_data b) as [d|]; [| intros [= <-]; now rewrite app_nil_r].
  destruct (sections d) as [secs|]; [| intros [= <-]; now rewrite app_nil_r].
  destruct (for_each (for_section cleanup_body) st secs) as [[[st1 secs1] c]|] eqn:Hr;
    [| discriminate].
  destruct (for_each_pure _ _ cleanup_section_pure secs _ _ _ _ Hr) as [-> ->].
  destruct (existsb (sec_any cleanable_item) secs); intros [= <-]; simpl.
  - now rewrite updated_app, inserted_snoc_update.
  - now rewrite app_nil_r.
Qed.

Lemma cleanup_boqs_log (bs : list boq_row) : forall st st',
  for_boqs cleanup_body st bs = Some st' ->
  updated (log st') = updated (log st) ++ map b_id (rows_with cleanable_item bs) /\
  inserted (log st') = inserted (log st).
Proof.
  induction bs as [|b bs IH]; intros st st'; simpl.
  - intros [= <-]. now rewrite app_nil_r.
  - destruct (for_boq cleanup_body st b) as [st1|] eqn:Hb; [| discriminate].
    intros Hrun. destruct (cleanup_boq_log _ _ _ Hb) as [Hu Hi].
    destruct (IH _ _ Hrun) as [Hu' Hi']. rewrite Hu', Hi', Hu, Hi, rows_with_cons.
    split; [| reflexivity]. rewrite <- app_assoc.
    now destruct (row_any cleanable_item b).
Qed.

Lemma row_any_mono (p q : item -> bool) (b : boq_row) :
  (forall it, p it = true -> q it = true) -> row_any p b = true -> row_any q b = true.
Proof.
  intros Hpq. unfold row_any.
  destruct (b_data b) as [d|]; [| discriminate].
  destruct (sections d) as [secs|]; [| discriminate].
  rewrite !existsb_exists. intros (sec & Hsec & H). exists sec. split; [exact Hsec |].
  unfold sec_any in *. destruct (items sec) as [its|]; [| discriminate].
  apply existsb_exists in H as (e & He & H). apply existsb_exists. exists e.
  split; [exact He |]. destruct e as [it|]; [now apply Hpq | discriminate].
Qed.

Lemma cleanup_commits_no_null (s s' : store) (lg : list stmt) :
  cleanup s = Some (s', lg) -> existsb row_null (boqs s) = false.
Proof.
  intros Hrun. destruct (existsb row_null (boqs s)) eqn:Hnull; [| reflexivity].
  apply existsb_exists in Hnull as (b & Hb & Hnull). apply row_null_spec in Hnull.
  unfold cleanup in Hrun.
  rewrite (for_boqs_throws cleanup_body (fun _ => eq_refl) b (boqs s) Hnull) in Hrun;
    [discriminate | now apply list_elem_of_In].
Qed.

(** X17.  The statements of a Cleanup run: a committed run issues no INSERT
    and exactly one UPDATE for every BOQ that holds an item with [unit_id] set
    and a legacy field set, in table order, and for no other BOQ.  The audit
    of the store before the run succeeds, and every BOQ that Cleanup updates is
    on its list of BOQs with legacy fields. *)
Theorem cleanup_updates_cleanable (s s' : store) (lg : list stmt) :
  cleanup s = Some (s', lg) ->
  updated lg = map b_id (rows_with cleanable_item (boqs s)) /\
  inserted lg = [] /\
  exists rep, audit s = Some rep /\
    forall b, b ∈ rows_with cleanable_item (boqs s) -> audit_key b ∈ legacyList rep.
Proof.
  intros Hrun. pose proof (cleanup_commits_no_null _ _ _ Hrun) as Hnull.
  unfold cleanup in Hrun.
  destruct (for_boqs cleanup_body (begin s) (boqs s)) as [st|] eqn:Hloop; [| discriminate].
  injection Hrun as <- <-.
  destruct (cleanup_boqs_log _ _ _ Hloop) as [Hu Hi]. simpl in Hu, Hi.
  split; [exact Hu |]. split; [exact Hi |].
  eexists. split; [exact (audit_commits s Hnull) |]. simpl.
  intros b Hb. apply (list_elem_of_fmap_2 audit_key).
  unfold rows_with in *. apply list_elem_of_filter in Hb as [Hb Hin].
  apply list_elem_of_filter. split; [| exact Hin].
  apply (row_any_mono cleanable_item); [| exact Hb].
  intros it H. unfold cleanable_item in H. now apply andb_true_iff in H as [_ H].
Qed.

Lemma existsb_Forall2 {A B : Type} (f : A -> bool) (g : B -> bool) (l : list A) (l' : list B) :
  Forall2 (fun x y => f x = g y) l l' -> existsb f l = existsb g l'.
Proof. induction 1 as [|x y l l' Hxy _ IH]; simpl; [reflexivity | now rewrite Hxy, IH]. Qed.

Lemma cleanup_post_flags (it it' : item) :
  cleanup_post it it' ->
  legacy_item it' = stuck_item it /\ missing_item it' = missing_item it.
Proof.
  intros (Hset & _ & Hsame & Hframe & _). unfold legacy_item, stuck_item, missing_item.
  rewrite (Hframe "unit_abbreviation") by discriminate. split; [| reflexivity].
  unfold is_set in *. destruct (truthy (it !! "unit_id")) eqn:Hid; simpl.
  - destruct (Hset eq_refl) as [H1 H2].
    apply not_true_is_false in H1, H2. now rewrite H1, H2.
  - rewrite Hsame by congruence. reflexivity.
Qed.

Lemma cleanup_row_flags (r r' : boq_row) :
  row_rel (on_items cleanup_post) r r' ->
  audit_key r' = audit_key r /\ row_null r' = false /\
  row_any legacy_item r' = row_any stuck_item r /\
  row_any missing_item r' = row_any missing_item r.
Proof.
  intros (Hid & Hnum & _ & Hd). unfold audit_key, row_null, row_any.
  rewrite Hid, Hnum. split; [reflexivity |].
  destruct Hd as [d d' Hd|]; [| auto].
  unfold data_rel in Hd. destruct Hd as [secs secs' Hs|]; [| auto].
  assert (Hsec : Forall2 (fun sec sec' =>
                   sec_null sec' = false /\
                   sec_any legacy_item sec' = sec_any stuck_item sec /\
                   sec_any missing_item sec' = sec_any missing_item sec) secs secs').
  { eapply Forall2_impl; [exact Hs |]. intros sec sec' [_ Hits].
    unfold sec_null, sec_any. destruct Hits as [its its' Hits|]; [| auto].
    assert (He : Forall2 (fun e e' =>
                   bool_decide (e' = None) = false /\
                   item_any legacy_item e' = item_any stuck_item e /\
                   item_any missing_item e' = item_any missing_item e) its its').
    { eapply Forall2_impl; [exact Hits |].
      intros e e' (it & it' & -> & -> & Hpost). simpl.
      split; [first [reflexivity | now apply bool_decide_eq_false_2] |].
      now apply cleanup_post_flags. }
    split; [| split].
    - rewrite (existsb_Forall2 (fun e => bool_decide (e = None)) (fun _ => false) its' its).
      + clear. induction its; simpl; auto.
      + apply Forall2_flip. eapply Forall2_impl; [exact He |]. now intros e e' [H _].
    - symmetry. apply existsb_Forall2. eapply Forall2_impl; [exact He |].
      now intros e e' (_ & H & _).
    - symmetry. apply existsb_Forall2. eapply Forall2_impl; [exact He |].
      now intros e e' (_ & _ & H). }
  split; [| split].
  - rewrite (existsb_Forall2 sec_null (fun _ => false) secs' secs).
    + clear. induction secs; simpl; auto.
    + apply Forall2_flip. eapply Forall2_impl; [exact Hsec |]. now intros x y [H _].
  - symmetry. apply existsb_Forall2. eapply Forall2_impl; [exact Hsec |].
    now intros x y (_ & H & _).
  - symmetry. apply existsb_Forall2. eapply Forall2_impl; [exact Hsec |].
    now intros x y (_ & _ & H).
Qed.

Lemma rows_with_Forall2 (p q : item -> bool) (l l' : list boq_row) :
  Forall2 (fun r r' => audit_key r' = audit_key r /\ row_any q r' = row_any p r) l l' ->
  map audit_key (rows_with q l') = map audit_key (rows_with p l).
Proof.
  induction 1 as [|r r' l l' [Hk Hp] _ IH]; [reflexivity |].
  rewrite !rows_with_cons, Hp. destruct (row_any p r); simpl; now rewrite ?Hk, IH.
Qed.

(** The rows of a committed Cleanup run, position by position. *)
Lemma cleanup_rows_rel (s s' : store) (lg : list stmt) :
  NoDup (map b_id (boqs s)) ->
  cleanup s = Some (s', lg) ->
  Forall2 (row_rel (on_items cleanup_post)) (boqs s) (boqs s').
Proof.
  intros Hnd Hrun. unfold cleanup in Hrun.
  destruct (for_boqs cleanup_body (begin s) (boqs s)) as [st|] eqn:Hloop; [| discriminate].
  injection Hrun as <- <-. simpl.
  assert (Hsub : forall b, b ∈ boqs s -> b ∈ boqs s /\ (fun _ : boq_row => true) b = true)
    by (intros b Hb; now split).
  destruct (for_boqs_spec cleanup_body (fun _ => True) (fun _ => True)
              (on_items cleanup_post)) with (V := fun _ : boq_row => true)
              (T0 := boqs s) (bs := boqs s) (st := begin s) (st' := st) as [_ Hback]; auto.
  - intros s0 x s1 x' ch _ Hb _. split; [exact I |].
    now destruct (cleanup_body_fwd_back _ _ _ _ _ Hb) as (_ & HQ & _).
  - intros s0 x s1 x' Hb. destruct (cleanup_body_fwd_back _ _ _ _ _ Hb) as (-> & _ & Hs).
    split; [reflexivity | now apply Hs].
  - intros s0 x s1 x' ch Hb. now destruct (cleanup_body_fwd_back _ _ _ _ _ Hb) as [-> _].
  - destruct (Hback I) as [_ Hrel]. apply Hrel. simpl. apply pending_rel_start. auto.
Qed.

(** X18.  The audit after Cleanup: on a [boqs] table with distinct primary
    keys, the audit of the store that a committed Cleanup run leaves succeeds;
    the BOQs it lists with legacy fields are exactly those that held, before
    the run, an item with a legacy field and no [unit_id] - none when every
    item with a legacy field had [unit_id] - and its list of BOQs with a
    missing abbreviation is the one of the store before the run. *)
Theorem audit_after_cleanup (s s' : store) (lg : list stmt) :
  NoDup (map b_id (boqs s)) ->
  cleanup s = Some (s', lg) ->
  exists rep', audit s' = Some rep' /\
    legacyList rep' = map audit_key (rows_with stuck_item (boqs s)) /\
    missingList rep' = map audit_key (rows_with missing_item (boqs s)) /\
    total rep' = length (boqs s) /\
    (rows_with stuck_item (boqs s) = [] -> withLegacy rep' = 0).
Proof.
  intros Hnd Hrun. pose proof (cleanup_rows_rel _ _ _ Hnd Hrun) as Hrel.
  assert (Hflags : Forall2 (fun r r' =>
                     audit_key r' = audit_key r /\ row_null r' = false /\
                     row_any legacy_item r' = row_any stuck_item r /\
                     row_any missing_item r' = row_any missing_item r) (boqs s) (boqs s')).
  { eapply Forall2_impl; [exact Hrel |]. intros r r'. apply cleanup_row_flags. }
  assert (Hnull : existsb row_null (boqs s') = false).
  { rewrite (existsb_Forall2 row_null (fun _ => false) (boqs s') (boqs s)).
    - clear. induction (boqs s); simpl; auto.
    - apply Forall2_flip. eapply Forall2_impl; [exact Hflags |]. now intros x y (_ & H & _). }
  assert (Hleg : map audit_key (rows_with legacy_item (boqs s'))
                 = map audit_key (rows_with stuck_item (boqs s))).
  { apply rows_with_Forall2. eapply Forall2_impl; [exact Hflags |].
    now intros x y (H1 & _ & H2 & _). }
  assert (Hmis : map audit_key (rows_with missing_item (boqs s'))
                 = map audit_key (rows_with missing_item (boqs s))).
  { apply rows_with_Forall2. eapply Forall2_impl; [exact Hflags |].
    now intros x y (H1 & _ & _ & H2). }
  eexists. split; [exact (audit_commits s' Hnull) |]. simpl.
  split; [exact Hleg |]. split; [exact Hmis |].
  split; [symmetry; eapply Forall2_length; eauto |].
  intros Hnone. rewrite <- (length_map audit_key), Hleg, Hnone. reflexivity.
Qed.

Section Audit_examples.
#[local] Existing Instance ascii_folding.

(** The scenario: before the pipeline the audit lists the BOQ twice; after
    the pipeline and Cleanup it lists it nowhere. *)
Lemma cleanup_updates_cleanable_witness :
  let s := run_migration scenario_store in
  exists s' lg, cleanup s = Some (s', lg) /\ updated lg = [js "b1"] /\ inserted lg = [].
Proof.
  intros s.
  assert (Hsome : match cleanup s with Some _ => True | None => False end)
    by (vm_compute; exact I).
  destruct (cleanup s) as [[s' lg]|] eqn:Hrun; [| contradiction].
  exists s', lg. split; [reflexivity |].
  destruct (cleanup_updates_cleanable s s' lg Hrun) as (Hu & Hi & _).
  split; [| exact Hi]. rewrite Hu. vm_compute. reflexivity.
Defined.

Lemma audit_after_cleanup_witness :
  let s := run_migration scenario_store in
  exists rep', audit (run_cleanup s) = Some rep' /\ legacyList rep' = [] /\
               missingList rep' = [].
Proof.
  intros s.
  assert (Hsome : match cleanup s with Some _ => True | None => False end)
    by (vm_compute; exact I).
  destruct (cleanup s) as [[s' lg]|] eqn:Hrun; [| contradiction].
  assert (Hnd : NoDup (map b_id (boqs s)))
    by (apply (bool_decide_unpack _); vm_compute; exact I).
  destruct (audit_after_cleanup s s' lg Hnd Hrun) as (rep' & Ha & Hl & Hm & _).
  exists rep'. unfold run_cleanup, after. rewrite Hrun.
  split; [exact Ha |]. split.
  - rewrite Hl. vm_compute. reflexivity.
  - rewrite Hm. vm_compute. reflexivity.
Defined.

Example audit_scenario :
  audit scenario_store
  = Some (mkReport 1 1 1 [(js "b1", Some (js "BOQ-0001"))] [(js "b1", Some (js "BOQ-0001"))]).
Proof. vm_compute. reflexivity. Qed.

End Audit_examples.

(** ** Items created in the application *)

Section Created.
Context {folding : CaseFolding}.

Lemma created_item_lookups (us : list unit_t) (d : jstring) (q r : json) (unit : jstring) :
  let it := created_item us d q r unit in
  it !! "unit_id" = Some (if str_truthy unit then JStr unit else JNull) /\
  it !! "unit_name" = Some (match find (fun u => bool_decide (id u = unit)) us with
                            | Some unitObj => JStr (name unitObj)
                            | None => if str_truthy unit then JStr unit else JNull
                            end) /\
  it !! "unit" = None /\ it !! "unit_abbreviation" = None /\
  it !! "description" = Some (JStr d) /\ it !! "quantity" = Some q /\ it !! "rate" = Some r.
Proof.
  unfold created_item. simpl.
  repeat split;
    repeat first [ rewrite lookup_insert_eq; reflexivity
                 | rewrite lookup_insert_ne by discriminate
                 | apply lookup_empty ].
Qed.

(** X19.  The life of an item created in the application, the unit
    identifiers being distinct and non-empty.  It carries neither the legacy
    [unit] nor a cached abbreviation, and the Migration Pipeline leaves it
    alone.  When a unit of the list was selected, the item holds that unit's
    identifier and name, the viewer shows the unit's abbreviation or else its
    name, and the Normalization Runner caches exactly that on the item, keeping
    its [unit_id].  When no unit was selected, the two unit fields are [null],
    the viewer shows the placeholder and the runner leaves the item alone. *)
Theorem created_item_life (us : list unit_t) (d : jstring) (q r : json) (unit : jstring) :
  NoDup (map id us) ->
  Forall (fun u => id u <> []) us ->
  let it := created_item us d q r unit in
  it !! "unit" = None /\ it !! "unit_abbreviation" = None /\
  (forall c st, migrate_item c st (Some it) = Some (st, Some it, false)) /\
  (forall u, u ∈ us -> unit = id u ->
     it !! "unit_id" = Some (JStr (id u)) /\ it !! "unit_name" = Some (JStr (name u)) /\
     viewer_unit us it = abbr_or_name u /\
     exists it', normalize_item us (Some it) = Some (Some it', true) /\
                 it' !! "unit_abbreviation" = abbr_or_name u /\
                 it' !! "unit_id" = Some (JStr (id u))) /\
  (unit = [] ->
     it !! "unit_id" = Some JNull /\ it !! "unit_name" = Some JNull /\
     viewer_unit us it = Some (JStr "-") /\
     normalize_item us (Some it) = Some (Some it, false) /\
     cleanup_item (Some it) = Some (Some it, false)).
Proof.
  intros Hnd Hids it.
  destruct (created_item_lookups us d q r unit) as (Hid & Hname & Hunit & Hab & _).
  fold it in Hid, Hname, Hunit, Hab.
  assert (Hfind : forall u, u ∈ us -> unit = id u ->
                    find (fun v => bool_decide (id v = unit)) us = Some u).
  { intros u Hu ->. rewrite <- (find_id_unique us u Hnd Hu). apply find_ext_eq.
    intros v. reflexivity. }
  assert (Hnone : unit = [] -> find (fun v => bool_decide (id v = unit)) us = None).
  { intros ->. destruct (find _ us) as [v|] eqn:Hf; [| reflexivity].
    apply find_some_elem in Hf as [Hin Hv]. apply bool_decide_eq_true in Hv.
    rewrite Forall_forall in Hids. now destruct (Hids v Hin). }
  split; [exact Hunit |]. split; [exact Hab |]. split; [| split].
  - intros c st. unfold migrate_item. rewrite Hid.
    destruct unit as [|a unit']; simpl; [| reflexivity].
    unfold js_or. rewrite Hname, Hunit, (Hnone eq_refl). reflexivity.
  - intros u Hu Heq. rewrite Forall_forall in Hids.
    assert (Ht : str_truthy unit = true) by (rewrite Heq; apply str_truthy_nonempty, Hids, Hu).
    rewrite Ht in Hid. rewrite (Hfind u Hu Heq) in Hname. rewrite Heq in Hid.
    split; [exact Hid |]. split; [exact Hname |].
    assert (Htid : truthy (it !! "unit_id") = true).
    { rewrite Hid. simpl. now rewrite <- Heq. }
    split.
    + unfold viewer_unit. rewrite Htid, Hid. now rewrite (find_id_unique us u Hnd Hu).
    + unfold normalize_item. rewrite Hab, Htid, Hid. simpl.
      rewrite (find_id_unique us u Hnd Hu).
      destruct (abbr_or_name_some u) as (j & Hj & _). rewrite Hj. simpl.
      eexists. split; [reflexivity |]. split.
      * rewrite lookup_insert_ne by discriminate. apply lookup_insert_eq.
      * now rewrite !lookup_insert_ne by discriminate.
  - intros ->. simpl in Hid. rewrite (Hnone eq_refl) in Hname. simpl in Hname.
    split; [exact Hid |]. split; [exact Hname |].
    unfold viewer_unit, normalize_item, cleanup_item. rewrite Hid, Hname, Hunit, Hab. simpl.
    auto.
Qed.

End Created.

Section Created_examples.
#[local] Existing Instance ascii_folding.

Lemma created_item_life_witness :
  let us := [mkUnit "u1" "Cubic metre" (Some "m3")] in
  let it := created_item us "Excavation" (JNum 10) (JNum 1500) "u1" in
  viewer_unit us it = Some (JStr "m3") /\
  migrate_item "c1" (mkRun [] [] [] []) (Some it) = Some (mkRun [] [] [] [], Some it, false).
Proof.
  intros us it.
  assert (Hnd : NoDup (map id us)) by apply NoDup_singleton.
  assert (Hids : Forall (fun u => id u <> []) us) by (repeat constructor; discriminate).
  destruct (created_item_life us "Excavation" (JNum 10) (JNum 1500) "u1" Hnd Hids)
    as (_ & _ & Hmig & Hsel & _).
  split.
  - destruct (Hsel (mkUnit "u1" "Cubic metre" (Some "m3"))) as (_ & _ & Hv & _);
      [apply list_elem_of_here | reflexivity |]. exact Hv.
  - apply Hmig.
Defined.

End Created_examples.
